(** * Compact telemetry codec: a shallow embedding of the encoders

    The development embeds the encoders of the container-telemetry
    repository and proves the properties its specification states:

    - [MessagePack Project/simulate_c_msgpack.py]: the simulated embedded
      MessagePack encoder;
    - [MessagePack Project/locust_sender.py]: the reference encoder
      ([msgpack.packb]);
    - [Protobuf_Service_with_Dashboard/encoder_to_astrocast.py]: the
      positional-schema encoder with its size check and [parse_acc];
    - [Struct_Zlib_Service/locust_sender.py]: the compact struct encoder and
      its batch generator.

    Conventions.  A Python [str] is represented by the [string] of its UTF-8
    bytes, so [s.encode('utf-8')] is [list_byte_of_string s]; character
    classes ([\d], whitespace) are the ASCII ones.  A Python [int] is a [Z],
    a [bytes] value is a [list byte], a [float] is an IEEE binary64 value of
    [SpecFloat].  A [dict] is an association list in insertion order.  A call
    that may raise returns a [result].

    The built-ins the encoders call ([int], [float], [str.split],
    [re.findall] on the one pattern used, [bytes], [struct.pack] in
    big-endian standard mode) are modelled after CPython; the cap CPython
    puts on the number of digits [int] reads is left out.  [zlib.compress]
    and the generated protobuf module are parameters.  Logging and timing
    are not modelled. *)

From Stdlib Require Import ZArith List Bool Lia.
From Stdlib.Strings Require Import String Ascii Byte.
From Stdlib.Floats Require Import SpecFloat.
Import ListNotations.
Local Open Scope string_scope.
Local Open Scope list_scope.
Local Open Scope Z_scope.

(** ** Python runtime: exceptions and results *)

(** The exceptions the modelled code can raise, by class and cause. *)
Inductive exn : Type :=
| KeyError (key : string)
    (* d[key] on a missing key *)
| ValueError_bytes (v : Z)
    (* bytes([.., v, ..]): bytes must be in range(0, 256) *)
| ValueError_int (lit : string)
    (* int(lit): invalid literal for int() with base 10 *)
| ValueError_float (lit : string)
    (* float(lit): could not convert string to float *)
| ValueError_acc (raw : string)
    (* parse_acc: acc must contain 3 numeric values; got raw *)
| ValueError_missing (missing : list string)
    (* validate_fields: Missing required fields: missing *)
| ValueError_payload (size limit : Z)
    (* serialize: Encoded payload is size bytes (>= limit) *)
| ValueError_field (field : string) (v : Z)
    (* protobuf setter: Value out of range *)
| StructError_format (c : ascii)
    (* struct.pack: bad char in struct format *)
| StructError_items (expected got : nat)
    (* struct.pack expected .. items for packing (got ..) *)
| StructError_range (code : ascii) (v : Z)
    (* 'B'/'H' format requires 0 <= number <= 255/65535 *)
| StructError_type (code : ascii)
    (* required argument is not an integer / not a float *)
| OverflowError_f
    (* float too large to pack with f format *)
| ValueError_too_large (what : string)
    (* msgpack: the object is too large to be packed *)
| UnpackError (reason : string)
    (* msgpack: the bytes are not one well-formed map of strings *)
| AttributeError (name : string)
| TypeError (what : string)
| ZeroDivisionError.

Inductive result (A : Type) : Type :=
| Ok (a : A)
| Raise (e : exn).
Arguments Ok {A} a.
Arguments Raise {A} e.

Definition bind {A B : Type} (c : result A) (k : A -> result B) : result B :=
  match c with
  | Ok a => k a
  | Raise e => Raise e
  end.

Notation "x <- c ;; k" := (bind c (fun x => k))
  (at level 61, c at next level, right associativity).

Definition is_ok {A : Type} (c : result A) : bool :=
  match c with Ok _ => true | Raise _ => false end.

(** [[f(x) for x in l]]: the first exception, in list order, propagates. *)
Fixpoint mapM {A B : Type} (f : A -> result B) (l : list A) : result (list B) :=
  match l with
  | [] => Ok []
  | x :: t => y <- f x ;; ys <- mapM f t ;; Ok (y :: ys)
  end.

(** ** Python runtime: dict *)

Definition dict (V : Type) : Type := list (string * V).

Fixpoint dict_get {V : Type} (d : dict V) (k : string) : option V :=
  match d with
  | [] => None
  | (k', v) :: d' => if String.eqb k' k then Some v else dict_get d' k
  end.

(** [d[k]] *)
Definition getitem {V : Type} (d : dict V) (k : string) : result V :=
  match dict_get d k with
  | Some v => Ok v
  | None => Raise (KeyError k)
  end.

(** [k in d] *)
Definition contains {V : Type} (d : dict V) (k : string) : bool :=
  match dict_get d k with Some _ => true | None => false end.

(** [d[k] = v]: an existing key keeps its position, a new key goes last. *)
Fixpoint dict_set {V : Type} (d : dict V) (k : string) (v : V) : dict V :=
  match d with
  | [] => [(k, v)]
  | (k', v') :: d' =>
      if String.eqb k' k then (k, v) :: d' else (k', v') :: dict_set d' k v
  end.

Definition keys {V : Type} (d : dict V) : list string := map fst d.

(** A Python dict holds each key once. *)
Definition dict_wf {V : Type} (d : dict V) : Prop := NoDup (keys d).

(** [d1 == d2] on dicts: the same key-to-value mapping, whatever the order. *)
Definition dict_equal {V : Type} (d1 d2 : dict V) : Prop :=
  forall k, dict_get d1 k = dict_get d2 k.

(** ** Python runtime: bytes *)

Definition byte_to_Z (b : byte) : Z := Z.of_N (Byte.to_N b).

Definition byte_of_Z (v : Z) : result byte :=
  if (0 <=? v) && (v <? 256) then
    match Byte.of_N (Z.to_N v) with
    | Some b => Ok b
    | None => Raise (ValueError_bytes v)
    end
  else Raise (ValueError_bytes v).

(** [bytes([v1, .., vn])] *)
Definition bytes_of (l : list Z) : result (list byte) := mapM byte_of_Z l.

(** [s.encode('utf-8')] *)
Definition encode_utf8 (s : string) : list byte := list_byte_of_string s.

(** [len(b)] *)
Definition len {A : Type} (l : list A) : Z := Z.of_nat (List.length l).

(** ** MessagePack Project/simulate_c_msgpack.py *)

Definition msgpack_encode_string (s : string) : result (list byte) :=
  let data := encode_utf8 s in
  let length := len data in
  if length <=? 31 then
    hd <- bytes_of [0xa0 + length] ;; Ok (hd ++ data)
  else if length <=? 255 then
    hd <- bytes_of [0xd9; length] ;; Ok (hd ++ data)
  else
    hd <- bytes_of [0xda; Z.land (Z.shiftr length 8) 0xFF; Z.land length 0xFF] ;;
    Ok (hd ++ data).

Definition msgpack_encode_map (count : Z) : result (list byte) :=
  if count <=? 15 then
    bytes_of [0x80 + count]
  else
    bytes_of [0xde; Z.land (Z.shiftr count 8) 0xFF; Z.land count 0xFF].

Definition field_names : list string :=
  ["msisdn"; "iso6346"; "time"; "rssi"; "cgi"; "ble-m"; "bat-soc"; "acc";
   "temperature"; "humidity"; "pressure"; "door"; "gnss"; "latitude";
   "longitude"; "altitude"; "speed"; "heading"; "nsat"; "hdop"].

(** The loop [for key, value in fields: result.extend(..); result.extend(..)]. *)
Fixpoint encode_fields (fields : list (string * string)) (buf : list byte)
  : result (list byte) :=
  match fields with
  | [] => Ok buf
  | (key, value) :: rest =>
      k <- msgpack_encode_string key ;;
      v <- msgpack_encode_string value ;;
      encode_fields rest (buf ++ k ++ v)
  end.

Definition simulate_c_msgpack_compression (data : dict string)
  : result (list byte) :=
  hdr <- msgpack_encode_map 20 ;;
  let buf := [] ++ hdr in
  fields <- mapM (fun key => value <- getitem data key ;; Ok (key, value))
                 field_names ;;
  encode_fields fields buf.

Definition generate_test_data : dict string :=
  [("msisdn", "393600504920");
   ("iso6346", "LMCU0954822");
   ("time", "300725 221117.8");
   ("rssi", "21");
   ("cgi", "999-01-1-31D41");
   ("ble-m", "1");
   ("bat-soc", "93");
   ("acc", "-974.0700 -25.1270 -45.6744");
   ("temperature", "18.32");
   ("humidity", "75.44");
   ("pressure", "1016.7932");
   ("door", "D");
   ("gnss", "1");
   ("latitude", "31.9277");
   ("longitude", "28.6378");
   ("altitude", "56.62");
   ("speed", "0.8");
   ("heading", "302.07");
   ("nsat", "11");
   ("hdop", "5.0")].

(** ** MessagePack Project/locust_sender.py: the reference encoder *)

(** The low byte of [v]. *)
Definition byte_wrap (v : Z) : byte :=
  match Byte.of_N (Z.to_N (v mod 256)) with
  | Some b => b
  | None => "000"%byte
  end.

(** [v] on [n] bytes, most significant byte first. *)
Fixpoint be_bytes (n : nat) (v : Z) : list byte :=
  match n with
  | O => []
  | S n' => byte_wrap (v / 256 ^ Z.of_nat n') :: be_bytes n' v
  end.

(** Modelled from the spec: [msgpack.packb(data, use_bin_type=True)] is the
    library call behind [msgpack_compress] and is not under src/.  The model
    follows the byte grammar of section 6 of the specification: a map header
    for the entry count, then each key and each value as a length-tagged
    string, in the iteration order of the dict itself.  Above the 16-bit
    class of that table the MessagePack format goes on with 32-bit lengths
    (markers 0xdb and 0xdf). *)
Definition packb_str (s : string) : result (list byte) :=
  let data := encode_utf8 s in
  let n := len data in
  if n <? 32 then Ok (byte_wrap (0xa0 + n) :: data)
  else if n <=? 0xff then Ok ("217"%byte :: be_bytes 1 n ++ data)
  else if n <=? 0xffff then Ok ("218"%byte :: be_bytes 2 n ++ data)
  else if n <=? 0xffffffff then Ok ("219"%byte :: be_bytes 4 n ++ data)
  else Raise (ValueError_too_large "str").

(** Modelled from the spec: the map header of [msgpack.packb]. *)
Definition packb_map_header (n : Z) : result (list byte) :=
  if n <=? 0x0f then Ok [byte_wrap (0x80 + n)]
  else if n <=? 0xffff then Ok ("222"%byte :: be_bytes 2 n)
  else if n <=? 0xffffffff then Ok ("223"%byte :: be_bytes 4 n)
  else Raise (ValueError_too_large "dict").

(** Modelled from the spec: the entries of the dict, in its own order. *)
Fixpoint packb_items (items : list (string * string)) : result (list byte) :=
  match items with
  | [] => Ok []
  | (k, v) :: rest =>
      kb <- packb_str k ;;
      vb <- packb_str v ;;
      tl <- packb_items rest ;;
      Ok (kb ++ vb ++ tl)
  end.

(** Modelled from the spec: [msgpack.packb] on a dict of strings. *)
Definition packb (data : dict string) : result (list byte) :=
  hdr <- packb_map_header (len data) ;;
  body <- packb_items data ;;
  Ok (hdr ++ body).

Definition msgpack_compress (data : dict string) : result (list byte) :=
  packb data.

(** Modelled from the spec: the decoder ([msgpack.unpackb(b, raw=False)] in
    [test_compression]) is not under src/.  Following section 4.2, decoding
    reverses the wire contract: a map header (0x80 + count, or 0xde and a
    2-byte big-endian count), then count pairs of length-tagged strings
    (0xa0 + len; 0xd9 and a 1-byte length; 0xda and a 2-byte big-endian
    length), and nothing after them; as for the encoder, the 32-bit classes
    of the format (0xdb, 0xdf) are read too.  [take_bytes] reads the [n]
    bytes of a string. *)
Definition take_bytes (n : Z) (bs : list byte) : result (list byte * list byte) :=
  if n <=? len bs then Ok (firstn (Z.to_nat n) bs, skipn (Z.to_nat n) bs)
  else Raise (UnpackError "truncated").

(** The value of bytes read most significant first. *)
Definition be_value (bs : list byte) : Z :=
  fold_left (fun acc b => acc * 256 + byte_to_Z b) bs 0.

(** Modelled from the spec: one length-tagged string of the decoder. *)
Definition unpack_str (bs : list byte) : result (string * list byte) :=
  match bs with
  | [] => Raise (UnpackError "truncated")
  | t :: rest =>
      let tag := byte_to_Z t in
      if (0xa0 <=? tag) && (tag <=? 0xbf) then
        p <- take_bytes (tag - 0xa0) rest ;;
        Ok (string_of_list_byte (fst p), snd p)
      else if tag =? 0xd9 then
        match rest with
        | l :: rest' =>
            p <- take_bytes (be_value [l]) rest' ;;
            Ok (string_of_list_byte (fst p), snd p)
        | _ => Raise (UnpackError "truncated")
        end
      else if tag =? 0xda then
        match rest with
        | h :: l :: rest' =>
            p <- take_bytes (be_value [h; l]) rest' ;;
            Ok (string_of_list_byte (fst p), snd p)
        | _ => Raise (UnpackError "truncated")
        end
      else if tag =? 0xdb then
        match rest with
        | b3 :: b2 :: b1 :: b0 :: rest' =>
            p <- take_bytes (be_value [b3; b2; b1; b0]) rest' ;;
            Ok (string_of_list_byte (fst p), snd p)
        | _ => Raise (UnpackError "truncated")
        end
      else Raise (UnpackError "not a string")
  end.

(** Modelled from the spec: the map header of the decoder. *)
Definition unpack_map_header (bs : list byte) : result (Z * list byte) :=
  match bs with
  | [] => Raise (UnpackError "truncated")
  | t :: rest =>
      let tag := byte_to_Z t in
      if (0x80 <=? tag) && (tag <=? 0x8f) then Ok (tag - 0x80, rest)
      else if tag =? 0xde then
        match rest with
        | h :: l :: rest' => Ok (be_value [h; l], rest')
        | _ => Raise (UnpackError "truncated")
        end
      else if tag =? 0xdf then
        match rest with
        | b3 :: b2 :: b1 :: b0 :: rest' => Ok (be_value [b3; b2; b1; b0], rest')
        | _ => Raise (UnpackError "truncated")
        end
      else Raise (UnpackError "not a map")
  end.

(** Modelled from the spec: the key/value pairs of the decoder; a key met
    again replaces the earlier value. *)
Fixpoint unpack_pairs (n : nat) (bs : list byte) (acc : dict string)
  : result (dict string * list byte) :=
  match n with
  | O => Ok (acc, bs)
  | S n' =>
      k <- unpack_str bs ;;
      v <- unpack_str (snd k) ;;
      unpack_pairs n' (snd v) (dict_set acc (fst k) (fst v))
  end.

(** Modelled from the spec: [msgpack.unpackb] on the bytes of one map of
    strings. *)
Definition unpackb (bs : list byte) : result (dict string) :=
  h <- unpack_map_header bs ;;
  p <- unpack_pairs (Z.to_nat (fst h)) (snd h) [] ;;
  match snd p with
  | [] => Ok (fst p)
  | _ :: _ => Raise (UnpackError "extra data")
  end.

(** ** Python runtime: str methods, int() and float() *)

Definition code (c : ascii) : Z := Z.of_N (N_of_ascii c).

(** [\d], and the digits [int()] and [float()] read. *)
Definition is_digit (c : ascii) : bool := (48 <=? code c) && (code c <=? 57).

Definition digit_value (c : ascii) : Z := code c - 48.

(** [str.isspace] on one character. *)
Definition is_space (c : ascii) : bool :=
  (code c =? 32) || ((9 <=? code c) && (code c <=? 13))
  || ((28 <=? code c) && (code c <=? 31)).

Definition is_sign (c : ascii) : bool := (code c =? 43) || (code c =? 45).

Fixpoint lstrip (s : list ascii) : list ascii :=
  match s with
  | c :: t => if is_space c then lstrip t else s
  | [] => []
  end.

(** [s.strip()] *)
Definition strip (s : list ascii) : list ascii := rev (lstrip (rev (lstrip s))).

Definition flush (cur : list ascii) : list string :=
  match cur with
  | [] => []
  | _ :: _ => [string_of_list_ascii (rev cur)]
  end.

Fixpoint split_from (s cur : list ascii) : list string :=
  match s with
  | [] => flush cur
  | c :: t =>
      if is_space c then flush cur ++ split_from t []
      else split_from t (c :: cur)
  end.

(** [s.split()]: the maximal runs of non-whitespace characters. *)
Definition str_split (s : string) : list string :=
  split_from (list_ascii_of_string s) [].

(** The digits of [digit (["_"] digit)*] after its first digit. *)
Fixpoint digits_run (s : list ascii) : list ascii * list ascii :=
  match s with
  | [] => ([], [])
  | c :: t =>
      if is_digit c then
        let (ds, r) := digits_run t in (c :: ds, r)
      else if code c =? 95 then
        match t with
        | d :: t' =>
            if is_digit d then let (ds, r) := digits_run t' in (d :: ds, r)
            else ([], s)
        | [] => ([], s)
        end
      else ([], s)
  end.

(** [digitpart ::= digit (["_"] digit)*]: its digits and what follows. *)
Definition digitpart (s : list ascii) : option (list ascii * list ascii) :=
  match s with
  | c :: t =>
      if is_digit c then let (ds, r) := digits_run t in Some (c :: ds, r)
      else None
  | [] => None
  end.

Definition digits_value (ds : list ascii) : Z :=
  fold_left (fun acc c => acc * 10 + digit_value c) ds 0.

(** An optional sign: whether it is a minus, and what follows. *)
Definition take_sign (s : list ascii) : bool * list ascii :=
  match s with
  | c :: t => if is_sign c then (code c =? 45, t) else (false, s)
  | [] => (false, [])
  end.

(** [int(s)] on a str, base 10. *)
Definition py_int (s : string) : result Z :=
  let (neg, body) := take_sign (strip (list_ascii_of_string s)) in
  match digitpart body with
  | Some (ds, []) => Ok (if neg then - digits_value ds else digits_value ds)
  | _ => Raise (ValueError_int s)
  end.

(** A Python float: IEEE binary64. *)
Definition float : Type := spec_float.

(** The binary64 nearest to [m * 10 ^ e10], ties to even. *)
Definition float_of_decimal (neg : bool) (m e10 : Z) : float :=
  match m with
  | Zpos p =>
      if 0 <=? e10 then
        binary_round 53 1024 neg (p * Z.to_pos (10 ^ e10))%positive 0
      else
        let '(q, e, l) := SFdiv_core_binary 53 1024 m 0 (10 ^ (- e10)) 0 in
        binary_round_aux 53 1024 neg q e l
  | _ => S754_zero neg
  end.

(** [int] to [float], as [float(n)] does. *)
Definition float_of_Z (n : Z) : float := binary_normalize 53 1024 n 0 false.

Definition lower (c : ascii) : ascii :=
  if (65 <=? code c) && (code c <=? 90)
  then ascii_of_N (Z.to_N (code c + 32)) else c.

Definition is_e (c : ascii) : bool := (code c =? 101) || (code c =? 69).

(** [[exponent]] then the end of the literal; [ip] and [fp] are the digits
    before and after the point. *)
Definition float_exponent (neg : bool) (ip fp r : list ascii) : option float :=
  let m := digits_value (ip ++ fp) in
  let scale := - Z.of_nat (List.length fp) in
  match r with
  | [] => Some (float_of_decimal neg m scale)
  | c :: r' =>
      if is_e c then
        let (eneg, r'') := take_sign r' in
        match digitpart r'' with
        | Some (ed, []) =>
            let e := if eneg then - digits_value ed else digits_value ed in
            Some (float_of_decimal neg m (e + scale))
        | _ => None
        end
      else None
  end.

(** [floatnumber ::= ([digitpart] "." digitpart | digitpart ["."]) [exponent]] *)
Definition float_number (neg : bool) (s : list ascii) : option float :=
  match digitpart s with
  | Some (ip, r1) =>
      match r1 with
      | c :: r2 =>
          if code c =? 46 then
            match digitpart r2 with
            | Some (fp, r3) => float_exponent neg ip fp r3
            | None => float_exponent neg ip [] r2
            end
          else float_exponent neg ip [] r1
      | [] => float_exponent neg ip [] r1
      end
  | None =>
      match s with
      | c :: r2 =>
          if code c =? 46 then
            match digitpart r2 with
            | Some (fp, r3) => float_exponent neg [] fp r3
            | None => None
            end
          else None
      | [] => None
      end
  end.

(** [float(s)] on a str. *)
Definition py_float (s : string) : result float :=
  let (neg, body) := take_sign (strip (list_ascii_of_string s)) in
  let word := string_of_list_ascii (map lower body) in
  if String.eqb word "inf" || String.eqb word "infinity" then
    Ok (S754_infinity neg)
  else if String.eqb word "nan" then Ok S754_nan
  else
    match float_number neg body with
    | Some x => Ok x
    | None => Raise (ValueError_float s)
    end.

(** ** Python runtime: struct.pack, big-endian standard mode *)

(** A value of a heterogeneous list or dict. *)
Inductive pyval : Type :=
| PyStr (s : string)
| PyInt (n : Z)
| PyFloat (x : float)
| PyFloats (l : list float).

(** The IEEE binary32 bit pattern of a binary32 value. *)
Definition bits_of_b32 (x : spec_float) : Z :=
  let sign (s : bool) := if s then 2 ^ 31 else 0 in
  match x with
  | S754_zero s => sign s
  | S754_infinity s => sign s + 0x7f800000
  | S754_nan => 0x7fc00000
  | S754_finite s m e =>
      if 2 ^ 23 <=? Zpos m
      then sign s + (e + 150) * 2 ^ 23 + (Zpos m - 2 ^ 23)
      else sign s + Zpos m
  end.

(** The cast of a double to binary32, ties to even. *)
Definition round_b32 (x : float) : spec_float :=
  match x with
  | S754_finite s m e => binary_round 24 128 s m e
  | _ => x
  end.

(** Code [f]: the double is cast to binary32; a finite double that becomes
    an infinity raises OverflowError. *)
Definition pack_f (x : float) : result (list byte) :=
  let y := round_b32 x in
  match x, y with
  | S754_finite _ _ _, S754_infinity _ => Raise OverflowError_f
  | _, _ => Ok (be_bytes 4 (bits_of_b32 y))
  end.

Definition pack_uint (c : ascii) (size : nat) (v : pyval) : result (list byte) :=
  match v with
  | PyInt n =>
      if (0 <=? n) && (n <? 256 ^ Z.of_nat size) then Ok (be_bytes size n)
      else Raise (StructError_range c n)
  | _ => Raise (StructError_type c)
  end.

(** One format code applied to one argument. *)
Definition pack_item (c : ascii) (v : pyval) : result (list byte) :=
  if code c =? 72 (* H *) then pack_uint c 2 v
  else if code c =? 66 (* B *) then pack_uint c 1 v
  else if code c =? 102 (* f *) then
    match v with
    | PyFloat x => pack_f x
    | PyInt n => pack_f (float_of_Z n)
    | _ => Raise (StructError_type c)
    end
  else Raise (StructError_format c).

Fixpoint pack_items (codes : list ascii) (values : list pyval)
  : result (list byte) :=
  match codes, values with
  | c :: codes', v :: values' =>
      b <- pack_item c v ;;
      tl <- pack_items codes' values' ;;
      Ok (b ++ tl)
  | _, _ => Ok []
  end.

Definition known_code (c : ascii) : bool :=
  (code c =? 72) || (code c =? 66) || (code c =? 102).

(** [struct.pack(format, *values)] for a format of [>] and the codes [H],
    [B] and [f], the ones the encoder builds: the format is compiled first,
    then the number of arguments is checked, then the items are packed in
    order, without padding. *)
Definition struct_pack (format : string) (values : list pyval)
  : result (list byte) :=
  match list_ascii_of_string format with
  | p :: codes =>
      if code p =? 62 (* > *) then
        match filter (fun c => negb (known_code c)) codes with
        | bad :: _ => Raise (StructError_format bad)
        | [] =>
            if Nat.eqb (List.length codes) (List.length values)
            then pack_items codes values
            else Raise (StructError_items (List.length codes) (List.length values))
        end
      else Raise (StructError_format p)
  | [] =>
      match values with
      | [] => Ok []
      | _ :: _ => Raise (StructError_items 0 (List.length values))
      end
  end.

(** ** Protobuf_Service_with_Dashboard/encoder_to_astrocast.py *)

Definition MAX_PAYLOAD_SIZE : Z := 158.

Definition REQUIRED_FIELDS : list string :=
  ["msisdn"; "iso6346"; "time"; "rssi"; "cgi"; "ble-m"; "bat-soc";
   "acc"; "temperature"; "humidity"; "pressure"; "door"; "gnss";
   "latitude"; "longitude"; "altitude"; "speed"; "heading"; "nsat"; "hdop"].

(** The helpers on the textual values of a record. *)
Definition _float (s : string) : result float := py_float s.
Definition _int (s : string) : result Z := py_int s.
Definition _str (s : string) : string := s.

(** [\d+]: the longest run of digits, and what follows it. *)
Fixpoint span_digits (s : list ascii) : list ascii * list ascii :=
  match s with
  | c :: t =>
      if is_digit c then let (ds, r) := span_digits t in (c :: ds, r)
      else ([], s)
  | [] => ([], [])
  end.

(** One match of [[-+]?\d+(?:\.\d+)?] anchored at the head of [s]: the
    matched text and the rest.  Every quantifier is greedy and nothing after
    it can fail, so the match takes the sign when digits follow it, all the
    digits, and the fraction when a digit follows the point. *)
Definition match_number (s : list ascii) : option (list ascii * list ascii) :=
  let (sgn, s1) :=
    match s with
    | c :: t => if is_sign c then ([c], t) else ([], s)
    | [] => ([], s)
    end in
  match span_digits s1 with
  | ([], _) => None
  | (ds, s2) =>
      match s2 with
      | dot :: s3 =>
          if code dot =? 46 then
            match span_digits s3 with
            | ([], _) => Some (sgn ++ ds, s2)
            | (fs, s4) => Some (sgn ++ ds ++ dot :: fs, s4)
            end
          else Some (sgn ++ ds, s2)
      | [] => Some (sgn ++ ds, s2)
      end
  end.

(** The scan of [re.findall]: the leftmost match, then on from its end. *)
Fixpoint findall_from (fuel : nat) (s : list ascii) : list string :=
  match fuel with
  | O => []
  | S fuel' =>
      match s with
      | [] => []
      | _ :: t =>
          match match_number s with
          | Some (tok, rest) => string_of_list_ascii tok :: findall_from fuel' rest
          | None => findall_from fuel' t
          end
      end
  end.

(** [re.findall(r'[-+]?\d+(?:\.\d+)?', s)] *)
Definition findall (s : string) : list string :=
  findall_from (String.length s) (list_ascii_of_string s).

Definition parse_acc (acc_raw : string) : result (list float) :=
  let s := _str acc_raw in
  let nums := findall s in
  if negb (Nat.eqb (List.length nums) 3) then Raise (ValueError_acc acc_raw)
  else mapM py_float nums.

(** The message [container_data_pb2.ContainerData]: the fields
    [json_to_protobuf] assigns. *)
Record ContainerData : Type := {
  pb_msisdn : string; pb_iso6346 : string; pb_time : string;
  pb_cgi : string; pb_door : string;
  pb_rssi : Z; pb_ble_m : Z; pb_bat_soc : Z; pb_gnss : Z; pb_nsat : Z;
  pb_acc_x : float; pb_acc_y : float; pb_acc_z : float;
  pb_temperature : float; pb_humidity : float; pb_pressure : float;
  pb_latitude : float; pb_longitude : float; pb_altitude : float;
  pb_speed : float; pb_heading : float; pb_hdop : float
}.

Definition validate_fields (d : dict string) : result unit :=
  let missing := filter (fun k => negb (contains d k)) REQUIRED_FIELDS in
  match missing with
  | [] => Ok tt
  | _ :: _ => Raise (ValueError_missing missing)
  end.

Section Protobuf.

(** The generated module [container_data_pb2] is not part of the sources:
    the integer range its schema gives each field, and the wire encoding
    of a message, are parameters. *)
Variable int_field_ok : string -> Z -> bool.
Variable SerializeToString : ContainerData -> list byte.

(** [pb.field = v] on an integer field. *)
Definition set_int (field : string) (v : Z) : result Z :=
  if int_field_ok field v then Ok v else Raise (ValueError_field field v).

Definition json_to_protobuf (data : dict string) : result ContainerData :=
  msisdn <- getitem data "msisdn" ;;
  iso6346 <- getitem data "iso6346" ;;
  time <- getitem data "time" ;;
  cgi <- getitem data "cgi" ;;
  door <- getitem data "door" ;;
  rssi <- (s <- getitem data "rssi" ;; v <- _int s ;; set_int "rssi" v) ;;
  ble_m <- (s <- getitem data "ble-m" ;; v <- _int s ;; set_int "ble_m" v) ;;
  bat_soc <- (s <- getitem data "bat-soc" ;; v <- _int s ;; set_int "bat_soc" v) ;;
  gnss <- (s <- getitem data "gnss" ;; v <- _int s ;; set_int "gnss" v) ;;
  nsat <- (s <- getitem data "nsat" ;; v <- _int s ;; set_int "nsat" v) ;;
  acc <- (s <- getitem data "acc" ;; parse_acc s) ;;
  match acc with
  | [acc_x; acc_y; acc_z] =>
      temperature <- (s <- getitem data "temperature" ;; _float s) ;;
      humidity <- (s <- getitem data "humidity" ;; _float s) ;;
      pressure <- (s <- getitem data "pressure" ;; _float s) ;;
      latitude <- (s <- getitem data "latitude" ;; _float s) ;;
      longitude <- (s <- getitem data "longitude" ;; _float s) ;;
      altitude <- (s <- getitem data "altitude" ;; _float s) ;;
      speed <- (s <- getitem data "speed" ;; _float s) ;;
      heading <- (s <- getitem data "heading" ;; _float s) ;;
      hdop <- (s <- getitem data "hdop" ;; _float s) ;;
      Ok {| pb_msisdn := _str msisdn; pb_iso6346 := _str iso6346;
            pb_time := _str time; pb_cgi := _str cgi; pb_door := _str door;
            pb_rssi := rssi; pb_ble_m := ble_m; pb_bat_soc := bat_soc;
            pb_gnss := gnss; pb_nsat := nsat;
            pb_acc_x := acc_x; pb_acc_y := acc_y; pb_acc_z := acc_z;
            pb_temperature := temperature; pb_humidity := humidity;
            pb_pressure := pressure; pb_latitude := latitude;
            pb_longitude := longitude; pb_altitude := altitude;
            pb_speed := speed; pb_heading := heading; pb_hdop := hdop |}
  | _ => Raise (ValueError_acc "unpack")
  end.

Definition serialize (data : dict string) : result (list byte) :=
  pb <- json_to_protobuf data ;;
  let raw := SerializeToString pb in
  if len raw >=? MAX_PAYLOAD_SIZE then
    Raise (ValueError_payload (len raw) MAX_PAYLOAD_SIZE)
  else Ok raw.

End Protobuf.

(** ** Struct_Zlib_Service/locust_sender.py *)

Definition convert_to_typed_data (string_data : dict string)
  : result (dict pyval) :=
  msisdn <- getitem string_data "msisdn" ;;
  iso6346 <- getitem string_data "iso6346" ;;
  time <- getitem string_data "time" ;;
  cgi <- getitem string_data "cgi" ;;
  door <- getitem string_data "door" ;;
  rssi <- (s <- getitem string_data "rssi" ;; py_int s) ;;
  ble_m <- (s <- getitem string_data "ble-m" ;; py_int s) ;;
  bat_soc <- (s <- getitem string_data "bat-soc" ;; py_int s) ;;
  gnss <- (s <- getitem string_data "gnss" ;; py_int s) ;;
  nsat <- (s <- getitem string_data "nsat" ;; py_int s) ;;
  temperature <- (s <- getitem string_data "temperature" ;; py_float s) ;;
  humidity <- (s <- getitem string_data "humidity" ;; py_float s) ;;
  pressure <- (s <- getitem string_data "pressure" ;; py_float s) ;;
  latitude <- (s <- getitem string_data "latitude" ;; py_float s) ;;
  longitude <- (s <- getitem string_data "longitude" ;; py_float s) ;;
  altitude <- (s <- getitem string_data "altitude" ;; py_float s) ;;
  speed <- (s <- getitem string_data "speed" ;; py_float s) ;;
  heading <- (s <- getitem string_data "heading" ;; py_float s) ;;
  hdop <- (s <- getitem string_data "hdop" ;; py_float s) ;;
  acc <- (s <- getitem string_data "acc" ;; mapM py_float (str_split s)) ;;
  Ok [("msisdn", PyStr msisdn); ("iso6346", PyStr iso6346);
      ("time", PyStr time); ("cgi", PyStr cgi); ("door", PyStr door);
      ("rssi", PyInt rssi); ("ble-m", PyInt ble_m);
      ("bat-soc", PyInt bat_soc); ("gnss", PyInt gnss); ("nsat", PyInt nsat);
      ("temperature", PyFloat temperature); ("humidity", PyFloat humidity);
      ("pressure", PyFloat pressure); ("latitude", PyFloat latitude);
      ("longitude", PyFloat longitude); ("altitude", PyFloat altitude);
      ("speed", PyFloat speed); ("heading", PyFloat heading);
      ("hdop", PyFloat hdop); ("acc", PyFloats acc)].

Definition field_order : list string :=
  ["msisdn"; "iso6346"; "time"; "rssi"; "cgi"; "ble-m"; "bat-soc";
   "acc"; "temperature"; "humidity"; "pressure"; "door"; "gnss";
   "latitude"; "longitude"; "altitude"; "speed"; "heading"; "nsat"; "hdop"].

(** [field in [..]] *)
Definition elem (field : string) (l : list string) : bool :=
  existsb (String.eqb field) l.

(** The three lists the loop over [field_order] fills. *)
Record lists : Type := {
  format_parts : list string;
  values : list pyval;
  string_data : list (list byte)
}.

(** The body of [for field in field_order]. *)
Definition add_field (typed_data : dict pyval) (st : lists) (field : string)
  : result lists :=
  if elem field ["msisdn"; "iso6346"; "time"; "cgi"; "door"] then
    v <- getitem typed_data field ;;
    match v with
    | PyStr s =>
        let encoded_str := encode_utf8 s in
        Ok {| format_parts := format_parts st ++ ["H"];
              values := values st ++ [PyInt (len encoded_str)];
              string_data := string_data st ++ [encoded_str] |}
    | _ => Raise (AttributeError "encode")
    end
  else if elem field ["rssi"; "ble-m"; "bat-soc"; "gnss"; "nsat"] then
    v <- getitem typed_data field ;;
    Ok {| format_parts := format_parts st ++ ["B"];
          values := values st ++ [v];
          string_data := string_data st |}
  else if String.eqb field "acc" then
    v <- getitem typed_data field ;;
    match v with
    | PyFloats l =>
        Ok {| format_parts := format_parts st ++ ["f"; "f"; "f"];
              values := values st ++ map PyFloat (firstn 3 l);
              string_data := string_data st |}
    | _ => Raise (TypeError "slice")
    end
  else
    v <- getitem typed_data field ;;
    Ok {| format_parts := format_parts st ++ ["f"];
          values := values st ++ [v];
          string_data := string_data st |}.

Fixpoint add_fields (typed_data : dict pyval) (st : lists)
  (fields : list string) : result lists :=
  match fields with
  | [] => Ok st
  | field :: rest =>
      st' <- add_field typed_data st field ;;
      add_fields typed_data st' rest
  end.

(** [struct_zlib_compress] up to the call of [zlib.compress]: the value of
    [binary_data] that is handed to the compressor. *)
Definition binary_data (data : dict string) : result (list byte) :=
  typed_data <- convert_to_typed_data data ;;
  st <- add_fields typed_data
          {| format_parts := []; values := []; string_data := [] |}
          field_order ;;
  let format_string := String.append ">" (String.concat "" (format_parts st)) in
  packed <- struct_pack format_string (values st) ;;
  Ok (fold_left (fun b string_bytes => b ++ string_bytes) (string_data st) packed).

Record pool_entry : Type := {
  original : dict string;
  compressed : list byte;
  size : Z
}.

(** The class attributes of [ContainerDataSender]. *)
Record cls_state : Type := {
  _data_pool : option (list pool_entry);
  _data_pool_size : Z;
  _pool_initialized : bool
}.

(** The locals of [initialize_data_pool] that the loops update, with the
    pool they append to. *)
Record gen_state : Type := {
  pool : list pool_entry;
  generated_count : Z;
  rejected_count : Z
}.

(** How a run over a finite prefix of the generator's outputs ends: the loops
    are left ([Finished], with the outputs not yet drawn), the prefix is used
    up while a loop still asks for a record ([Starved]), an exception
    escapes ([Failed]), or the step budget of the model is spent
    ([OutOfFuel]). *)
Inductive outcome (A : Type) : Type :=
| Finished (a : A) (rest : list (dict string))
| Starved (a : A)
| Failed (a : A) (e : exn)
| OutOfFuel (a : A).
Arguments Finished {A} a rest.
Arguments Starved {A} a.
Arguments Failed {A} a e.
Arguments OutOfFuel {A} a.

Definition batch_size : Z := 50000.

Section StructZlib.

(** [zlib.compress(data, level)], from the zlib library. *)
Variable zlib_compress : list byte -> Z -> list byte.

Definition struct_zlib_compress (data : dict string) : result (list byte) :=
  b <- binary_data data ;;
  Ok (zlib_compress b 9).

(** [while batch_generated < batch_target]; [samples] are the records the
    successive calls of [generate_test_container_data()] return. *)
Fixpoint batch_loop (samples : list (dict string))
  (batch_target batch_generated : Z) (st : gen_state) : outcome gen_state :=
  match samples with
  | [] => if batch_generated <? batch_target then Starved st
          else Finished st []
  | data :: rest =>
      if batch_generated <? batch_target then
        match struct_zlib_compress data with
        | Raise e => Failed st e
        | Ok compressed =>
            let size := len compressed in
            if size >=? MAX_PAYLOAD_SIZE then
              batch_loop rest batch_target batch_generated
                {| pool := pool st;
                   generated_count := generated_count st;
                   rejected_count := rejected_count st + 1 |}
            else
              batch_loop rest batch_target (batch_generated + 1)
                {| pool := pool st ++
                     [{| original := data; compressed := compressed;
                         size := size |}];
                   generated_count := generated_count st + 1;
                   rejected_count := rejected_count st |}
        end
      else Finished st samples
  end.

(** [while generated_count < cls._data_pool_size] *)
Fixpoint pool_loop (fuel : nat) (pool_size : Z) (samples : list (dict string))
  (st : gen_state) : outcome gen_state :=
  if generated_count st <? pool_size then
    match fuel with
    | O => OutOfFuel st
    | S fuel' =>
        let batch_target := Z.min batch_size (pool_size - generated_count st) in
        match batch_loop samples batch_target 0 st with
        | Finished st' rest => pool_loop fuel' pool_size rest st'
        | other => other
        end
    end
  else Finished st samples.

Definition with_pool (cls : cls_state) (p : list pool_entry) (done : bool)
  : cls_state :=
  {| _data_pool := Some p;
     _data_pool_size := _data_pool_size cls;
     _pool_initialized := done |}.

(** The class method; logging and timing are left out.  Each outer
    iteration adds at least one record, so [_data_pool_size] iterations
    are enough fuel. *)
Definition initialize_data_pool (cls : cls_state)
  (samples : list (dict string)) : outcome cls_state :=
  if _pool_initialized cls then Finished cls samples
  else
    let start := {| pool := []; generated_count := 0; rejected_count := 0 |} in
    match pool_loop (Z.to_nat (_data_pool_size cls)) (_data_pool_size cls)
                    samples start with
    | Finished st rest =>
        (* avg_size = sum(..) / len(cls._data_pool) *)
        if len (pool st) =? 0 then Failed (with_pool cls (pool st) false)
                                      ZeroDivisionError
        else Finished (with_pool cls (pool st) true) rest
    | Starved st => Starved (with_pool cls (pool st) false)
    | Failed st e => Failed (with_pool cls (pool st) false) e
    | OutOfFuel st => OutOfFuel (with_pool cls (pool st) false)
    end.

End StructZlib.

(** ** Definitions used by the statements *)

(** [h l] is [n] as 2 bytes, big-endian. *)
Definition be16 (n : Z) (h l : byte) : Prop :=
  byte_to_Z h * 256 + byte_to_Z l = n.

(** A string of 65536 bytes, the first length past the 16-bit class. *)
Definition long_string : string :=
  String "a" (string_of_list_ascii (repeat "a"%char (Z.to_nat 65535))).

(** The bytes the simulated encoder emits for one string. *)
Definition tagged (s : string) : list byte :=
  match msgpack_encode_string s with
  | Ok b => b
  | Raise _ => []
  end.

(** The bytes of a list of key/value pairs, in list order. *)
Definition tagged_pairs (items : list (string * string)) : list byte :=
  List.concat (map (fun kv => tagged (fst kv) ++ tagged (snd kv)) items).

(** The bytes the reference encoder emits for one string. *)
Definition wire (s : string) : list byte :=
  match packb_str s with
  | Ok b => b
  | Raise _ => []
  end.

Definition wire_pairs (items : list (string * string)) : list byte :=
  List.concat (map (fun kv => wire (fst kv) ++ wire (snd kv)) items).

(** A telemetry record: a dict whose keys are exactly the 20 field names. *)
Definition valid_record (r : dict string) : Prop :=
  dict_wf r /\ forall k, In k (keys r) <-> In k field_names.

(** Every value fits the 16-bit length class. *)
Definition short_values (r : dict string) : Prop :=
  forall k v, In (k, v) r -> len (encode_utf8 v) <= 65535.

(** Every value fits the 32-bit length class, the largest of the format. *)
Definition packable_values (r : dict string) : Prop :=
  forall k v, In (k, v) r -> len (encode_utf8 v) <= 0xffffffff.


(** The test record with a 65536-byte [msisdn]. *)
Definition long_record : dict string :=
  ("msisdn", long_string) :: tl generate_test_data.

(** Signed-decimal-number syntax: an optional sign, one or more digits and,
    optionally, a point followed by one or more digits. *)
Definition digits (l : list ascii) : Prop :=
  l <> [] /\ forallb is_digit l = true.

Definition optional_sign (l : list ascii) : Prop :=
  l = [] \/ exists c, is_sign c = true /\ l = [c].

Inductive number_syntax : list ascii -> Prop :=
| number_integer (sgn ds : list ascii) :
    optional_sign sgn -> digits ds -> number_syntax (sgn ++ ds)
| number_fraction (sgn ds fs : list ascii) (dot : ascii) :
    optional_sign sgn -> digits ds -> code dot = 46 -> digits fs ->
    number_syntax (sgn ++ ds ++ dot :: fs).



(** The doubles nearest to -993.9, -27.1 and -52.0. *)
Definition acc_example : list float :=
  [float_of_decimal true 9939 (-1); float_of_decimal true 271 (-1);
   float_of_decimal true 520 (-1)].

(** Stand-ins for the two parameters of the positional encoder, to run it on
    a record: 32-bit integer fields, and a wire form that only carries the
    textual fields. *)
Definition int32_ok (field : string) (v : Z) : bool :=
  (- 2 ^ 31 <=? v) && (v <? 2 ^ 31).

Definition text_wire (pb : ContainerData) : list byte :=
  encode_utf8 (pb_msisdn pb) ++ encode_utf8 (pb_iso6346 pb)
  ++ encode_utf8 (pb_time pb) ++ encode_utf8 (pb_cgi pb)
  ++ encode_utf8 (pb_door pb).

(** The typed values of a record, as [convert_to_typed_data] reads them. *)
Record typed_record : Type := {
  t_msisdn : string; t_iso6346 : string; t_time : string;
  t_cgi : string; t_door : string;
  t_rssi : Z; t_ble_m : Z; t_bat_soc : Z; t_gnss : Z; t_nsat : Z;
  t_temperature : float; t_humidity : float; t_pressure : float;
  t_latitude : float; t_longitude : float; t_altitude : float;
  t_speed : float; t_heading : float; t_hdop : float;
  t_acc : list float
}.

Definition int_field (data : dict string) (k : string) (v : Z) : Prop :=
  exists s, dict_get data k = Some s /\ py_int s = Ok v.

Definition float_field (data : dict string) (k : string) (x : float) : Prop :=
  exists s, dict_get data k = Some s /\ py_float s = Ok x.

(** [data] holds the 20 fields and they convert to the values of [t]; the
    accelerometer string is split at whitespace and each piece converted. *)
Definition reads (data : dict string) (t : typed_record) : Prop :=
  dict_get data "msisdn" = Some (t_msisdn t) /\
  dict_get data "iso6346" = Some (t_iso6346 t) /\
  dict_get data "time" = Some (t_time t) /\
  dict_get data "cgi" = Some (t_cgi t) /\
  dict_get data "door" = Some (t_door t) /\
  int_field data "rssi" (t_rssi t) /\
  int_field data "ble-m" (t_ble_m t) /\
  int_field data "bat-soc" (t_bat_soc t) /\
  int_field data "gnss" (t_gnss t) /\
  int_field data "nsat" (t_nsat t) /\
  float_field data "temperature" (t_temperature t) /\
  float_field data "humidity" (t_humidity t) /\
  float_field data "pressure" (t_pressure t) /\
  float_field data "latitude" (t_latitude t) /\
  float_field data "longitude" (t_longitude t) /\
  float_field data "altitude" (t_altitude t) /\
  float_field data "speed" (t_speed t) /\
  float_field data "heading" (t_heading t) /\
  float_field data "hdop" (t_hdop t) /\
  exists s, dict_get data "acc" = Some s /\
            mapM py_float (str_split s) = Ok (t_acc t).

(** The dict [convert_to_typed_data] returns for these values. *)
Definition typed_dict (t : typed_record) : dict pyval :=
  [("msisdn", PyStr (t_msisdn t)); ("iso6346", PyStr (t_iso6346 t));
   ("time", PyStr (t_time t)); ("cgi", PyStr (t_cgi t));
   ("door", PyStr (t_door t));
   ("rssi", PyInt (t_rssi t)); ("ble-m", PyInt (t_ble_m t));
   ("bat-soc", PyInt (t_bat_soc t)); ("gnss", PyInt (t_gnss t));
   ("nsat", PyInt (t_nsat t));
   ("temperature", PyFloat (t_temperature t));
   ("humidity", PyFloat (t_humidity t));
   ("pressure", PyFloat (t_pressure t));
   ("latitude", PyFloat (t_latitude t));
   ("longitude", PyFloat (t_longitude t));
   ("altitude", PyFloat (t_altitude t));
   ("speed", PyFloat (t_speed t)); ("heading", PyFloat (t_heading t));
   ("hdop", PyFloat (t_hdop t)); ("acc", PyFloats (t_acc t))].

(** A string whose length fits 2 bytes, an integer that fits 1 unsigned
    byte, a float that has a binary32 encoding. *)
Definition text_ok (s : string) : Prop := len (encode_utf8 s) <= 65535.
Definition small_ok (v : Z) : Prop := 0 <= v <= 255.
Definition float_ok (x : float) : Prop := is_ok (pack_f x) = true.

(** The in-range values: those the fixed-width block can hold. *)
Definition in_range (t : typed_record) : Prop :=
  text_ok (t_msisdn t) /\ text_ok (t_iso6346 t) /\ text_ok (t_time t) /\
  small_ok (t_rssi t) /\ text_ok (t_cgi t) /\ small_ok (t_ble_m t) /\
  small_ok (t_bat_soc t) /\
  (3 <= List.length (t_acc t))%nat /\ Forall float_ok (firstn 3 (t_acc t)) /\
  float_ok (t_temperature t) /\ float_ok (t_humidity t) /\
  float_ok (t_pressure t) /\ text_ok (t_door t) /\ small_ok (t_gnss t) /\
  float_ok (t_latitude t) /\ float_ok (t_longitude t) /\
  float_ok (t_altitude t) /\ float_ok (t_speed t) /\
  float_ok (t_heading t) /\ small_ok (t_nsat t) /\ float_ok (t_hdop t).

(** The fixed-width encodings: 2 bytes big-endian, 1 byte, and the 4 bytes
    of the binary32 bit pattern, big-endian. *)
Definition u16 (n : Z) : list byte := be_bytes 2 n.
Definition u8 (n : Z) : list byte := be_bytes 1 n.
Definition f32 (x : float) : list byte := be_bytes 4 (bits_of_b32 (round_b32 x)).

(** The fixed-width block, in the declared order of the 20 fields. *)
Definition fixed_block (t : typed_record) : list byte :=
  u16 (len (encode_utf8 (t_msisdn t)))
  ++ u16 (len (encode_utf8 (t_iso6346 t)))
  ++ u16 (len (encode_utf8 (t_time t)))
  ++ u8 (t_rssi t)
  ++ u16 (len (encode_utf8 (t_cgi t)))
  ++ u8 (t_ble_m t)
  ++ u8 (t_bat_soc t)
  ++ flat_map f32 (firstn 3 (t_acc t))
  ++ f32 (t_temperature t)
  ++ f32 (t_humidity t)
  ++ f32 (t_pressure t)
  ++ u16 (len (encode_utf8 (t_door t)))
  ++ u8 (t_gnss t)
  ++ f32 (t_latitude t)
  ++ f32 (t_longitude t)
  ++ f32 (t_altitude t)
  ++ f32 (t_speed t)
  ++ f32 (t_heading t)
  ++ u8 (t_nsat t)
  ++ f32 (t_hdop t).

(** The bytes of the 5 textual fields, one after the other. *)
Definition string_block (t : typed_record) : list byte :=
  encode_utf8 (t_msisdn t) ++ encode_utf8 (t_iso6346 t)
  ++ encode_utf8 (t_time t) ++ encode_utf8 (t_cgi t)
  ++ encode_utf8 (t_door t).

(** The typed values of the test record. *)
Definition test_typed_record : typed_record :=
  {| t_msisdn := "393600504920"; t_iso6346 := "LMCU0954822";
     t_time := "300725 221117.8"; t_cgi := "999-01-1-31D41"; t_door := "D";
     t_rssi := 21; t_ble_m := 1; t_bat_soc := 93; t_gnss := 1; t_nsat := 11;
     t_temperature := float_of_decimal false 1832 (-2);
     t_humidity := float_of_decimal false 7544 (-2);
     t_pressure := float_of_decimal false 10167932 (-4);
     t_latitude := float_of_decimal false 319277 (-4);
     t_longitude := float_of_decimal false 286378 (-4);
     t_altitude := float_of_decimal false 5662 (-2);
     t_speed := float_of_decimal false 8 (-1);
     t_heading := float_of_decimal false 30207 (-2);
     t_hdop := float_of_decimal false 50 (-1);
     t_acc := [float_of_decimal true 9740700 (-4);
               float_of_decimal true 251270 (-4);
               float_of_decimal true 456744 (-4)] |}.



(** The format codes and the values the loop over [field_order] builds. *)
Definition layout_codes : list string :=
  ["H"; "H"; "H"; "B"; "H"; "B"; "B"; "f"; "f"; "f"; "f"; "f"; "f"; "H"; "B";
   "f"; "f"; "f"; "f"; "f"; "B"; "f"].

Definition layout_values (t : typed_record) : list pyval :=
  [PyInt (len (encode_utf8 (t_msisdn t)));
   PyInt (len (encode_utf8 (t_iso6346 t)));
   PyInt (len (encode_utf8 (t_time t)));
   PyInt (t_rssi t);
   PyInt (len (encode_utf8 (t_cgi t)));
   PyInt (t_ble_m t);
   PyInt (t_bat_soc t)]
  ++ map PyFloat (firstn 3 (t_acc t))
  ++ [PyFloat (t_temperature t); PyFloat (t_humidity t);
      PyFloat (t_pressure t);
      PyInt (len (encode_utf8 (t_door t)));
      PyInt (t_gnss t);
      PyFloat (t_latitude t); PyFloat (t_longitude t);
      PyFloat (t_altitude t); PyFloat (t_speed t); PyFloat (t_heading t);
      PyInt (t_nsat t);
      PyFloat (t_hdop t)].

(** The format string the encoder builds from the codes. *)
Definition layout_format : string :=
  String.append ">" (String.concat "" layout_codes).


(** A stand-in for [zlib.compress] that stores the buffer as it is, to run
    the encoder on a record. *)
Definition stored (b : list byte) (level : Z) : list byte := b.

Section PoolSpecification.

Variable zlib_compress : list byte -> Z -> list byte.

(** A generated record is kept when it encodes to fewer than
    [MAX_PAYLOAD_SIZE] bytes. *)
Definition accepted (data : dict string) : bool :=
  match struct_zlib_compress zlib_compress data with
  | Ok c => len c <? MAX_PAYLOAD_SIZE
  | Raise _ => false
  end.

Definition rejected (data : dict string) : bool :=
  match struct_zlib_compress zlib_compress data with
  | Ok c => len c >=? MAX_PAYLOAD_SIZE
  | Raise _ => false
  end.

(** The pool entry stored for a record. *)
Definition entry_of (data : dict string) : pool_entry :=
  let c := match struct_zlib_compress zlib_compress data with
           | Ok c => c
           | Raise _ => []
           end in
  {| original := data; compressed := c; size := len c |}.

(** A pool entry within the size budget. *)
Definition entry_ok (e : pool_entry) : Prop :=
  struct_zlib_compress zlib_compress (original e) = Ok (compressed e) /\
  size e = len (compressed e) /\
  size e < MAX_PAYLOAD_SIZE.

(** Every record of the list encodes without an exception. *)
Definition all_encode (samples : list (dict string)) : Prop :=
  Forall (fun d => is_ok (struct_zlib_compress zlib_compress d) = true) samples.

End PoolSpecification.

(** A record too long for the budget when stored without compression. *)
Definition oversized_record : dict string :=
  dict_set generate_test_data "cgi"
    "999-01-1-31D41-999-01-1-31D41-999-01-1-31D41-999-01-1-31D41".

(** The class state before the pool is generated, for a pool of 2. *)
Definition fresh_class : cls_state :=
  {| _data_pool := None; _data_pool_size := 2; _pool_initialized := false |}.

(** A call that does not fail for a missing key. *)
Definition no_key_error {A : Type} (c : result A) : Prop :=
  forall k, c <> Raise (KeyError k).

(** The 116 bytes CPython's [struct.pack] and string concatenation give for
    the test record, before compression. *)
Definition test_buffer : list byte :=
  [x00; x0c; x00; x0b; x00; x0f; x15; x00; x0e; x01; x5d; xc4; x73; x84;
   x7b; xc1; xc9; x04; x19; xc2; x36; xb2; x96; x41; x92; x8f; x5c; x42;
   x96; xe1; x48; x44; x7e; x32; xc4; x00; x01; x01; x41; xff; x6b; xee;
   x41; xe5; x1a; x37; x42; x62; x7a; xe1; x3f; x4c; xcc; xcd; x43; x97;
   x08; xf6; x0b; x40; xa0; x00; x00; x33; x39; x33; x36; x30; x30; x35;
   x30; x34; x39; x32; x30; x4c; x4d; x43; x55; x30; x39; x35; x34; x38;
   x32; x32; x33; x30; x30; x37; x32; x35; x20; x32; x32; x31; x31; x31;
   x37; x2e; x38; x39; x39; x39; x2d; x30; x31; x2d; x31; x2d; x33; x31;
   x44; x34; x31; x44].

(** ** Further code of the repository

    The rest of the encoders' files, and the senders built on them:

    - [encoder_to_astrocast.py]: [bytes_to_hex], the hexadecimal payload of
      [main], and [generate_sample], whose clock reading and [randint]
      results are arguments;
    - [Struct_Zlib_Service/locust_sender.py]: the users of the pool
      ([on_start], [send_container_data]);
    - [MessagePack Project], [MessagePack_Service] and [CBOR_Service]
      [locust_sender.py]: the pool and the users of the senders that keep
      every record (module [Unlimited], with the encoder as a parameter),
      the hexadecimal listing of [test_compression], and
      [IncrementalLoadTest.run_test], with [subprocess.run] as a parameter.

    HTTP requests are represented by the body posted. *)

(** The bytes [msgpack_encode_string] puts before the data of a string of
    [n] bytes. *)
Definition tag_size (n : Z) : Z :=
  if n <=? 31 then 1 else if n <=? 255 then 2 else 3.

(** The bytes one string takes in the output. *)
Definition wire_size (s : string) : Z :=
  tag_size (len (encode_utf8 s)) + len (encode_utf8 s).

(** The sum of a list of sizes. *)
Definition sum_Z (l : list Z) : Z := fold_right Z.add 0 l.

(** The test record with an entry that is not one of the 20 fields. *)
Definition annotated_test_data : dict string :=
  ("note", "spare") :: generate_test_data.

(** ** Python runtime: bytes.hex() and str.upper() *)

(** ["0123456789abcdef"[n]] *)
Definition hex_digit (n : Z) : ascii :=
  if n <? 10 then ascii_of_N (Z.to_N (48 + n)) else ascii_of_N (Z.to_N (87 + n)).

(** [b.hex()]: two lowercase hexadecimal digits for each byte. *)
Fixpoint hex (b : list byte) : string :=
  match b with
  | [] => ""
  | x :: t =>
      String (hex_digit (byte_to_Z x / 16))
        (String (hex_digit (byte_to_Z x mod 16)) (hex t))
  end.

Definition upper_char (c : ascii) : ascii :=
  if (97 <=? code c) && (code c <=? 122)
  then ascii_of_N (Z.to_N (code c - 32)) else c.

(** [s.upper()] *)
Fixpoint upper (s : string) : string :=
  match s with
  | EmptyString => EmptyString
  | String c t => String (upper_char c) (upper t)
  end.

(** ** encoder_to_astrocast.py: the hexadecimal payload *)

Definition bytes_to_hex (b : list byte) : string := upper (hex b).

Section Astrocast.

Variable int_field_ok : string -> Z -> bool.
Variable SerializeToString : ContainerData -> list byte.

(** The value of [hex_payload] in [main], from the record [data] that was
    loaded or generated: the record is validated, serialized and written in
    hexadecimal. *)
Definition main_hex_payload (data : dict string) : result string :=
  _ <- validate_fields data ;;
  raw <- serialize int_field_ok SerializeToString data ;;
  Ok (bytes_to_hex raw).

End Astrocast.

(** The characters of an uppercase hexadecimal string. *)
Definition is_upper_hex (c : ascii) : bool :=
  is_digit c || ((65 <=? code c) && (code c <=? 70)).

Fixpoint string_forall (p : ascii -> bool) (s : string) : bool :=
  match s with
  | EmptyString => true
  | String c t => p c && string_forall p t
  end.

(** The value of a hexadecimal digit, upper case. *)
Definition hex_value (c : ascii) : Z :=
  if is_digit c then code c - 48 else code c - 55.

(** ** Python runtime: str() of an int, zfill, slices and strftime *)

(** ["0123456789"[d]] *)
Definition digit_char (d : Z) : ascii := ascii_of_N (Z.to_N (48 + d)).

(** The decimal digits of [n >= 0], most significant first; [fuel] bounds
    their number. *)
Fixpoint decimal (fuel : nat) (n : Z) : list ascii :=
  match fuel with
  | O => []
  | S fuel' =>
      if n <? 10 then [digit_char n]
      else decimal fuel' (n / 10) ++ [digit_char (n mod 10)]
  end.

(** [str(n)] on an int; a number has no more decimal digits than bits. *)
Definition str_of_int (n : Z) : string :=
  let m := Z.abs n in
  let ds := decimal (S (Z.to_nat (Z.log2 m))) m in
  string_of_list_ascii (if n <? 0 then "-"%char :: ds else ds).

(** [s.zfill(width)]: zeros on the left, after the sign if there is one. *)
Definition zfill (width : nat) (s : string) : string :=
  let l := list_ascii_of_string s in
  let pad := repeat "0"%char (width - List.length l) in
  string_of_list_ascii
    match l with
    | c :: t => if is_sign c then c :: pad ++ t else pad ++ l
    | [] => pad
    end.

(** [s[:-n]] for [n > 0] *)
Definition drop_last (n : nat) (s : string) : string :=
  let l := list_ascii_of_string s in
  string_of_list_ascii (firstn (List.length l - n) l).

(** The fields of a [datetime]. *)
Record datetime : Type := {
  year : Z; month : Z; day : Z;
  hour : Z; minute : Z; second : Z; microsecond : Z
}.

(** A directive that prints a number zero-padded on [w] digits. *)
Definition padded (w : nat) (n : Z) : string := zfill w (str_of_int n).

(** [t.strftime("%d%m%y%H%M%S.%f")] *)
Definition strftime_dmyHMSf (t : datetime) : string :=
  String.concat ""
    [padded 2 (day t); padded 2 (month t); padded 2 (year t mod 100);
     padded 2 (hour t); padded 2 (minute t); padded 2 (second t);
     "."; padded 6 (microsecond t)].

(** ** encoder_to_astrocast.py: the sample record *)

(** The values [randint] returns in [generate_sample], in the order of the
    calls. *)
Record sample_draws : Type := {
  draw_msisdn : Z;     (* randint(4800, 4999) *)
  draw_container : Z;  (* randint(1, 999999) *)
  draw_rssi : Z;       (* randint(15, 35) *)
  draw_ble_m : Z;      (* randint(0, 1) *)
  draw_bat_soc : Z     (* randint(-10, 0) *)
}.

(** [generate_sample()], from the clock and the random draws. *)
Definition generate_sample (base_time : datetime) (r : sample_draws)
  : dict string :=
  [("msisdn", String.append "39360050" (str_of_int (draw_msisdn r)));
   ("iso6346", String.append "LMCU" (zfill 7 (str_of_int (draw_container r))));
   ("time", drop_last 5 (strftime_dmyHMSf base_time));
   ("rssi", str_of_int (draw_rssi r));
   ("cgi", "999-01-1-31D41");
   ("ble-m", str_of_int (draw_ble_m r));
   ("bat-soc", str_of_int (90 + draw_bat_soc r));
   ("acc", "-993.9 -27.1 -52.0");
   ("temperature", "22.10");
   ("humidity", "68.00");
   ("pressure", "1012.5043");
   ("door", "D");
   ("gnss", "1");
   ("latitude", "31.8910");
   ("longitude", "28.7041");
   ("altitude", "38.10");
   ("speed", "27.3");
   ("heading", "125.31");
   ("nsat", "06");
   ("hdop", "1.8")].

(** The ranges [randint] draws from. *)
Definition valid_draws (r : sample_draws) : Prop :=
  4800 <= draw_msisdn r <= 4999 /\ 1 <= draw_container r <= 999999 /\
  15 <= draw_rssi r <= 35 /\ 0 <= draw_ble_m r <= 1 /\
  -10 <= draw_bat_soc r <= 0.

(** The ranges of the fields of a [datetime]. *)
Definition valid_datetime (t : datetime) : Prop :=
  1 <= year t <= 9999 /\ 1 <= month t <= 12 /\ 1 <= day t <= 31 /\
  0 <= hour t <= 23 /\ 0 <= minute t <= 59 /\ 0 <= second t <= 59 /\
  0 <= microsecond t <= 999999.

(** A clock reading and draws, to run the generator. *)
Definition example_time : datetime :=
  {| year := 2025; month := 7; day := 30;
     hour := 22; minute := 11; second := 17; microsecond := 812345 |}.

Definition example_draws : sample_draws :=
  {| draw_msisdn := 4920; draw_container := 954822; draw_rssi := 21;
     draw_ble_m := 1; draw_bat_soc := -3 |}.

(** What a reader of the buffer gets back: the 5 strings, the 5 small
    integers, and the 4 bytes of each of the 12 floats. *)
Definition same_payload_values (t1 t2 : typed_record) : Prop :=
  t_msisdn t1 = t_msisdn t2 /\ t_iso6346 t1 = t_iso6346 t2 /\
  t_time t1 = t_time t2 /\ t_cgi t1 = t_cgi t2 /\ t_door t1 = t_door t2 /\
  t_rssi t1 = t_rssi t2 /\ t_ble_m t1 = t_ble_m t2 /\
  t_bat_soc t1 = t_bat_soc t2 /\ t_gnss t1 = t_gnss t2 /\
  t_nsat t1 = t_nsat t2 /\
  flat_map f32 (firstn 3 (t_acc t1)) = flat_map f32 (firstn 3 (t_acc t2)) /\
  f32 (t_temperature t1) = f32 (t_temperature t2) /\
  f32 (t_humidity t1) = f32 (t_humidity t2) /\
  f32 (t_pressure t1) = f32 (t_pressure t2) /\
  f32 (t_latitude t1) = f32 (t_latitude t2) /\
  f32 (t_longitude t1) = f32 (t_longitude t2) /\
  f32 (t_altitude t1) = f32 (t_altitude t2) /\
  f32 (t_speed t1) = f32 (t_speed t2) /\
  f32 (t_heading t1) = f32 (t_heading t2) /\
  f32 (t_hdop t1) = f32 (t_hdop t2).

(** A compressor that can be undone. *)
Definition lossless (compress : list byte -> Z -> list byte) : Prop :=
  forall a b level, compress a level = compress b level -> a = b.


(** ** Struct_Zlib_Service/locust_sender.py: the users *)

(** The attributes [on_start] gives a user. *)
Record user_state : Type := {
  message_id : Z;
  data_index : Z
}.

(** [l[i]]: a negative index counts from the end; [None] stands for
    IndexError. *)
Definition list_getitem {A : Type} (l : list A) (i : Z) : option A :=
  if 0 <=? i then nth_error l (Z.to_nat i)
  else if - len l <=? i then nth_error l (Z.to_nat (len l + i))
  else None.

(** [send_container_data]: the attributes of the user after the call and
    the body of the request it posts, if it posts one.  Reading the pool
    entry raises when the pool is [None] or the index is out of range; the
    [try] catches it before anything is changed.  An entry of
    [MAX_PAYLOAD_SIZE] bytes or more is skipped after the index has moved
    on.  What the server answers changes nothing in the user. *)
Definition send_container_data (cls : cls_state) (u : user_state)
  : user_state * option (list byte) :=
  match _data_pool cls with
  | None => (u, None)
  | Some p =>
      match list_getitem p (data_index u) with
      | None => (u, None)
      | Some data_item =>
          let compressed_data := compressed data_item in
          let actual_byte_size := size data_item in
          let index := (data_index u + 1) mod len p in
          if actual_byte_size >=? MAX_PAYLOAD_SIZE then
            ({| message_id := message_id u; data_index := index |}, None)
          else
            ({| message_id := message_id u + 1; data_index := index |},
             Some compressed_data)
      end
  end.

Section StructZlibUsers.

Variable zlib_compress : list byte -> Z -> list byte.

(** [on_start]: the counters are reset, and the pool is generated if no
    user has done it before. *)
Definition on_start (cls : cls_state) (samples : list (dict string))
  : outcome (cls_state * user_state) :=
  let u := {| message_id := 0; data_index := 0 |} in
  if negb (_pool_initialized cls) then
    match initialize_data_pool zlib_compress cls samples with
    | Finished cls' rest => Finished (cls', u) rest
    | Starved cls' => Starved (cls', u)
    | Failed cls' e => Failed (cls', u) e
    | OutOfFuel cls' => OutOfFuel (cls', u)
    end
  else Finished (cls, u) samples.

End StructZlibUsers.

(** [n] successive calls of the task by one user, and the bodies it posts,
    in order. *)
Fixpoint send_many (n : nat) (cls : cls_state) (u : user_state)
  : user_state * list (list byte) :=
  match n with
  | O => (u, [])
  | S n' =>
      let (u1, sent) := send_container_data cls u in
      let (u2, l) := send_many n' cls u1 in
      (u2, match sent with Some b => b :: l | None => l end)
  end.

(** The body of the [k]-th entry of the pool, counting round the pool. *)
Definition pool_body (p : list pool_entry) (k : Z) : list byte :=
  match list_getitem p (k mod len p) with
  | Some e => compressed e
  | None => []
  end.

(** A class whose pool is to hold no record. *)
Definition empty_class : cls_state :=
  {| _data_pool := None; _data_pool_size := 0; _pool_initialized := false |}.

(** A pool of two entries, to run a user. *)
Definition example_pool : list pool_entry :=
  [{| original := generate_test_data; compressed := [x01]; size := 1 |};
   {| original := generate_test_data; compressed := [x02; x03]; size := 2 |}].

Definition example_class : cls_state :=
  {| _data_pool := Some example_pool; _data_pool_size := 2;
     _pool_initialized := true |}.

(** The pool entry of the test record when the buffer is stored as it is,
    and the class after a pool of two of them has been generated. *)
Definition test_entry : pool_entry :=
  {| original := generate_test_data; compressed := test_buffer; size := 116 |}.

Definition filled_class : cls_state :=
  {| _data_pool := Some [test_entry; test_entry]; _data_pool_size := 2;
     _pool_initialized := true |}.

(** ** The senders without a size limit

    [MessagePack Project/locust_sender.py], [MessagePack_Service/locust_sender.py]
    and [CBOR_Service/locust_sender.py] share one pool generator and one
    task, which differ from those of the struct service in that no record
    is rejected and no entry is skipped.  The three differ from each other
    in the function that encodes a record ([msgpack_compress] or
    [cbor_compress], one call of the serialization library) and in what
    they log. *)
Module Unlimited.

(** The locals of [initialize_data_pool] that the loops update, with the
    pool they append to. *)
Record gen_state : Type := {
  pool : list pool_entry;
  generated_count : Z
}.

Section Sender.

(** [msgpack_compress] or [cbor_compress]. *)
Variable compress : dict string -> result (list byte).

(** [while batch_generated < batch_target] *)
Fixpoint batch_loop (samples : list (dict string))
  (batch_target batch_generated : Z) (st : gen_state) : outcome gen_state :=
  match samples with
  | [] => if batch_generated <? batch_target then Starved st
          else Finished st []
  | data :: rest =>
      if batch_generated <? batch_target then
        match compress data with
        | Raise e => Failed st e
        | Ok compressed =>
            let size := len compressed in
            batch_loop rest batch_target (batch_generated + 1)
              {| pool := pool st ++
                   [{| original := data; compressed := compressed;
                       size := size |}];
                 generated_count := generated_count st + 1 |}
        end
      else Finished st samples
  end.

(** [while generated_count < cls._data_pool_size] *)
Fixpoint pool_loop (fuel : nat) (pool_size : Z) (samples : list (dict string))
  (st : gen_state) : outcome gen_state :=
  if generated_count st <? pool_size then
    match fuel with
    | O => OutOfFuel st
    | S fuel' =>
        let batch_target := Z.min batch_size (pool_size - generated_count st) in
        match batch_loop samples batch_target 0 st with
        | Finished st' rest => pool_loop fuel' pool_size rest st'
        | other => other
        end
    end
  else Finished st samples.

(** The class method; logging and timing are left out.  Each outer
    iteration adds at least one record, so [_data_pool_size] iterations
    are enough fuel. *)
Definition initialize_data_pool (cls : cls_state)
  (samples : list (dict string)) : outcome cls_state :=
  if _pool_initialized cls then Finished cls samples
  else
    let start := {| pool := []; generated_count := 0 |} in
    match pool_loop (Z.to_nat (_data_pool_size cls)) (_data_pool_size cls)
                    samples start with
    | Finished st rest =>
        (* avg_size = sum(..) / len(cls._data_pool) *)
        if len (pool st) =? 0 then Failed (with_pool cls (pool st) false)
                                      ZeroDivisionError
        else Finished (with_pool cls (pool st) true) rest
    | Starved st => Starved (with_pool cls (pool st) false)
    | Failed st e => Failed (with_pool cls (pool st) false) e
    | OutOfFuel st => OutOfFuel (with_pool cls (pool st) false)
    end.

End Sender.

(** [send_container_data]: the attributes of the user after the call and
    the body of the request it posts, if it posts one.  Reading the pool
    entry raises when the pool is [None] or the index is out of range; the
    [try] catches it before anything is changed. *)
Definition send_container_data (cls : cls_state) (u : user_state)
  : user_state * option (list byte) :=
  match _data_pool cls with
  | None => (u, None)
  | Some p =>
      match list_getitem p (data_index u) with
      | None => (u, None)
      | Some data_item =>
          let compressed_data := compressed data_item in
          ({| message_id := message_id u + 1;
              data_index := (data_index u + 1) mod len p |},
           Some compressed_data)
      end
  end.

(** [n] successive calls of the task by one user, and the bodies it posts,
    in order. *)
Fixpoint send_many (n : nat) (cls : cls_state) (u : user_state)
  : user_state * list (list byte) :=
  match n with
  | O => (u, [])
  | S n' =>
      let (u1, sent) := send_container_data cls u in
      let (u2, l) := send_many n' cls u1 in
      (u2, match sent with Some b => b :: l | None => l end)
  end.


End Unlimited.

(** A run of whitespace, not empty. *)
Definition spaces (l : list ascii) : Prop :=
  l <> [] /\ forallb is_space l = true.

(** What may follow a number for the match to stop there: nothing, or a
    character that is neither a digit nor a point. *)
Definition stops (rest : list ascii) : Prop :=
  match rest with
  | c :: _ => is_digit c = false /\ code c <> 46
  | [] => True
  end.

(** Three numbers separated by whitespace. *)
Definition spaced_triple (t1 t2 t3 sep1 sep2 : list ascii) : string :=
  string_of_list_ascii (t1 ++ sep1 ++ t2 ++ sep2 ++ t3).



(** ** Python runtime: range, slices of a str, hexadecimal formatting *)

(** The number of elements of [range(start, stop, step)], [step <> 0]. *)
Definition range_length (start stop step : Z) : Z :=
  if 0 <? step then Z.max 0 ((stop - start + step - 1) / step)
  else Z.max 0 ((start - stop - step - 1) / (- step)).

(** [list(range(start, stop, step))]; [None] stands for the ValueError of a
    zero step. *)
Definition py_range (start stop step : Z) : option (list Z) :=
  if step =? 0 then None
  else Some (map (fun i => start + Z.of_nat i * step)
                 (seq 0 (Z.to_nat (range_length start stop step)))).

(** [s[i:j]] for [0 <= i]. *)
Definition slice (s : string) (i j : Z) : string :=
  let l := list_ascii_of_string s in
  string_of_list_ascii (firstn (Z.to_nat (j - i)) (skipn (Z.to_nat i) l)).

(** The hexadecimal digits of [n >= 0], lower case. *)
Fixpoint hex_digits (fuel : nat) (n : Z) : list ascii :=
  match fuel with
  | O => []
  | S fuel' =>
      if n <? 16 then [hex_digit n]
      else hex_digits fuel' (n / 16) ++ [hex_digit (n mod 16)]
  end.

(** [f"{n:04x}"] for [n >= 0]. *)
Definition format_04x (n : Z) : string :=
  zfill 4 (string_of_list_ascii (hex_digits (S (Z.to_nat (Z.log2 n))) n)).

(** [needle in s] *)
Definition substring_in (needle s : string) : bool :=
  match index 0 needle s with
  | Some _ => true
  | None => false
  end.

(** ** MessagePack Project/locust_sender.py: the hexadecimal listing *)

(** The lines [test_compression] writes under "Hex representation:". *)
Definition hex_listing (msgpack_data : list byte) : list string :=
  let hex_string := hex msgpack_data in
  match py_range 0 (Z.of_nat (String.length hex_string)) 64 with
  | Some offsets =>
      map (fun i =>
             let chunk := slice hex_string i (i + 64) in
             let byte_offset := i / 2 in
             String.concat ""
               [format_04x byte_offset; ": "; chunk; String "010"%char ""])
          offsets
  | None => []
  end.

(** ** MessagePack Project/locust_sender.py: IncrementalLoadTest *)

(** How [subprocess.run] ends: the process has run and left its two
    outputs, the timeout has expired, or the call has raised something
    else (the program is not found, for one). *)
Inductive run_outcome : Type :=
| Completed (stdout stderr : string)
| TimeoutExpired
| RunFailed (what : string).

(** An entry of [results]. *)
Record step_result : Type := {
  users : Z;
  output : string;
  success : bool
}.

(** What stops [run_test]: the ValueError of [range] on a zero step, or an
    exception of [subprocess.run] that is not the timeout. *)
Inductive run_test_error : Type :=
| ZeroStep
| Subprocess (what : string).

(** The attributes of an [IncrementalLoadTest]. *)
Record IncrementalLoadTest : Type := {
  max_users : Z;
  step_size : Z;
  step_duration : Z
}.

Section RunTest.

(** [subprocess.run(cmd, capture_output=True, text=True, timeout=..)], and
    the path of the file. *)
Variable subprocess_run : list string -> Z -> run_outcome.
Variable __file__ : string.

Definition command (self : IncrementalLoadTest) (host : string) (users : Z)
  : list string :=
  ["locust"; "-f"; __file__; "--host"; host;
   "--users"; str_of_int users;
   "--spawn-rate"; str_of_int (Z.min 10 users);
   "--run-time"; String.append (str_of_int (step_duration self)) "s";
   "--headless"; "--only-summary"].

(** The body of the loop, for one number of users. *)
Definition run_step (self : IncrementalLoadTest) (host : string) (users : Z)
  : step_result + run_test_error :=
  match subprocess_run (command self host users) (step_duration self + 30) with
  | Completed stdout stderr =>
      if substring_in "Total requests" stdout then
        inl {| users := users; output := stdout; success := true |}
      else
        inl {| users := users; output := stderr; success := false |}
  | TimeoutExpired =>
      inl {| users := users; output := "Test timed out"; success := false |}
  | RunFailed what => inr (Subprocess what)
  end.

(** The loop: the results so far, in order, until an exception. *)
Fixpoint run_steps (self : IncrementalLoadTest) (host : string)
  (steps : list Z) (results : list step_result)
  : list step_result + run_test_error :=
  match steps with
  | [] => inl results
  | users :: rest =>
      match run_step self host users with
      | inl r => run_steps self host rest (results ++ [r])
      | inr e => inr e
      end
  end.

Definition run_test (self : IncrementalLoadTest) (host : string)
  : list step_result + run_test_error :=
  match py_range (step_size self) (max_users self + 1) (step_size self) with
  | None => inr ZeroStep
  | Some steps => run_steps self host steps []
  end.

End RunTest.

(** The default test: up to 1000 users by steps of 100, 60 seconds each. *)
Definition default_load_test : IncrementalLoadTest :=
  {| max_users := 1000; step_size := 100; step_duration := 60 |}.

(** A process that always ends with a summary. *)
Definition summary_run (cmd : list string) (timeout : Z) : run_outcome :=
  Completed "Total requests: 1" "".



(** The accelerometer string of the test record, as three numbers. *)
Definition test_acc : string :=
  spaced_triple (list_ascii_of_string "-974.0700")
    (list_ascii_of_string "-25.1270") (list_ascii_of_string "-45.6744")
    [" "%char] [" "%char].

(** * Properties *)

(** ** Bytes *)

Lemma byte_to_Z_range (b : byte) : 0 <= byte_to_Z b < 256.
Proof.
  unfold byte_to_Z. pose proof (Byte.to_N_bounded b). lia.
Qed.

Lemma byte_of_Z_ok (v : Z) :
  0 <= v < 256 -> exists b, byte_of_Z v = Ok b /\ byte_to_Z b = v.
Proof.
  intros Hv. unfold byte_of_Z.
  replace ((0 <=? v) && (v <? 256)) with true
    by (symmetry; apply andb_true_iff; split; [apply Z.leb_le | apply Z.ltb_lt]; lia).
  destruct (Byte.of_N (Z.to_N v)) as [b|] eqn:E.
  - exists b. split; [reflexivity|].
    apply Byte.to_of_N in E. unfold byte_to_Z. rewrite E. lia.
  - apply Byte.of_N_None_iff in E. lia.
Qed.

Lemma byte_of_Z_inv (v : Z) (b : byte) :
  byte_of_Z v = Ok b -> byte_to_Z b = v /\ 0 <= v < 256.
Proof.
  unfold byte_of_Z.
  destruct ((0 <=? v) && (v <? 256)) eqn:R; [|discriminate].
  apply andb_true_iff in R. destruct R as [R1 R2].
  apply Z.leb_le in R1. apply Z.ltb_lt in R2.
  destruct (Byte.of_N (Z.to_N v)) as [b'|] eqn:E; [|discriminate].
  intros [= <-]. apply Byte.to_of_N in E. unfold byte_to_Z. rewrite E. lia.
Qed.

Lemma byte_to_Z_inj (a b : byte) : byte_to_Z a = byte_to_Z b -> a = b.
Proof.
  unfold byte_to_Z. intros H. apply N2Z.inj in H.
  pose proof (Byte.of_to_N a) as Ha. rewrite H, Byte.of_to_N in Ha.
  congruence.
Qed.

Lemma byte_to_Z_wrap (v : Z) : byte_to_Z (byte_wrap v) = v mod 256.
Proof.
  unfold byte_wrap.
  pose proof (Z.mod_pos_bound v 256 ltac:(lia)) as Hm.
  destruct (Byte.of_N (Z.to_N (v mod 256))) as [b|] eqn:E.
  - apply Byte.to_of_N in E. unfold byte_to_Z. rewrite E. lia.
  - apply Byte.of_N_None_iff in E. lia.
Qed.

Lemma byte_wrap_of (v : Z) (b : byte) : byte_of_Z v = Ok b -> byte_wrap v = b.
Proof.
  intros H. apply byte_of_Z_inv in H. destruct H as [H R].
  apply byte_to_Z_inj. rewrite byte_to_Z_wrap, H. apply Z.mod_small. exact R.
Qed.

Lemma byte_of_Z_wrap (v : Z) : 0 <= v < 256 -> byte_of_Z v = Ok (byte_wrap v).
Proof.
  intros R. destruct (byte_of_Z_ok v R) as [b [E _]].
  rewrite E. f_equal. symmetry. apply byte_wrap_of. exact E.
Qed.

Lemma byte_wrap_mod (v : Z) : byte_wrap (v mod 256) = byte_wrap v.
Proof.
  apply byte_to_Z_inj. rewrite !byte_to_Z_wrap. apply Z.mod_mod. lia.
Qed.

Lemma land_FF (v : Z) : Z.land v 0xFF = v mod 256.
Proof. change 0xFF with (Z.ones 8). rewrite Z.land_ones by lia. reflexivity. Qed.

Lemma shiftr_8 (v : Z) : Z.shiftr v 8 = v / 256.
Proof. rewrite Z.shiftr_div_pow2 by lia. reflexivity. Qed.

(** ** The tag bytes of the simulated encoder *)

Lemma msgpack_encode_string_fix (s : string) :
  len (encode_utf8 s) <= 31 ->
  msgpack_encode_string s
  = Ok (byte_wrap (0xa0 + len (encode_utf8 s)) :: encode_utf8 s).
Proof.
  intros H. unfold msgpack_encode_string, bytes_of, mapM.
  assert (0 <= len (encode_utf8 s)) by (unfold len; lia).
  replace (len (encode_utf8 s) <=? 31) with true by (symmetry; apply Z.leb_le; lia).
  rewrite byte_of_Z_wrap by lia. reflexivity.
Qed.

Lemma msgpack_encode_string_8 (s : string) :
  31 < len (encode_utf8 s) <= 255 ->
  msgpack_encode_string s
  = Ok (xd9 :: byte_wrap (len (encode_utf8 s)) :: encode_utf8 s).
Proof.
  intros H. unfold msgpack_encode_string, bytes_of, mapM.
  replace (len (encode_utf8 s) <=? 31) with false by (symmetry; apply Z.leb_gt; lia).
  replace (len (encode_utf8 s) <=? 255) with true by (symmetry; apply Z.leb_le; lia).
  rewrite (byte_of_Z_wrap (len _)) by lia. reflexivity.
Qed.

Lemma msgpack_encode_string_16 (s : string) :
  255 < len (encode_utf8 s) ->
  msgpack_encode_string s
  = Ok (xda :: byte_wrap (len (encode_utf8 s) / 256)
            :: byte_wrap (len (encode_utf8 s)) :: encode_utf8 s).
Proof.
  intros H. unfold msgpack_encode_string, bytes_of, mapM.
  replace (len (encode_utf8 s) <=? 31) with false by (symmetry; apply Z.leb_gt; lia).
  replace (len (encode_utf8 s) <=? 255) with false by (symmetry; apply Z.leb_gt; lia).
  rewrite shiftr_8, !land_FF.
  rewrite (byte_of_Z_wrap (_ mod 256)) by (apply Z.mod_pos_bound; lia).
  rewrite (byte_of_Z_wrap (len _ mod 256)) by (apply Z.mod_pos_bound; lia).
  rewrite !byte_wrap_mod. reflexivity.
Qed.

Lemma msgpack_encode_map_16 (c : Z) :
  15 < c ->
  msgpack_encode_map c = Ok [xde; byte_wrap (c / 256); byte_wrap c].
Proof.
  intros H. unfold msgpack_encode_map, bytes_of, mapM.
  replace (c <=? 15) with false by (symmetry; apply Z.leb_gt; lia).
  rewrite shiftr_8, !land_FF.
  rewrite (byte_of_Z_wrap (_ mod 256)) by (apply Z.mod_pos_bound; lia).
  rewrite (byte_of_Z_wrap (c mod 256)) by (apply Z.mod_pos_bound; lia).
  rewrite !byte_wrap_mod. reflexivity.
Qed.

Lemma be16_wrap (n : Z) :
  0 <= n <= 65535 -> be16 n (byte_wrap (n / 256)) (byte_wrap n).
Proof.
  intros H. unfold be16. rewrite !byte_to_Z_wrap.
  rewrite (Z.mod_small (n / 256)) by (split; [apply Z.div_pos; lia | apply Z.div_lt_upper_bound; lia]).
  pose proof (Z.div_mod n 256 ltac:(lia)). lia.
Qed.

(** C2 (as amended): [msgpack_encode_string] emits the tag 0xa0 + len and the
    UTF-8 bytes when the byte length is at most 31; 0xd9, the length on one
    byte and the bytes when 31 < len <= 255; 0xda, the length as 2 bytes
    big-endian and the bytes when 255 < len <= 65535.  [msgpack_encode_map]
    emits the one byte 0x80 + c for a count 0 <= c <= 15 and 0xde followed by
    c as 2 bytes big-endian for 15 < c <= 65535; the header of the 20-entry
    record is 0xde 0x00 0x14. *)
Theorem msgpack_tag_grammar :
  (forall s : string,
      let data := encode_utf8 s in
      let n := len data in
      (n <= 31 ->
       exists t, byte_to_Z t = 0xa0 + n /\ msgpack_encode_string s = Ok (t :: data)) /\
      (31 < n <= 255 ->
       exists l, byte_to_Z l = n /\
                 msgpack_encode_string s = Ok (xd9 :: l :: data)) /\
      (255 < n <= 65535 ->
       exists h l, be16 n h l /\
                   msgpack_encode_string s = Ok (xda :: h :: l :: data))) /\
  (forall c : Z,
      (0 <= c <= 15 ->
       exists t, byte_to_Z t = 0x80 + c /\ msgpack_encode_map c = Ok [t]) /\
      (15 < c <= 65535 ->
       exists h l, be16 c h l /\ msgpack_encode_map c = Ok [xde; h; l])) /\
  msgpack_encode_map 20 = Ok [xde; x00; x14].
Proof.
  split; [|split].
  - intros s. cbv zeta.
    assert (0 <= len (encode_utf8 s)) by (unfold len; lia).
    split; [|split]; intros Hn.
    + exists (byte_wrap (0xa0 + len (encode_utf8 s))). split.
      * rewrite byte_to_Z_wrap. apply Z.mod_small. lia.
      * apply msgpack_encode_string_fix. exact Hn.
    + exists (byte_wrap (len (encode_utf8 s))). split.
      * rewrite byte_to_Z_wrap. apply Z.mod_small. lia.
      * apply msgpack_encode_string_8. exact Hn.
    + exists (byte_wrap (len (encode_utf8 s) / 256)), (byte_wrap (len (encode_utf8 s))).
      split.
      * apply be16_wrap. lia.
      * apply msgpack_encode_string_16. lia.
  - intros c. split; intros Hc.
    + exists (byte_wrap (0x80 + c)). split.
      * rewrite byte_to_Z_wrap. apply Z.mod_small. lia.
      * unfold msgpack_encode_map, bytes_of, mapM.
        replace (c <=? 15) with true by (symmetry; apply Z.leb_le; lia).
        rewrite byte_of_Z_wrap by lia. reflexivity.
    + exists (byte_wrap (c / 256)), (byte_wrap c). split.
      * apply be16_wrap. lia.
      * apply msgpack_encode_map_16. lia.
  - reflexivity.
Qed.

(** The grammar at a 300-byte string: the 16-bit class. *)
Lemma msgpack_tag_grammar_witness :
  exists h l,
    be16 300 h l /\
    msgpack_encode_string (string_of_list_ascii (repeat "a"%char 300))
    = Ok (xda :: h :: l
              :: encode_utf8 (string_of_list_ascii (repeat "a"%char 300))).
Proof.
  apply (proj2 (proj2 (proj1 msgpack_tag_grammar
                         (string_of_list_ascii (repeat "a"%char 300))))).
  vm_compute. split; [reflexivity | discriminate].
Defined.

Lemma len_long_string : len (encode_utf8 long_string) = 65536.
Proof. vm_compute. reflexivity. Qed.

Lemma tagged_long_string :
  msgpack_encode_string long_string
  = Ok (xda :: x00 :: x00 :: encode_utf8 long_string).
Proof.
  rewrite msgpack_encode_string_16 by (rewrite len_long_string; lia).
  rewrite len_long_string. reflexivity.
Qed.

(** C2 (as stated) fails past the 16-bit class: for the 65536-byte string
    the encoder emits 0xda 0x00 0x00, which is the length 0, and for the
    count 65536 it emits 0xde 0x00 0x00; no two bytes hold 65536. *)
Lemma msgpack_tag_grammar_counterexample :
  len (encode_utf8 long_string) = 65536 /\
  msgpack_encode_string long_string
  = Ok (xda :: x00 :: x00 :: encode_utf8 long_string) /\
  msgpack_encode_map 65536 = Ok [xde; x00; x00] /\
  (forall h l, ~ be16 65536 h l).
Proof.
  split; [|split; [|split]].
  - exact len_long_string.
  - exact tagged_long_string.
  - vm_compute. reflexivity.
  - intros h l. unfold be16.
    pose proof (byte_to_Z_range h). pose proof (byte_to_Z_range l). lia.
Qed.

(** ** Results and dicts *)

Lemma mapM_ext {A B : Type} (f g : A -> result B) (l : list A) :
  (forall x, In x l -> f x = g x) -> mapM f l = mapM g l.
Proof.
  induction l as [|x t IH]; intros H; [reflexivity|].
  cbn [mapM]. rewrite (H x) by (left; reflexivity).
  rewrite IH by (intros y Hy; apply H; right; exact Hy). reflexivity.
Qed.

Lemma contains_keys {V : Type} (d : dict V) (k : string) :
  contains d k = true <-> In k (keys d).
Proof.
  unfold contains. induction d as [|[k' v] d IH]; cbn [dict_get keys map fst In].
  - split; [discriminate | tauto].
  - destruct (String.eqb_spec k' k) as [->|N].
    + split; [intros _; left; reflexivity | reflexivity].
    + rewrite IH. unfold keys. split; [tauto | intros [E|H]; [congruence | exact H]].
Qed.

Lemma dict_get_In {V : Type} (d : dict V) (k : string) (v : V) :
  dict_get d k = Some v -> In (k, v) d.
Proof.
  induction d as [|[k' v'] d IH]; cbn [dict_get]; [discriminate|].
  destruct (String.eqb_spec k' k) as [->|N].
  - intros [= ->]. left. reflexivity.
  - intros H. right. apply IH. exact H.
Qed.

Lemma dict_get_not_in {V : Type} (d : dict V) (k : string) :
  ~ In k (keys d) -> dict_get d k = None.
Proof.
  intros H. destruct (dict_get d k) eqn:E; [|reflexivity].
  exfalso. apply H. apply contains_keys. unfold contains. rewrite E. reflexivity.
Qed.

Lemma dict_get_app {V : Type} (d1 d2 : dict V) (k : string) :
  dict_get (d1 ++ d2) k
  = match dict_get d1 k with Some v => Some v | None => dict_get d2 k end.
Proof.
  induction d1 as [|[k' v'] d1 IH]; cbn [dict_get app]; [reflexivity|].
  destruct (String.eqb k' k); [reflexivity | exact IH].
Qed.

Lemma dict_set_fresh {V : Type} (d : dict V) (k : string) (v : V) :
  ~ In k (keys d) -> dict_set d k v = d ++ [(k, v)].
Proof.
  induction d as [|[k' v'] d IH]; cbn [dict_set keys map fst In app]; intros H.
  - reflexivity.
  - destruct (String.eqb_spec k' k) as [->|N]; [tauto|].
    rewrite IH by (unfold keys; tauto). reflexivity.
Qed.

(** Setting distinct fresh keys one by one appends them in order. *)
Lemma fold_dict_set {V : Type} (items acc : dict V) :
  NoDup (keys (acc ++ items)) ->
  fold_left (fun a kv => dict_set a (fst kv) (snd kv)) items acc = acc ++ items.
Proof.
  revert acc. induction items as [|[k v] items IH]; intros acc H; cbn [fold_left fst snd].
  - rewrite app_nil_r. reflexivity.
  - assert (Hk : ~ In k (keys acc)).
    { unfold keys in *. rewrite map_app in H. cbn [map fst] in H.
      apply NoDup_remove_2 in H. intros Hin. apply H.
      apply in_or_app. left. exact Hin. }
    rewrite dict_set_fresh by exact Hk.
    rewrite IH; rewrite <- app_assoc; cbn [app]; [reflexivity | exact H].
Qed.

(** Reading a dict at its own keys, in order, gives back its items. *)
Lemma mapM_getitem_keys {V : Type} (pre suf : dict V) :
  NoDup (keys (pre ++ suf)) ->
  mapM (fun key => value <- getitem (pre ++ suf) key ;; Ok (key, value)) (keys suf)
  = Ok suf.
Proof.
  revert pre. induction suf as [|[k v] suf IH]; intros pre H; [reflexivity|].
  cbn [keys map fst mapM].
  assert (Hk : dict_get (pre ++ (k, v) :: suf) k = Some v).
  { rewrite dict_get_app. rewrite dict_get_not_in.
    - cbn [dict_get]. rewrite String.eqb_refl. reflexivity.
    - unfold keys in *. rewrite map_app in H. cbn [map fst] in H.
      apply NoDup_remove_2 in H. intros Hin. apply H.
      apply in_or_app. left. exact Hin. }
  unfold getitem at 1. rewrite Hk. cbn [bind].
  specialize (IH (pre ++ [(k, v)])). rewrite <- app_assoc in IH. cbn [app] in IH.
  fold (keys suf). rewrite IH by exact H. reflexivity.
Qed.

(** Reading the fields that are present: the values, in the order asked. *)
Lemma mapM_getitem_present {V : Type} (d : dict V) (ks : list string) :
  (forall k, In k ks -> In k (keys d)) ->
  exists vals,
    Forall2 (fun k v => dict_get d k = Some v) ks vals /\
    mapM (fun key => value <- getitem d key ;; Ok (key, value)) ks
    = Ok (combine ks vals).
Proof.
  induction ks as [|k ks IH]; intros H.
  - exists []. split; [constructor | reflexivity].
  - destruct IH as [vals [F E]]; [intros k' Hk'; apply H; right; exact Hk'|].
    assert (Hk : contains d k = true) by (apply contains_keys, H; left; reflexivity).
    unfold contains in Hk. destruct (dict_get d k) as [v|] eqn:G; [|discriminate].
    exists (v :: vals). split; [constructor; assumption|].
    cbn [mapM combine]. unfold getitem at 1. rewrite G. cbn [bind].
    rewrite E. reflexivity.
Qed.

(** ** The simulated encoder: shape of the output *)

Lemma len_nonneg {A : Type} (l : list A) : 0 <= len l.
Proof. unfold len. lia. Qed.

Lemma msgpack_encode_string_tagged (s : string) :
  msgpack_encode_string s = Ok (tagged s).
Proof.
  unfold tagged.
  destruct (Z_le_gt_dec (len (encode_utf8 s)) 31) as [H|H].
  - rewrite msgpack_encode_string_fix by exact H. reflexivity.
  - destruct (Z_le_gt_dec (len (encode_utf8 s)) 255) as [H'|H'].
    + rewrite msgpack_encode_string_8 by lia. reflexivity.
    + rewrite msgpack_encode_string_16 by lia. reflexivity.
Qed.

Lemma encode_fields_tagged (fields : list (string * string)) (buf : list byte) :
  encode_fields fields buf = Ok (buf ++ tagged_pairs fields).
Proof.
  revert buf. induction fields as [|[k v] fields IH]; intros buf.
  - cbn. rewrite app_nil_r. reflexivity.
  - cbn [encode_fields]. rewrite !msgpack_encode_string_tagged. cbn [bind].
    rewrite IH. unfold tagged_pairs. cbn [map List.concat fst snd].
    rewrite <- !app_assoc. reflexivity.
Qed.

Lemma field_names_NoDup : NoDup field_names.
Proof.
  unfold field_names.
  repeat (constructor; [cbn [In]; intuition discriminate|]). constructor.
Qed.

(** With the 20 fields present, the output is the map header and then, in
    the declared order, each field name and its value. *)
Lemma simulate_shape (data : dict string) :
  (forall k, In k field_names -> In k (keys data)) ->
  exists vals,
    Forall2 (fun k v => dict_get data k = Some v) field_names vals /\
    simulate_c_msgpack_compression data
    = Ok ([xde; x00; x14] ++ tagged_pairs (combine field_names vals)).
Proof.
  intros H. destruct (mapM_getitem_present data field_names H) as [vals [F E]].
  exists vals. split; [exact F|].
  unfold simulate_c_msgpack_compression.
  change (msgpack_encode_map 20) with (@Ok (list byte) [xde; x00; x14]).
  cbn [bind]. rewrite E. cbn [bind]. apply encode_fields_tagged.
Qed.

(** ** The reference encoder agrees with the simulated one below 64 KiB *)

Lemma packb_str_tagged (s : string) :
  len (encode_utf8 s) <= 65535 -> packb_str s = Ok (tagged s).
Proof.
  intros H. pose proof (len_nonneg (encode_utf8 s)) as H0.
  unfold packb_str, tagged.
  destruct (Z_le_gt_dec (len (encode_utf8 s)) 31) as [H1|H1].
  - rewrite msgpack_encode_string_fix by exact H1.
    replace (len (encode_utf8 s) <? 32) with true by (symmetry; apply Z.ltb_lt; lia).
    reflexivity.
  - replace (len (encode_utf8 s) <? 32) with false by (symmetry; apply Z.ltb_ge; lia).
    destruct (Z_le_gt_dec (len (encode_utf8 s)) 255) as [H2|H2].
    + rewrite msgpack_encode_string_8 by lia.
      replace (len (encode_utf8 s) <=? 255) with true by (symmetry; apply Z.leb_le; lia).
      cbn [be_bytes app Z.of_nat Z.pow]. rewrite Z.div_1_r. reflexivity.
    + rewrite msgpack_encode_string_16 by lia.
      replace (len (encode_utf8 s) <=? 255) with false by (symmetry; apply Z.leb_gt; lia).
      replace (len (encode_utf8 s) <=? 65535) with true by (symmetry; apply Z.leb_le; lia).
      cbn [be_bytes app]. change (256 ^ Z.of_nat 1) with 256.
      change (256 ^ Z.of_nat 0) with 1. rewrite Z.div_1_r. reflexivity.
Qed.

Lemma packb_items_tagged (items : list (string * string)) :
  Forall (fun kv => len (encode_utf8 (fst kv)) <= 65535 /\
                    len (encode_utf8 (snd kv)) <= 65535) items ->
  packb_items items = Ok (tagged_pairs items).
Proof.
  induction 1 as [|[k v] items [Hk Hv] _ IH]; [reflexivity|].
  cbn [packb_items]. cbn [fst snd] in Hk, Hv.
  rewrite !packb_str_tagged by assumption. cbn [bind]. rewrite IH. cbn [bind].
  unfold tagged_pairs. cbn [map List.concat fst snd]. rewrite <- app_assoc.
  reflexivity.
Qed.

Lemma field_names_short :
  Forall (fun k => len (encode_utf8 k) <= 65535) field_names.
Proof. repeat constructor; vm_compute; discriminate. Qed.

(** The items of a record with short values all fit the 16-bit class. *)
Lemma record_items_short (r : dict string) :
  (forall k, In k (keys r) -> In k field_names) ->
  short_values r ->
  Forall (fun kv => len (encode_utf8 (fst kv)) <= 65535 /\
                    len (encode_utf8 (snd kv)) <= 65535) r.
Proof.
  intros Hk Hv. apply Forall_forall. intros [k v] Hin. cbn [fst snd]. split.
  - pose proof field_names_short as F. rewrite Forall_forall in F.
    apply F, Hk. unfold keys. apply in_map_iff. exists (k, v). split; [reflexivity | exact Hin].
  - exact (Hv k v Hin).
Qed.

Lemma valid_record_length (r : dict string) : valid_record r -> len r = 20.
Proof.
  intros [W K]. unfold len.
  assert (List.length (keys r) = List.length field_names) as E.
  { apply Nat.le_antisymm; apply NoDup_incl_length.
    - exact W.
    - intros k Hk. apply K. exact Hk.
    - exact field_names_NoDup.
    - intros k Hk. apply K. exact Hk. }
  unfold keys in E. rewrite length_map in E. rewrite E. reflexivity.
Qed.

Lemma packb_shape (r : dict string) :
  valid_record r -> short_values r ->
  msgpack_compress r = Ok ([xde; x00; x14] ++ tagged_pairs r).
Proof.
  intros V S. unfold msgpack_compress, packb.
  rewrite (valid_record_length r V).
  change (packb_map_header 20) with (@Ok (list byte) [xde; x00; x14]).
  cbn [bind]. rewrite packb_items_tagged; [reflexivity|].
  apply record_items_short; [|exact S]. intros k Hk. apply V. exact Hk.
Qed.

(** A record built in the declared order: both encoders emit the same bytes. *)
Lemma parity_in_declared_order (data : dict string) :
  keys data = field_names -> short_values data ->
  msgpack_compress data = simulate_c_msgpack_compression data.
Proof.
  intros K S.
  assert (V : valid_record data).
  { split; [unfold dict_wf; rewrite K; exact field_names_NoDup|].
    intros k. rewrite K. tauto. }
  rewrite (packb_shape data V S).
  unfold simulate_c_msgpack_compression.
  change (msgpack_encode_map 20) with (@Ok (list byte) [xde; x00; x14]).
  cbn [bind]. rewrite <- K.
  pose proof (mapM_getitem_keys [] data) as E. cbn [app] in E.
  rewrite E by apply V.
  cbn [bind]. symmetry. apply encode_fields_tagged.
Qed.

(** C1: for the literal 20-field test record the simulated embedded encoder
    and the reference encoder produce byte-identical output of the same
    length (300 bytes): the same tag bytes, field order and string
    contents. *)
Theorem parity_on_test_record :
  exists out,
    simulate_c_msgpack_compression generate_test_data = Ok out /\
    msgpack_compress generate_test_data = Ok out /\
    len out = 300.
Proof.
  destruct (simulate_c_msgpack_compression generate_test_data) as [out|e] eqn:E;
    [|vm_compute in E; discriminate].
  exists out. split; [reflexivity|]. split.
  - rewrite <- E. apply parity_in_declared_order; [reflexivity|].
    intros k v H. cbn [generate_test_data In] in H.
    repeat (destruct H as [H|H]; [inversion H; vm_compute; discriminate|]).
    contradiction.
  - vm_compute in E. injection E as <-. reflexivity.
Qed.

(** ** Field order *)


Lemma short_values_check (r : dict string) :
  forallb (fun kv => len (encode_utf8 (snd kv)) <=? 65535) r = true ->
  short_values r.
Proof.
  intros H k v Hin. rewrite forallb_forall in H.
  apply Z.leb_le. exact (H (k, v) Hin).
Qed.

Lemma valid_test_record : valid_record generate_test_data.
Proof.
  split; [exact field_names_NoDup|]. intros k. apply iff_refl.
Qed.

Lemma short_test_record : short_values generate_test_data.
Proof. apply short_values_check. vm_compute. reflexivity. Qed.




(** ** Decoding what the encoders emit *)

Lemma firstn_skipn_exact {A : Type} (data rest : list A) :
  firstn (List.length data) (data ++ rest) = data /\
  skipn (List.length data) (data ++ rest) = rest.
Proof.
  induction data as [|x data [IH1 IH2]]; cbn; [tauto|].
  rewrite IH1, IH2. tauto.
Qed.

Lemma take_bytes_exact (data rest : list byte) :
  take_bytes (len data) (data ++ rest) = Ok (data, rest).
Proof.
  unfold take_bytes, len. rewrite length_app.
  replace (Z.of_nat (List.length data) <=? Z.of_nat (List.length data + List.length rest))
    with true by (symmetry; apply Z.leb_le; lia).
  rewrite Nat2Z.id.
  destruct (firstn_skipn_exact data rest) as [-> ->]. reflexivity.
Qed.

Lemma string_of_encode_utf8 (s : string) : string_of_list_byte (encode_utf8 s) = s.
Proof. apply string_of_list_byte_of_string. Qed.

Lemma be_value_bytes (n : nat) (v acc : Z) :
  fold_left (fun a b => a * 256 + byte_to_Z b) (be_bytes n v) acc
  = acc * 256 ^ Z.of_nat n + v mod 256 ^ Z.of_nat n.
Proof.
  revert acc. induction n as [|n IH]; intros acc.
  - cbn [be_bytes fold_left Z.of_nat]. rewrite Z.pow_0_r, Z.mod_1_r. lia.
  - cbn [be_bytes fold_left]. rewrite IH, byte_to_Z_wrap.
    rewrite Nat2Z.inj_succ, Z.pow_succ_r by lia.
    rewrite (Z.mul_comm 256 (256 ^ Z.of_nat n)).
    rewrite (Z.rem_mul_r v (256 ^ Z.of_nat n) 256) by lia. lia.
Qed.

(** Bytes written most significant first read back as the number. *)
Lemma be_value_be_bytes (n : nat) (v : Z) :
  0 <= v < 256 ^ Z.of_nat n -> be_value (be_bytes n v) = v.
Proof.
  intros H. unfold be_value. rewrite be_value_bytes, Z.mod_small by exact H.
  lia.
Qed.

Lemma be_bytes_1 (v : Z) : be_bytes 1 v = [byte_wrap v].
Proof. cbn [be_bytes]. change (256 ^ Z.of_nat 0) with 1. rewrite Z.div_1_r. reflexivity. Qed.

Lemma be_bytes_2 (v : Z) : be_bytes 2 v = [byte_wrap (v / 256); byte_wrap v].
Proof.
  cbn [be_bytes]. change (256 ^ Z.of_nat 1) with 256.
  change (256 ^ Z.of_nat 0) with 1. rewrite Z.div_1_r. reflexivity.
Qed.

Lemma unpack_str_tagged (s : string) (rest : list byte) :
  len (encode_utf8 s) <= 65535 ->
  unpack_str (tagged s ++ rest) = Ok (s, rest).
Proof.
  intros H. pose proof (len_nonneg (encode_utf8 s)) as H0. unfold tagged.
  destruct (Z_le_gt_dec (len (encode_utf8 s)) 31) as [H1|H1];
    [|destruct (Z_le_gt_dec (len (encode_utf8 s)) 255) as [H2|H2]].
  - rewrite msgpack_encode_string_fix by exact H1.
    cbn [app unpack_str]. rewrite byte_to_Z_wrap, Z.mod_small by lia.
    replace ((160 <=? 160 + len (encode_utf8 s)) && (160 + len (encode_utf8 s) <=? 191))
      with true
      by (symmetry; apply andb_true_iff; split; apply Z.leb_le; lia).
    replace (160 + len (encode_utf8 s) - 160) with (len (encode_utf8 s)) by lia.
    rewrite take_bytes_exact. cbn [bind fst snd].
    rewrite string_of_encode_utf8. reflexivity.
  - rewrite msgpack_encode_string_8 by lia.
    cbn [app unpack_str]. change (byte_to_Z xd9) with 217.
    cbn [Z.leb Z.eqb Z.compare Pos.compare Pos.compare_cont andb Pos.eqb].
    rewrite <- be_bytes_1, be_value_be_bytes by (change (256 ^ Z.of_nat 1) with 256; lia).
    rewrite take_bytes_exact. cbn [bind fst snd].
    rewrite string_of_encode_utf8. reflexivity.
  - rewrite msgpack_encode_string_16 by lia.
    cbn [app unpack_str]. change (byte_to_Z xda) with 218.
    cbn [Z.leb Z.eqb Z.compare Pos.compare Pos.compare_cont andb Pos.eqb].
    rewrite <- be_bytes_2, be_value_be_bytes by (change (256 ^ Z.of_nat 2) with 65536; lia).
    rewrite take_bytes_exact. cbn [bind fst snd].
    rewrite string_of_encode_utf8. reflexivity.
Qed.

(** Pairs written with an encoding that [unpack_str] reads back are read
    back in order. *)
Lemma unpack_pairs_encoded (enc : string -> list byte)
  (items acc : dict string) (rest : list byte) :
  Forall (fun kv =>
            (forall r, unpack_str (enc (fst kv) ++ r) = Ok (fst kv, r)) /\
            (forall r, unpack_str (enc (snd kv) ++ r) = Ok (snd kv, r))) items ->
  unpack_pairs (List.length items)
    (List.concat (map (fun kv => enc (fst kv) ++ enc (snd kv)) items) ++ rest) acc
  = Ok (fold_left (fun a kv => dict_set a (fst kv) (snd kv)) items acc, rest).
Proof.
  intros H. revert acc. induction H as [|[k v] items [Hk Hv] _ IH]; intros acc.
  - reflexivity.
  - cbn [fst snd] in Hk, Hv.
    cbn [map List.concat List.length unpack_pairs fst snd].
    rewrite <- !app_assoc.
    rewrite Hk. cbn [bind fst snd]. rewrite Hv. cbn [bind fst snd fold_left].
    apply IH.
Qed.

Lemma unpack_pairs_tagged (items acc : dict string) (rest : list byte) :
  Forall (fun kv => len (encode_utf8 (fst kv)) <= 65535 /\
                    len (encode_utf8 (snd kv)) <= 65535) items ->
  unpack_pairs (List.length items) (tagged_pairs items ++ rest) acc
  = Ok (fold_left (fun a kv => dict_set a (fst kv) (snd kv)) items acc, rest).
Proof.
  intros H. apply (unpack_pairs_encoded tagged).
  eapply Forall_impl; [|exact H]. cbn beta. intros kv [Hk Hv].
  split; intros r; apply unpack_str_tagged; assumption.
Qed.

(** The reference encoder up to the 32-bit class. *)
Lemma packb_str_wire (s : string) :
  len (encode_utf8 s) <= 0xffffffff -> packb_str s = Ok (wire s).
Proof.
  intros H. unfold wire, packb_str.
  destruct (len (encode_utf8 s) <? 32); [reflexivity|].
  destruct (len (encode_utf8 s) <=? 255); [reflexivity|].
  destruct (len (encode_utf8 s) <=? 65535); [reflexivity|].
  replace (len (encode_utf8 s) <=? 0xffffffff) with true
    by (symmetry; apply Z.leb_le; exact H).
  reflexivity.
Qed.

Lemma unpack_str_wire (s : string) (rest : list byte) :
  len (encode_utf8 s) <= 0xffffffff ->
  unpack_str (wire s ++ rest) = Ok (s, rest).
Proof.
  intros H. destruct (Z_le_gt_dec (len (encode_utf8 s)) 65535) as [S|L].
  - unfold wire. rewrite packb_str_tagged by exact S.
    apply unpack_str_tagged. exact S.
  - unfold wire, packb_str.
    replace (len (encode_utf8 s) <? 32) with false by (symmetry; apply Z.ltb_ge; lia).
    replace (len (encode_utf8 s) <=? 255) with false by (symmetry; apply Z.leb_gt; lia).
    replace (len (encode_utf8 s) <=? 65535) with false by (symmetry; apply Z.leb_gt; lia).
    replace (len (encode_utf8 s) <=? 0xffffffff) with true
      by (symmetry; apply Z.leb_le; exact H).
    pose proof (be_value_be_bytes 4 (len (encode_utf8 s))) as V.
    cbn [be_bytes] in *. cbn [app unpack_str]. change (byte_to_Z xdb) with 219.
    cbn [Z.leb Z.eqb Z.compare Pos.compare Pos.compare_cont andb Pos.eqb].
    rewrite V by (change (256 ^ Z.of_nat 4) with 4294967296; lia).
    rewrite take_bytes_exact. cbn [bind fst snd].
    rewrite string_of_encode_utf8. reflexivity.
Qed.

Lemma packb_items_wire (items : list (string * string)) :
  Forall (fun kv => len (encode_utf8 (fst kv)) <= 0xffffffff /\
                    len (encode_utf8 (snd kv)) <= 0xffffffff) items ->
  packb_items items = Ok (wire_pairs items).
Proof.
  induction 1 as [|[k v] items [Hk Hv] _ IH]; [reflexivity|].
  cbn [packb_items]. cbn [fst snd] in Hk, Hv.
  rewrite !packb_str_wire by assumption. cbn [bind]. rewrite IH. cbn [bind].
  unfold wire_pairs. cbn [map List.concat fst snd]. rewrite <- app_assoc.
  reflexivity.
Qed.

(** The reference encoder and the decoder on a record of packable values. *)
Lemma reference_roundtrip (r : dict string) :
  valid_record r -> packable_values r ->
  exists out, msgpack_compress r = Ok out /\ unpackb out = Ok r.
Proof.
  intros V P. pose proof V as [W K].
  assert (F : Forall (fun kv => len (encode_utf8 (fst kv)) <= 0xffffffff /\
                                len (encode_utf8 (snd kv)) <= 0xffffffff) r).
  { apply Forall_forall. intros [k v] Hin. cbn [fst snd]. split.
    - pose proof field_names_short as FS. rewrite Forall_forall in FS.
      assert (len (encode_utf8 k) <= 65535); [|lia].
      apply FS, K. unfold keys. apply in_map_iff.
      exists (k, v). split; [reflexivity | exact Hin].
    - exact (P k v Hin). }
  exists ([xde; x00; x14] ++ wire_pairs r). split.
  - unfold msgpack_compress, packb. rewrite (valid_record_length r V).
    change (packb_map_header 20) with (@Ok (list byte) [xde; x00; x14]).
    cbn [bind]. rewrite (packb_items_wire r F). reflexivity.
  - unfold unpackb. cbn [app unpack_map_header].
    change (byte_to_Z xde) with 222. change (be_value [x00; x14]) with 20.
    cbn [Z.leb Z.eqb Z.compare Pos.compare Pos.compare_cont andb Pos.eqb
         bind fst snd].
    pose proof (valid_record_length r V) as L. unfold len in L.
    replace (Z.to_nat 20) with (List.length r) by lia.
    rewrite <- (app_nil_r (wire_pairs r)). unfold wire_pairs.
    rewrite (unpack_pairs_encoded wire).
    + cbn [bind fst snd]. rewrite fold_dict_set by exact W. reflexivity.
    + eapply Forall_impl; [|exact F]. cbn beta. intros kv [Hk Hv].
      split; intros r0; apply unpack_str_wire; assumption.
Qed.

(** Twenty distinct short entries behind the map header decode to themselves. *)
Lemma unpackb_tagged (items : dict string) :
  List.length items = 20%nat -> dict_wf items ->
  Forall (fun kv => len (encode_utf8 (fst kv)) <= 65535 /\
                    len (encode_utf8 (snd kv)) <= 65535) items ->
  unpackb ([xde; x00; x14] ++ tagged_pairs items) = Ok items.
Proof.
  intros L W S. unfold unpackb. cbn [app unpack_map_header].
  change (byte_to_Z xde) with 222. change (be_value [x00; x14]) with 20.
  cbn [Z.leb Z.eqb Z.compare Pos.compare Pos.compare_cont andb Pos.eqb
       bind fst snd].
  change (Z.to_nat 20) with 20%nat. rewrite <- L.
  rewrite <- (app_nil_r (tagged_pairs items)).
  rewrite unpack_pairs_tagged by exact S. cbn [bind fst snd].
  rewrite fold_dict_set by exact W. reflexivity.
Qed.

Lemma keys_combine (ks : list string) (vals : list string) :
  List.length ks = List.length vals -> keys (combine ks vals) = ks.
Proof.
  revert vals. induction ks as [|k ks IH]; intros [|v vals] L;
    try discriminate; [reflexivity|].
  cbn [combine keys map fst]. f_equal. apply IH. cbn in L. lia.
Qed.

Lemma dict_get_combine (r : dict string) (ks vals : list string) (k : string) :
  Forall2 (fun k v => dict_get r k = Some v) ks vals ->
  In k ks -> dict_get (combine ks vals) k = dict_get r k.
Proof.
  induction 1 as [|k' v ks vals Hkv _ IH]; intros Hin; [contradiction|].
  cbn [combine dict_get]. destruct (String.eqb_spec k' k) as [->|N].
  - symmetry. exact Hkv.
  - apply IH. destruct Hin as [E|Hin]; [congruence | exact Hin].
Qed.

Lemma Forall2_length_eq {A B : Type} (R : A -> B -> Prop) (l : list A) (l' : list B) :
  Forall2 R l l' -> List.length l = List.length l'.
Proof. induction 1; cbn; congruence. Qed.

(** C9 (as amended): for every telemetry record whose 20 values each take at
    most 65535 UTF-8 bytes, decoding the encoding of the record yields a
    dict equal to the record field for field.  (The reference encoder, which
    has the 32-bit length class, round-trips every record whose values take
    at most 4294967295 bytes.) *)
Theorem roundtrip_of_short_records :
  forall r : dict string,
    valid_record r ->
    (short_values r ->
     exists out d,
       simulate_c_msgpack_compression r = Ok out /\
       unpackb out = Ok d /\ dict_equal d r) /\
    (packable_values r ->
     exists out d,
       msgpack_compress r = Ok out /\
       unpackb out = Ok d /\ dict_equal d r).
Proof.
  intros r V. pose proof V as [W K]. split.
  - intros S.
    destruct (simulate_shape r) as [vals [F E]]; [intros k Hk; apply K; exact Hk|].
    pose proof (Forall2_length_eq _ _ _ F) as L.
    exists ([xde; x00; x14] ++ tagged_pairs (combine field_names vals)),
           (combine field_names vals).
    split; [exact E|]. split.
    + apply unpackb_tagged.
      * rewrite length_combine, <- L. reflexivity.
      * unfold dict_wf. rewrite keys_combine by exact L. exact field_names_NoDup.
      * apply Forall_forall. intros [k v] Hin. cbn [fst snd].
        pose proof field_names_short as FS. rewrite Forall_forall in FS.
        split; [apply FS; eapply in_combine_l; exact Hin|].
        assert (G : dict_get r k = Some v).
        { clear - F Hin. induction F as [|k' v' ks vs Hkv _ IH]; [contradiction|].
          destruct Hin as [[= <- <-]|Hin]; [exact Hkv | exact (IH Hin)]. }
        exact (S k v (dict_get_In r k v G)).
    + intros k. destruct (in_dec string_dec k field_names) as [Hin|Hout].
      * apply dict_get_combine; assumption.
      * rewrite !dict_get_not_in; [reflexivity | |].
        -- intros Hk. apply Hout, K. exact Hk.
        -- rewrite keys_combine by exact L. exact Hout.
  - intros P. destruct (reference_roundtrip r V P) as [out [E U]].
    exists out, r. split; [exact E|]. split; [exact U|]. intros k. reflexivity.
Qed.

(** The round trip at the test record. *)
Lemma roundtrip_of_short_records_witness :
  (exists out d,
      simulate_c_msgpack_compression generate_test_data = Ok out /\
      unpackb out = Ok d /\ dict_equal d generate_test_data) /\
  (exists out d,
      msgpack_compress generate_test_data = Ok out /\
      unpackb out = Ok d /\ dict_equal d generate_test_data).
Proof.
  destruct (roundtrip_of_short_records generate_test_data valid_test_record)
    as [S P].
  split.
  - apply S. exact short_test_record.
  - apply P. intros k v H. pose proof (short_test_record k v H). lia.
Defined.

Lemma simulate_in_declared_order (data : dict string) :
  keys data = field_names ->
  simulate_c_msgpack_compression data
  = Ok ([xde; x00; x14] ++ tagged_pairs data).
Proof.
  intros K. unfold simulate_c_msgpack_compression.
  change (msgpack_encode_map 20) with (@Ok (list byte) [xde; x00; x14]).
  cbn [bind]. rewrite <- K.
  pose proof (mapM_getitem_keys [] data) as E. cbn [app] in E.
  rewrite E by (rewrite K; exact field_names_NoDup).
  cbn [bind]. apply encode_fields_tagged.
Qed.

Lemma take_bytes_zero (bs : list byte) : take_bytes 0 bs = Ok ([], bs).
Proof.
  unfold take_bytes.
  replace (0 <=? len bs) with true
    by (symmetry; apply Z.leb_le; apply len_nonneg).
  reflexivity.
Qed.

(** A value whose tag reads as the empty string derails the decoder: the
    bytes of the value are then taken for the next key. *)
Lemma unpack_pairs_derailed (n : nat) (k v : string) (t rest : list byte)
  (acc : dict string) :
  len (encode_utf8 k) <= 65535 ->
  tagged v = xda :: x00 :: x00 :: "a"%byte :: t ->
  unpack_pairs (S (S n)) (tagged k ++ tagged v ++ rest) acc
  = Raise (UnpackError "not a string").
Proof.
  intros K T. cbn [unpack_pairs].
  rewrite (unpack_str_tagged k) by exact K.
  cbn [bind fst snd]. rewrite T. cbn [app unpack_str].
  change (byte_to_Z xda) with 218. change (be_value [x00; x00]) with 0.
  cbn [Z.leb Z.eqb Z.compare Pos.compare Pos.compare_cont andb Pos.eqb].
  rewrite take_bytes_zero. cbn [bind fst snd unpack_str].
  change (byte_to_Z "a"%byte) with 97.
  cbn [Z.leb Z.eqb Z.compare Pos.compare Pos.compare_cont andb Pos.eqb bind].
  reflexivity.
Qed.

Lemma unpackb_long_value (v : string) (t : list byte) (items : dict string) :
  tagged v = xda :: x00 :: x00 :: "a"%byte :: t ->
  unpackb ([xde; x00; x14] ++ tagged_pairs (("msisdn", v) :: items))
  = Raise (UnpackError "not a string").
Proof.
  intros T. unfold unpackb. cbn [app unpack_map_header].
  change (byte_to_Z xde) with 222. change (be_value [x00; x14]) with 20.
  cbn [Z.leb Z.eqb Z.compare Pos.compare Pos.compare_cont andb Pos.eqb
       bind fst snd].
  change (Z.to_nat 20) with (S (S 18)).
  unfold tagged_pairs. cbn [map List.concat fst snd].
  rewrite <- !app_assoc.
  rewrite (unpack_pairs_derailed 18 "msisdn" v t) by
    first [exact T | vm_compute; discriminate].
  reflexivity.
Qed.

(** C9 (as stated) fails past the 16-bit class: the record with a
    65536-byte [msisdn] is a record of 20 string-valued fields, the encoder
    writes its length as 0xda 0x00 0x00, and the decoder rejects the
    result. *)
Lemma roundtrip_counterexample :
  valid_record long_record /\
  exists out,
    simulate_c_msgpack_compression long_record = Ok out /\
    unpackb out = Raise (UnpackError "not a string").
Proof.
  split.
  - split; [exact field_names_NoDup|]. intros k. apply iff_refl.
  - exists ([xde; x00; x14] ++ tagged_pairs long_record). split.
    + apply simulate_in_declared_order. reflexivity.
    + apply (unpackb_long_value long_string
               (encode_utf8 (string_of_list_ascii (repeat "a"%char (Z.to_nat 65535))))).
      unfold tagged. rewrite tagged_long_string. reflexivity.
Qed.

(** ** Character classes *)

Lemma digit_code (c : ascii) : is_digit c = true <-> 48 <= code c <= 57.
Proof. unfold is_digit. rewrite andb_true_iff, !Z.leb_le. tauto. Qed.

Lemma space_code (c : ascii) :
  is_space c = true <->
  code c = 32 \/ 9 <= code c <= 13 \/ 28 <= code c <= 31.
Proof.
  unfold is_space. rewrite !orb_true_iff, !andb_true_iff, !Z.leb_le, Z.eqb_eq.
  tauto.
Qed.

Lemma sign_code (c : ascii) : is_sign c = true <-> code c = 43 \/ code c = 45.
Proof. unfold is_sign. rewrite orb_true_iff, !Z.eqb_eq. tauto. Qed.

Lemma digit_not_space (c : ascii) : is_digit c = true -> is_space c = false.
Proof.
  intros H. apply digit_code in H. destruct (is_space c) eqn:E; [|reflexivity].
  apply space_code in E. lia.
Qed.

Lemma sign_not_space (c : ascii) : is_sign c = true -> is_space c = false.
Proof.
  intros H. apply sign_code in H. destruct (is_space c) eqn:E; [|reflexivity].
  apply space_code in E. lia.
Qed.

Lemma digit_not_sign (c : ascii) : is_digit c = true -> is_sign c = false.
Proof.
  intros H. apply digit_code in H. destruct (is_sign c) eqn:E; [|reflexivity].
  apply sign_code in E. lia.
Qed.

Lemma sign_not_digit (c : ascii) : is_sign c = true -> is_digit c = false.
Proof.
  intros H. destruct (is_digit c) eqn:E; [|reflexivity].
  apply digit_not_sign in E. congruence.
Qed.

(** ** The scan of [findall] *)

Lemma span_digits_spec (s : list ascii) :
  s = fst (span_digits s) ++ snd (span_digits s) /\
  forallb is_digit (fst (span_digits s)) = true /\
  match snd (span_digits s) with
  | c :: _ => is_digit c = false
  | [] => True
  end.
Proof.
  induction s as [|c t IH]; cbn [span_digits]; [cbn; tauto|].
  destruct (is_digit c) eqn:D.
  - destruct (span_digits t) as [ds r]. cbn [fst snd] in *.
    destruct IH as [E [F R]]. cbn [app forallb]. rewrite D, F, <- E. tauto.
  - cbn [fst snd app forallb]. rewrite D. tauto.
Qed.


Lemma span_digits_nodigit (s : list ascii) :
  match s with c :: _ => is_digit c = false | [] => True end ->
  span_digits s = ([], s).
Proof.
  destruct s as [|c t]; [reflexivity|]. intros D. cbn [span_digits].
  rewrite D. reflexivity.
Qed.

(** Equal lists up to the bracketing of [++]. *)
Ltac app_normal :=
  repeat (rewrite <- app_assoc || rewrite <- app_comm_cons || rewrite app_nil_r);
  cbn [app]; try reflexivity.

(** A match is a prefix of the text, has the number syntax and is not empty. *)
Lemma match_number_spec (s tok rest : list ascii) :
  match_number s = Some (tok, rest) ->
  s = tok ++ rest /\ number_syntax tok /\ tok <> [].
Proof.
  unfold match_number.
  set (p := match s with
            | c :: t => if is_sign c then ([c], t) else ([], s)
            | [] => ([], s)
            end).
  assert (Hp : s = fst p ++ snd p /\ optional_sign (fst p)).
  { subst p. destruct s as [|c t]; [cbn; split; [reflexivity | left; reflexivity]|].
    destruct (is_sign c) eqn:Sg; cbn [fst snd app].
    - split; [reflexivity|]. right. exists c. tauto.
    - split; [reflexivity | left; reflexivity]. }
  destruct p as [sgn s1]. cbn [fst snd] in Hp. destruct Hp as [Es Hs].
  pose proof (span_digits_spec s1) as [E1 [F1 _]].
  destruct (span_digits s1) as [ds s2]. cbn [fst snd] in E1, F1.
  destruct ds as [|d ds]; [discriminate|].
  assert (Hds : digits (d :: ds)) by (split; [discriminate | exact F1]).
  assert (Hne : forall l, sgn ++ (d :: ds) ++ l <> []).
  { intros l. destruct sgn; discriminate. }
  destruct s2 as [|dot s3].
  - intros [= <- <-]. rewrite app_nil_r in E1. subst s1.
    split; [rewrite app_nil_r; exact Es|].
    split; [apply (number_integer sgn (d :: ds)); assumption|].
    specialize (Hne []). rewrite app_nil_r in Hne. exact Hne.
  - destruct (code dot =? 46) eqn:Dot.
    + apply Z.eqb_eq in Dot.
      pose proof (span_digits_spec s3) as [E3 [F3 _]].
      destruct (span_digits s3) as [fs s4]. cbn [fst snd] in E3, F3.
      destruct fs as [|f fs].
      * intros [= <- <-]. subst s1 s.
        split; [app_normal|].
        split; [apply (number_integer sgn (d :: ds)); assumption|].
        specialize (Hne []). rewrite app_nil_r in Hne. exact Hne.
      * intros [= <- <-]. subst s1 s3 s.
        split; [app_normal|].
        split; [apply (number_fraction sgn (d :: ds) (f :: fs) dot);
                try assumption; split; [discriminate | exact F3]|].
        apply (Hne (dot :: f :: fs)).
    + intros [= <- <-]. subst s1 s.
      split; [app_normal|].
      split; [apply (number_integer sgn (d :: ds)); assumption|].
      specialize (Hne []). rewrite app_nil_r in Hne. exact Hne.
Qed.




Lemma length_list_ascii_of_string (s : string) :
  List.length (list_ascii_of_string s) = String.length s.
Proof. induction s; cbn; congruence. Qed.


(** ** [float()] accepts every token of the scan *)

Lemma lstrip_head (c : ascii) (t : list ascii) :
  is_space c = false -> lstrip (c :: t) = c :: t.
Proof. intros H. cbn [lstrip]. rewrite H. reflexivity. Qed.

Lemma strip_id (l : list ascii) (c c' : ascii) (t t' : list ascii) :
  l = c :: t -> is_space c = false ->
  rev l = c' :: t' -> is_space c' = false ->
  strip l = l.
Proof.
  intros E S E' S'. unfold strip. rewrite E at 1. rewrite lstrip_head by exact S.
  rewrite <- E, E', lstrip_head by exact S'. rewrite <- E'. apply rev_involutive.
Qed.

Lemma digits_last (ds : list ascii) :
  digits ds -> exists c t, rev ds = c :: t /\ is_digit c = true.
Proof.
  intros [Ne F]. destruct (rev ds) as [|c t] eqn:E.
  - apply (f_equal (@rev ascii)) in E. rewrite rev_involutive in E. contradiction.
  - exists c, t. split; [reflexivity|]. rewrite forallb_forall in F.
    apply F. apply in_rev. rewrite E. left. reflexivity.
Qed.

Lemma digits_head (ds : list ascii) :
  digits ds -> exists c t, ds = c :: t /\ is_digit c = true /\ forallb is_digit t = true.
Proof.
  intros [Ne F]. destruct ds as [|c t]; [contradiction|].
  cbn [forallb] in F. apply andb_true_iff in F. exists c, t. tauto.
Qed.

Lemma digits_run_digits (ds r : list ascii) :
  forallb is_digit ds = true ->
  match r with
  | c :: _ => is_digit c = false /\ code c <> 95
  | [] => True
  end ->
  digits_run (ds ++ r) = (ds, r).
Proof.
  intros F R. induction ds as [|d ds IH]; cbn [app].
  - destruct r as [|c r']; [reflexivity|]. destruct R as [D U].
    cbn [digits_run]. rewrite D.
    replace (code c =? 95) with false by (symmetry; apply Z.eqb_neq; exact U).
    reflexivity.
  - cbn [forallb] in F. apply andb_true_iff in F. destruct F as [D F].
    cbn [digits_run]. rewrite D, (IH F). reflexivity.
Qed.

Lemma digitpart_digits (ds r : list ascii) :
  digits ds ->
  match r with
  | c :: _ => is_digit c = false /\ code c <> 95
  | [] => True
  end ->
  digitpart (ds ++ r) = Some (ds, r).
Proof.
  intros H R. destruct (digits_head ds H) as [c [t [-> [D F]]]].
  cbn [app digitpart]. rewrite D, (digits_run_digits t r F R). reflexivity.
Qed.

Lemma float_number_accepts (neg : bool) (body : list ascii) :
  (digits body \/
   exists ds fs dot, digits ds /\ digits fs /\ code dot = 46 /\
                     body = ds ++ dot :: fs) ->
  exists x, float_number neg body = Some x.
Proof.
  intros [H|[ds [fs [dot [Hd [Hf [Dot ->]]]]]]]; unfold float_number.
  - pose proof (digitpart_digits body [] H I) as E. rewrite app_nil_r in E.
    rewrite E. cbn [float_exponent]. eexists. reflexivity.
  - assert (R : is_digit dot = false /\ code dot <> 95).
    { split; [|lia]. destruct (is_digit dot) eqn:D; [|reflexivity].
      apply digit_code in D. lia. }
    rewrite (digitpart_digits ds (dot :: fs) Hd R).
    replace (code dot =? 46) with true by (symmetry; apply Z.eqb_eq; exact Dot).
    pose proof (digitpart_digits fs [] Hf I) as E. rewrite app_nil_r in E.
    rewrite E. cbn [float_exponent]. eexists. reflexivity.
Qed.

Lemma lower_digit (c : ascii) : is_digit c = true -> lower c = c.
Proof.
  intros D. apply digit_code in D. unfold lower.
  replace ((65 <=? code c) && (code c <=? 90)) with false; [reflexivity|].
  symmetry. apply andb_false_iff. left. apply Z.leb_gt. lia.
Qed.

(** A word that starts with a digit is none of [inf], [infinity], [nan]. *)
Lemma digit_word (c : ascii) (t : list ascii) (w : string) :
  is_digit c = true ->
  match w with
  | String x _ => is_digit x = false
  | EmptyString => True
  end ->
  String.eqb (string_of_list_ascii (map lower (c :: t))) w = false.
Proof.
  intros D W. cbn [map string_of_list_ascii]. rewrite (lower_digit c D).
  destruct w as [|x w]; [reflexivity|]. cbn [String.eqb].
  destruct (Ascii.eqb_spec c x) as [->|N]; [congruence | reflexivity].
Qed.

Lemma py_float_unsigned (s : string) (neg : bool) (body : list ascii) :
  strip (list_ascii_of_string s) = (if neg then ["-"%char] else []) ++ body
  \/ strip (list_ascii_of_string s) = "+"%char :: body /\ neg = false ->
  (digits body \/
   exists ds fs dot, digits ds /\ digits fs /\ code dot = 46 /\
                     body = ds ++ dot :: fs) ->
  exists x, py_float s = Ok x.
Proof.
  intros Hs Hb.
  assert (Hd : exists c t, body = c :: t /\ is_digit c = true).
  { destruct Hb as [H|[ds [fs [dot [H [_ [_ ->]]]]]]];
      destruct (digits_head _ H) as [c [t [-> [D _]]]];
      eexists; eexists; (split; [reflexivity | exact D]). }
  destruct Hd as [c [t [Eb D]]].
  assert (T : take_sign (strip (list_ascii_of_string s)) = (neg, body)).
  { destruct Hs as [-> | [-> ->]]; [destruct neg|].
    - reflexivity.
    - rewrite Eb. cbn [app take_sign]. rewrite (digit_not_sign c D). reflexivity.
    - reflexivity. }
  unfold py_float. rewrite T. subst body.
  rewrite !digit_word by (exact D || reflexivity).
  cbn [orb]. destruct (float_number_accepts neg (c :: t) Hb) as [x ->].
  exists x. reflexivity.
Qed.

Lemma py_float_token (tok : list ascii) :
  number_syntax tok -> exists x, py_float (string_of_list_ascii tok) = Ok x.
Proof.
  intros N.
  assert (B : exists sgn body,
             tok = sgn ++ body /\ optional_sign sgn /\
             (digits body \/
              exists ds fs dot, digits ds /\ digits fs /\ code dot = 46 /\
                                body = ds ++ dot :: fs)).
  { destruct N as [sgn ds Hs Hd | sgn ds fs dot Hs Hd Dot Hf].
    - exists sgn, ds. tauto.
    - exists sgn, (ds ++ dot :: fs). split; [reflexivity|]. split; [exact Hs|].
      right. exists ds, fs, dot. tauto. }
  destruct B as [sgn [body [-> [Hs Hb]]]].
  assert (Hh : exists c t, body = c :: t /\ is_digit c = true).
  { destruct Hb as [H|[ds [fs [dot [H [_ [_ ->]]]]]]];
      destruct (digits_head _ H) as [c [t [-> [D _]]]];
      eexists; eexists; (split; [reflexivity | exact D]). }
  assert (Hl : exists c t, rev body = c :: t /\ is_digit c = true).
  { destruct Hb as [H|[ds [fs [dot [_ [H [_ ->]]]]]]].
    - exact (digits_last _ H).
    - destruct (digits_last _ H) as [c [t [E D]]].
      exists c, (t ++ dot :: rev ds). split; [|exact D].
      rewrite rev_app_distr. cbn [rev]. rewrite E. app_normal. }
  destruct Hh as [c [t [Eb D]]]. destruct Hl as [c' [t' [Er D']]].
  assert (St : strip (sgn ++ body) = sgn ++ body).
  { destruct Hs as [->|[g [G ->]]].
    - cbn [app]. apply (strip_id body c c' t t'); auto using digit_not_space.
    - apply (strip_id _ g c' body (t' ++ [g])); auto using digit_not_space, sign_not_space.
      cbn [app rev]. rewrite Er. reflexivity. }
  destruct Hs as [->|[g [G ->]]].
  - apply (py_float_unsigned _ false body); [|exact Hb].
    left. rewrite list_ascii_of_string_of_list_ascii. exact St.
  - apply sign_code in G. destruct G as [G|G].
    + apply (py_float_unsigned _ false body); [|exact Hb].
      right. split; [|reflexivity].
      rewrite list_ascii_of_string_of_list_ascii, St. cbn [app]. f_equal.
      rewrite <- (ascii_N_embedding g). unfold code in G.
      replace (N_of_ascii g) with 43%N by lia. reflexivity.
    + apply (py_float_unsigned _ true body); [|exact Hb].
      left. rewrite list_ascii_of_string_of_list_ascii, St. cbn [app]. f_equal.
      rewrite <- (ascii_N_embedding g). unfold code in G.
      replace (N_of_ascii g) with 45%N by lia. reflexivity.
Qed.






(** ** The size check of the positional encoder *)

Lemma bind_no_key_error {A B : Type} (c : result A) (f : A -> result B) :
  no_key_error c -> (forall a, no_key_error (f a)) -> no_key_error (bind c f).
Proof.
  intros Hc Hf k. destruct c as [a|e]; cbn [bind]; [apply Hf|].
  intros [= ->]. exact (Hc k eq_refl).
Qed.

Lemma py_int_no_key_error (s : string) : no_key_error (py_int s).
Proof.
  intros k. unfold py_int. destruct (take_sign _) as [neg body].
  destruct (digitpart body) as [[ds [|c r]]|]; discriminate.
Qed.

Lemma py_float_no_key_error (s : string) : no_key_error (py_float s).
Proof.
  intros k. unfold py_float. destruct (take_sign _) as [neg body].
  destruct (_ || _); [discriminate|]. destruct (String.eqb _ "nan"); [discriminate|].
  destruct (float_number neg body); discriminate.
Qed.

Lemma mapM_no_key_error {A B : Type} (f : A -> result B) (l : list A) :
  (forall a, no_key_error (f a)) -> no_key_error (mapM f l).
Proof.
  intros H. induction l as [|a l IH]; cbn [mapM]; [discriminate|].
  apply bind_no_key_error; [apply H|]. intros b.
  apply bind_no_key_error; [exact IH|]. discriminate.
Qed.

Lemma parse_acc_no_key_error (s : string) : no_key_error (parse_acc s).
Proof.
  unfold parse_acc. destruct (negb _); [discriminate|].
  apply mapM_no_key_error. exact py_float_no_key_error.
Qed.

(** After validation every required field is there. *)
Lemma validated_getitem (data : dict string) (k : string) :
  validate_fields data = Ok tt -> In k REQUIRED_FIELDS ->
  exists v, getitem data k = Ok v.
Proof.
  unfold validate_fields. intros H Hk.
  destruct (filter (fun k => negb (contains data k)) REQUIRED_FIELDS) eqn:F;
    [|discriminate H].
  assert (C : contains data k = true).
  { destruct (contains data k) eqn:C; [reflexivity|]. exfalso.
    assert (In k []) as [].
    rewrite <- F. apply filter_In. rewrite C. split; [exact Hk | reflexivity]. }
  unfold contains in C. unfold getitem.
  destruct (dict_get data k) as [v|]; [exists v; reflexivity | discriminate C].
Qed.

Section ProtobufProperties.

Variable int_field_ok : string -> Z -> bool.
Variable SerializeToString : ContainerData -> list byte.

Lemma set_int_no_key_error (field : string) (v : Z) :
  no_key_error (set_int int_field_ok field v).
Proof. intros k. unfold set_int. destruct (int_field_ok field v); discriminate. Qed.

(** A validated record is never rejected for a missing field. *)
Lemma json_to_protobuf_no_key_error (data : dict string) :
  validate_fields data = Ok tt ->
  no_key_error (json_to_protobuf int_field_ok data).
Proof.
  intros V. unfold json_to_protobuf.
  repeat match goal with
         | |- context [getitem data ?k] =>
             let v := fresh "v" in
             let E := fresh "E" in
             destruct (validated_getitem data k V) as [v E];
             [cbn [REQUIRED_FIELDS In]; tauto|];
             rewrite E; clear E
         end.
  cbn [bind]. unfold _int, _float.
  repeat first
    [ apply set_int_no_key_error | apply py_int_no_key_error
    | apply py_float_no_key_error | apply parse_acc_no_key_error
    | apply bind_no_key_error; [|intros ?] ].
  match goal with
  | |- no_key_error (match ?l with [] => _ | _ :: _ => _ end) =>
      destruct l as [|x [|y [|z [|w l]]]]; try discriminate
  end.
  repeat (apply bind_no_key_error; [apply py_float_no_key_error | intros ?]).
  discriminate.
Qed.

(** C3: for a validated record, [serialize] returns bytes exactly when the
    record encodes and the encoding is shorter than [MAX_PAYLOAD_SIZE] = 158
    bytes, and what it returns is that encoding, unchanged; when the encoding
    has 158 bytes or more it raises the error that carries the actual size
    and the limit.  No field of a validated record is reported missing. *)
Theorem serialize_size_budget :
  forall data : dict string,
    validate_fields data = Ok tt ->
    (forall out : list byte,
        serialize int_field_ok SerializeToString data = Ok out <->
        exists pb,
          json_to_protobuf int_field_ok data = Ok pb /\
          out = SerializeToString pb /\
          len out < MAX_PAYLOAD_SIZE) /\
    (forall pb : ContainerData,
        json_to_protobuf int_field_ok data = Ok pb ->
        MAX_PAYLOAD_SIZE <= len (SerializeToString pb) ->
        serialize int_field_ok SerializeToString data
        = Raise (ValueError_payload (len (SerializeToString pb)) MAX_PAYLOAD_SIZE)) /\
    no_key_error (serialize int_field_ok SerializeToString data) /\
    MAX_PAYLOAD_SIZE = 158.
Proof.
  intros data V. unfold serialize. split; [|split; [|split; [|reflexivity]]].
  - intros out. destruct (json_to_protobuf int_field_ok data) as [pb|e]; cbn [bind].
    + destruct (Z.geb_spec (len (SerializeToString pb)) MAX_PAYLOAD_SIZE) as [G|G].
      * split; [discriminate|]. intros [pb' [[= <-] [-> L]]]. lia.
      * split.
        -- intros [= <-]. exists pb. repeat split. lia.
        -- intros [pb' [[= <-] [-> _]]]. reflexivity.
    + split; [discriminate|]. intros [pb [E _]]. discriminate.
  - intros pb -> G. cbn [bind].
    destruct (Z.geb_spec (len (SerializeToString pb)) MAX_PAYLOAD_SIZE); [reflexivity | lia].
  - apply bind_no_key_error; [exact (json_to_protobuf_no_key_error data V)|].
    intros pb k. destruct (len (SerializeToString pb) >=? MAX_PAYLOAD_SIZE);
      discriminate.
Qed.

End ProtobufProperties.

(** The size check on the test record, with 32-bit integer fields and the
    textual wire form: 53 bytes are returned as they are. *)
Lemma serialize_size_budget_witness :
  exists pb,
    json_to_protobuf int32_ok generate_test_data = Ok pb /\
    serialize int32_ok text_wire generate_test_data = Ok (text_wire pb) /\
    len (text_wire pb) = 53.
Proof.
  destruct (json_to_protobuf int32_ok generate_test_data) as [pb|e] eqn:E;
    [|vm_compute in E; discriminate].
  exists pb. split; [reflexivity|].
  assert (L : len (text_wire pb) = 53).
  { vm_compute in E. injection E as <-. reflexivity. }
  split; [|exact L].
  apply (proj1 (serialize_size_budget int32_ok text_wire generate_test_data
                  eq_refl) (text_wire pb)).
  exists pb. split; [exact E|]. split; [reflexivity|].
  rewrite L. reflexivity.
Defined.

(** ** The compact struct encoder *)

Lemma convert_reads (data : dict string) (t : typed_record) :
  reads data t -> convert_to_typed_data data = Ok (typed_dict t).
Proof.
  unfold reads, int_field, float_field.
  intros (H1 & H2 & H3 & H4 & H5 & (s6 & G6 & H6) & (s7 & G7 & H7)
          & (s8 & G8 & H8) & (s9 & G9 & H9) & (s10 & G10 & H10)
          & (s11 & G11 & H11) & (s12 & G12 & H12) & (s13 & G13 & H13)
          & (s14 & G14 & H14) & (s15 & G15 & H15) & (s16 & G16 & H16)
          & (s17 & G17 & H17) & (s18 & G18 & H18) & (s19 & G19 & H19)
          & (s20 & G20 & H20)).
  unfold convert_to_typed_data, getitem.
  rewrite H1, H2, H3, H4, H5, G6, G7, G8, G9, G10, G11, G12, G13, G14, G15,
    G16, G17, G18, G19, G20.
  cbn [bind].
  rewrite H6, H7, H8, H9, H10, H11, H12, H13, H14, H15, H16, H17, H18, H19, H20.
  reflexivity.
Qed.

Lemma convert_inv (data : dict string) (typed : dict pyval) :
  convert_to_typed_data data = Ok typed ->
  exists t, reads data t /\ typed = typed_dict t.
Proof.
  unfold convert_to_typed_data, getitem. intros H.
  repeat match type of H with
         | context [match dict_get data ?k with _ => _ end] =>
             destruct (dict_get data k) eqn:?; cbn [bind] in H; [|discriminate H]
         | context [bind (py_int ?s) _] =>
             destruct (py_int s) eqn:?; cbn [bind] in H; [|discriminate H]
         | context [bind (py_float ?s) _] =>
             destruct (py_float s) eqn:?; cbn [bind] in H; [|discriminate H]
         | context [bind (mapM py_float ?l) _] =>
             destruct (mapM py_float l) eqn:?; cbn [bind] in H; [|discriminate H]
         end.
  injection H as <-.
  eexists {| t_msisdn := _ |}. split; [|reflexivity].
  unfold reads, int_field, float_field. cbn.
  repeat split; eauto.
Qed.

Lemma add_fields_typed (t : typed_record) :
  add_fields (typed_dict t)
    {| format_parts := []; values := []; string_data := [] |} field_order
  = Ok {| format_parts := layout_codes;
          values := layout_values t;
          string_data := [encode_utf8 (t_msisdn t); encode_utf8 (t_iso6346 t);
                          encode_utf8 (t_time t); encode_utf8 (t_cgi t);
                          encode_utf8 (t_door t)] |}.
Proof.
  unfold layout_values, layout_codes. cbn -[firstn encode_utf8 len].
  rewrite <- !app_assoc. reflexivity.
Qed.

Lemma pack_item_H (n : Z) :
  pack_item "H" (PyInt n)
  = if (0 <=? n) && (n <? 65536) then Ok (u16 n)
    else Raise (StructError_range "H" n).
Proof. reflexivity. Qed.

Lemma pack_item_B (n : Z) :
  pack_item "B" (PyInt n)
  = if (0 <=? n) && (n <? 256) then Ok (u8 n)
    else Raise (StructError_range "B" n).
Proof. reflexivity. Qed.

Lemma pack_item_f (x : float) : pack_item "f" (PyFloat x) = pack_f x.
Proof. reflexivity. Qed.

Lemma pack_f_cases (x : float) :
  pack_f x = if is_ok (pack_f x) then Ok (f32 x) else Raise OverflowError_f.
Proof.
  unfold pack_f, f32. destruct x; cbn [round_b32 is_ok]; try reflexivity.
  destruct (binary_round 24 128 s m e); reflexivity.
Qed.

Lemma pack_H_text (s : string) :
  pack_item "H" (PyInt (len (encode_utf8 s)))
  = Ok (u16 (len (encode_utf8 s))) <-> text_ok s.
Proof.
  rewrite pack_item_H. unfold text_ok.
  pose proof (len_nonneg (encode_utf8 s)).
  destruct (Z.leb_spec 0 (len (encode_utf8 s))); [|lia].
  destruct (Z.ltb_spec (len (encode_utf8 s)) 65536); cbn [andb];
    split; intros; try discriminate; try reflexivity; lia.
Qed.

Lemma pack_B_small (v : Z) :
  pack_item "B" (PyInt v) = Ok (u8 v) <-> small_ok v.
Proof.
  rewrite pack_item_B. unfold small_ok.
  destruct (Z.leb_spec 0 v); destruct (Z.ltb_spec v 256); cbn [andb];
    split; intros; try discriminate; try reflexivity; lia.
Qed.

Lemma pack_f_float (x : float) :
  pack_item "f" (PyFloat x) = Ok (f32 x) <-> float_ok x.
Proof.
  rewrite pack_item_f, pack_f_cases. unfold float_ok.
  destruct (is_ok (pack_f x)); split; intros; try discriminate; reflexivity.
Qed.

(** An item that packs gives the fixed-width encoding of its value. *)
Lemma pack_item_ok_H (n : Z) (b : list byte) :
  pack_item "H" (PyInt n) = Ok b -> pack_item "H" (PyInt n) = Ok (u16 n).
Proof.
  rewrite pack_item_H. destruct ((0 <=? n) && (n <? 65536)); [reflexivity | discriminate].
Qed.

Lemma pack_item_ok_B (n : Z) (b : list byte) :
  pack_item "B" (PyInt n) = Ok b -> pack_item "B" (PyInt n) = Ok (u8 n).
Proof.
  rewrite pack_item_B. destruct ((0 <=? n) && (n <? 256)); [reflexivity | discriminate].
Qed.

Lemma pack_item_ok_f (x : float) (b : list byte) :
  pack_item "f" (PyFloat x) = Ok b -> pack_item "f" (PyFloat x) = Ok (f32 x).
Proof.
  rewrite pack_item_f, pack_f_cases. destruct (is_ok (pack_f x)); [reflexivity | discriminate].
Qed.

Lemma struct_pack_in_range (t : typed_record) :
  in_range t -> struct_pack layout_format (layout_values t) = Ok (fixed_block t).
Proof.
  unfold in_range.
  intros (H1 & H2 & H3 & H4 & H5 & H6 & H7 & L & A & H8 & H9 & H10 & H11
          & H12 & H13 & H14 & H15 & H16 & H17 & H18 & H19).
  unfold layout_values, fixed_block.
  destruct (t_acc t) as [|x [|y [|z more]]]; try (cbn in L; lia).
  cbn [firstn map flat_map app] in *.
  inversion A as [|? ? Ax A']; subst. inversion A' as [|? ? Ay A'']; subst.
  inversion A'' as [|? ? Az _]; subst.
  apply pack_H_text in H1, H2, H3, H5, H11.
  apply pack_B_small in H4, H6, H7, H12, H18.
  apply pack_f_float in Ax, Ay, Az, H8, H9, H10, H13, H14, H15, H16, H17, H19.
  unfold struct_pack. cbn -[pack_item encode_utf8 len].
  rewrite H1, H2, H3, H4, H5, H6, H7, Ax, Ay, Az, H8, H9, H10, H11, H12, H13,
    H14, H15, H16, H17, H18, H19.
  cbn [bind]. rewrite ?app_nil_r, <- ?app_assoc. reflexivity.
Qed.

Lemma struct_pack_inv (t : typed_record) (b : list byte) :
  struct_pack layout_format (layout_values t) = Ok b ->
  in_range t /\ b = fixed_block t.
Proof.
  unfold layout_values. intros H.
  destruct (t_acc t) as [|x [|y [|z more]]] eqn:E;
    [vm_compute in H; discriminate H .. |].
  unfold struct_pack in H. cbn -[pack_item encode_utf8 len] in H.
  repeat match type of H with
         | context [bind (pack_item ?c ?v) _] =>
             let P := fresh "P" in
             destruct (pack_item c v) eqn:P; cbn [bind] in H; [|discriminate H]
         end.
  injection H as <-.
  repeat match goal with
         | P : pack_item "H" (PyInt _) = Ok ?l |- _ =>
             let Q := fresh "Q" in
             pose proof (pack_item_ok_H _ _ P) as Q; rewrite Q in P;
             injection P as <-; apply pack_H_text in Q
         | P : pack_item "B" (PyInt _) = Ok ?l |- _ =>
             let Q := fresh "Q" in
             pose proof (pack_item_ok_B _ _ P) as Q; rewrite Q in P;
             injection P as <-; apply pack_B_small in Q
         | P : pack_item "f" (PyFloat _) = Ok ?l |- _ =>
             let Q := fresh "Q" in
             pose proof (pack_item_ok_f _ _ P) as Q; rewrite Q in P;
             injection P as <-; apply pack_f_float in Q
         end.
  split.
  - unfold in_range. rewrite E. cbn [firstn List.length].
    unfold small_ok in *.
    repeat split; try assumption; try lia.
    repeat constructor; assumption.
  - unfold fixed_block. rewrite E. cbn [firstn flat_map app].
    rewrite ?app_nil_r, <- ?app_assoc. reflexivity.
Qed.

Lemma fold_append {A : Type} (p s1 s2 s3 s4 s5 : list A) :
  fold_left (fun b string_bytes => b ++ string_bytes) [s1; s2; s3; s4; s5] p
  = p ++ s1 ++ s2 ++ s3 ++ s4 ++ s5.
Proof. cbn [fold_left]. rewrite <- !app_assoc. reflexivity. Qed.

(** The encoder succeeds exactly on the records that convert and are in
    range, and its buffer is then the fixed-width block followed by the
    string bytes. *)
Lemma binary_data_spec (data : dict string) (b : list byte) :
  binary_data data = Ok b <->
  exists t, reads data t /\ in_range t /\ b = fixed_block t ++ string_block t.
Proof.
  unfold binary_data. split.
  - intros H. destruct (convert_to_typed_data data) as [typed|] eqn:C;
      [|discriminate H].
    cbn [bind] in H. apply convert_inv in C. destruct C as [t [R ->]].
    rewrite add_fields_typed in H. cbn [bind format_parts values string_data] in H.
    fold layout_format in H.
    destruct (struct_pack layout_format (layout_values t)) as [packed|] eqn:P;
      [|discriminate H].
    apply struct_pack_inv in P. destruct P as [IR ->].
    cbn [bind] in H. rewrite fold_append in H.
    exists t. split; [exact R|]. split; [exact IR|].
    unfold string_block. congruence.
  - intros [t [R [IR ->]]]. rewrite (convert_reads data t R). cbn [bind].
    rewrite add_fields_typed. cbn [bind format_parts values string_data].
    fold layout_format. rewrite (struct_pack_in_range t IR).
    cbn [bind]. rewrite fold_append. reflexivity.
Qed.

Lemma length_be_bytes (n : nat) (v : Z) : List.length (be_bytes n v) = n.
Proof. induction n; cbn [be_bytes List.length]; congruence. Qed.

Lemma fixed_block_length (t : typed_record) :
  (3 <= List.length (t_acc t))%nat -> List.length (fixed_block t) = 63%nat.
Proof.
  intros L. unfold fixed_block.
  destruct (t_acc t) as [|x [|y [|z more]]]; try (cbn in L; lia).
  cbn [firstn flat_map]. unfold u16, u8, f32.
  rewrite !length_app, !length_be_bytes. reflexivity.
Qed.



(** The model agrees with CPython on the test record. *)
Lemma binary_data_test_vector : binary_data generate_test_data = Ok test_buffer.
Proof. vm_compute. reflexivity. Qed.

Section StructProperties.

Variable zlib_compress : list byte -> Z -> list byte.

Lemma struct_zlib_compress_spec (data : dict string) (out : list byte) :
  struct_zlib_compress zlib_compress data = Ok out <->
  exists t, reads data t /\ in_range t /\
            out = zlib_compress (fixed_block t ++ string_block t) 9.
Proof.
  unfold struct_zlib_compress. split.
  - destruct (binary_data data) as [b|] eqn:B; [|discriminate].
    cbn [bind]. intros [= <-]. apply binary_data_spec in B.
    destruct B as [t [R [IR ->]]]. exists t. tauto.
  - intros [t [R [IR ->]]].
    rewrite (proj2 (binary_data_spec data _)) by (exists t; tauto).
    reflexivity.
Qed.


End StructProperties.


(** ** The accelerometer conversion of the compact struct encoder *)

Section AccProperties.

Variable zlib_compress : list byte -> Z -> list byte.


End AccProperties.



(** ** The one-byte fields of the compact struct encoder *)


Section SmallIntegerProperties.

Variable zlib_compress : list byte -> Z -> list byte.


End SmallIntegerProperties.


(** ** The batch generator of the compact struct encoder *)

Lemma len_app {A : Type} (l l' : list A) : len (l ++ l') = len l + len l'.
Proof. unfold len. rewrite length_app. lia. Qed.

Lemma len_cons {A : Type} (x : A) (l : list A) : len (x :: l) = 1 + len l.
Proof. unfold len. cbn [List.length]. lia. Qed.

Section PoolProperties.

Variable zlib_compress : list byte -> Z -> list byte.

Lemma entry_of_accepted (d : dict string) :
  accepted zlib_compress d = true -> entry_ok zlib_compress (entry_of zlib_compress d).
Proof.
  unfold accepted, entry_ok, entry_of.
  destruct (struct_zlib_compress zlib_compress d) as [c|] eqn:E; [|discriminate].
  cbn [original compressed size]. rewrite E. intros H. apply Z.ltb_lt in H. tauto.
Qed.

Lemma accepted_or_rejected (d : dict string) (c : list byte) :
  struct_zlib_compress zlib_compress d = Ok c ->
  (len c >=? MAX_PAYLOAD_SIZE) = rejected zlib_compress d /\
  accepted zlib_compress d = negb (rejected zlib_compress d) /\
  entry_of zlib_compress d
  = {| original := d; compressed := c; size := len c |}.
Proof.
  intros E. unfold accepted, rejected, entry_of. rewrite E.
  split; [reflexivity|]. split; [|reflexivity].
  destruct (Z.geb_spec (len c) MAX_PAYLOAD_SIZE);
    [apply Z.ltb_ge | apply Z.ltb_lt]; lia.
Qed.

(** What one run of the inner loop does when it is left normally: it has
    drawn the records [consumed], stored the accepted ones in order, counted
    the others as rejected, and filled the batch exactly. *)
Lemma batch_loop_finished (samples : list (dict string)) :
  forall (batch_target batch_generated : Z) (st st' : gen_state)
         (rest : list (dict string)),
    batch_loop zlib_compress samples batch_target batch_generated st
    = Finished st' rest ->
    exists consumed,
      samples = consumed ++ rest /\
      all_encode zlib_compress consumed /\
      pool st'
      = pool st ++ map (entry_of zlib_compress)
                       (filter (accepted zlib_compress) consumed) /\
      generated_count st'
      = generated_count st + len (filter (accepted zlib_compress) consumed) /\
      rejected_count st'
      = rejected_count st + len (filter (rejected zlib_compress) consumed) /\
      len consumed
      = len (filter (accepted zlib_compress) consumed)
        + len (filter (rejected zlib_compress) consumed) /\
      batch_generated + len (filter (accepted zlib_compress) consumed)
      = Z.max batch_generated batch_target.
Proof.
  induction samples as [|d samples IH]; intros bt bg st st' rest H;
    cbn [batch_loop] in H.
  - destruct (bg <? bt) eqn:C; [discriminate H|]. injection H as <- <-.
    apply Z.ltb_ge in C. exists []. cbn. rewrite app_nil_r.
    repeat split; try constructor; lia.
  - destruct (bg <? bt) eqn:C.
    + apply Z.ltb_lt in C.
      destruct (struct_zlib_compress zlib_compress d) as [c|e] eqn:E;
        [|discriminate H].
      destruct (accepted_or_rejected d c E) as [G [Ha He]].
      rewrite G in H.
      destruct (rejected zlib_compress d) eqn:Hr; cbn [negb] in Ha;
        apply IH in H; destruct H as [consumed (S & A & P & Gc & R & T & B)];
        cbn [pool generated_count rejected_count] in *;
        exists (d :: consumed); cbn [filter app map]; rewrite Ha, Hr;
        rewrite ?len_cons in *;
        (split; [congruence|]);
        (split; [constructor; [cbn beta; rewrite E; reflexivity | exact A]|]);
        (split; [rewrite P, <- ?app_assoc; cbn [map app]; rewrite ?He; reflexivity|]);
        repeat split; lia.
    + injection H as <- <-. apply Z.ltb_ge in C. exists []. cbn.
      rewrite app_nil_r. repeat split; try constructor; lia.
Qed.



(** What the two loops do when they are left normally. *)
Lemma pool_loop_finished (fuel : nat) :
  forall (n : Z) (samples : list (dict string)) (st st' : gen_state)
         (rest : list (dict string)),
    pool_loop zlib_compress fuel n samples st = Finished st' rest ->
    exists consumed,
      samples = consumed ++ rest /\
      all_encode zlib_compress consumed /\
      pool st'
      = pool st ++ map (entry_of zlib_compress)
                       (filter (accepted zlib_compress) consumed) /\
      generated_count st'
      = generated_count st + len (filter (accepted zlib_compress) consumed) /\
      rejected_count st'
      = rejected_count st + len (filter (rejected zlib_compress) consumed) /\
      len consumed
      = len (filter (accepted zlib_compress) consumed)
        + len (filter (rejected zlib_compress) consumed) /\
      generated_count st' = Z.max (generated_count st) n.
Proof.
  induction fuel as [|fuel IH]; intros n samples st st' rest H;
    cbn [pool_loop] in H;
    (destruct (generated_count st <? n) eqn:C;
     [apply Z.ltb_lt in C
     |injection H as <- <-; apply Z.ltb_ge in C; exists []; cbn;
      repeat split; try constructor; try lia; rewrite app_nil_r; reflexivity]).
  - discriminate H.
  - destruct (batch_loop zlib_compress samples
                (Z.min batch_size (n - generated_count st)) 0 st)
      as [st1 rest1| | |] eqn:B; try discriminate H.
    apply batch_loop_finished in B.
    destruct B as [c1 (S1 & A1 & P1 & G1 & R1 & T1 & B1)].
    apply IH in H. destruct H as [c2 (S2 & A2 & P2 & G2 & R2 & T2 & B2)].
    exists (c1 ++ c2). rewrite !filter_app, map_app, !len_app.
    unfold batch_size in B1.
    split; [rewrite S1, S2, <- app_assoc; reflexivity|].
    split; [apply Forall_app; split; assumption|].
    split; [rewrite P2, P1, <- app_assoc; reflexivity|].
    repeat split; lia.
Qed.




End PoolProperties.


(** * Further properties of the code *)

Lemma len_tagged (s : string) : len (tagged s) = wire_size s.
Proof.
  unfold wire_size, tag_size, tagged.
  destruct (Z.leb_spec (len (encode_utf8 s)) 31) as [H|H].
  - rewrite msgpack_encode_string_fix by exact H. unfold len. cbn [List.length]. lia.
  - destruct (Z.leb_spec (len (encode_utf8 s)) 255) as [H'|H'].
    + rewrite msgpack_encode_string_8 by lia. unfold len. cbn [List.length]. lia.
    + rewrite msgpack_encode_string_16 by lia. unfold len. cbn [List.length]. lia.
Qed.

Lemma wire_size_pos (s : string) : 1 <= wire_size s.
Proof.
  unfold wire_size, tag_size. pose proof (len_nonneg (encode_utf8 s)).
  destruct (_ <=? 31); [lia|]. destruct (_ <=? 255); lia.
Qed.

Lemma len_tagged_pairs (items : list (string * string)) :
  len (tagged_pairs items)
  = sum_Z (map (fun kv => wire_size (fst kv) + wire_size (snd kv)) items).
Proof.
  unfold tagged_pairs. induction items as [|[k v] items IH]; [reflexivity|].
  cbn [map List.concat sum_Z fold_right fst snd].
  rewrite !len_app, !len_tagged. fold (sum_Z (map (fun kv => wire_size (fst kv) + wire_size (snd kv)) items)).
  rewrite <- IH. lia.
Qed.

Lemma sum_ge (l : list Z) (n : Z) :
  Forall (fun x => n <= x) l -> n * len l <= sum_Z l.
Proof.
  induction 1 as [|x l H F IH]; [cbn; lia|].
  rewrite len_cons. cbn [sum_Z fold_right]. fold (sum_Z l). lia.
Qed.

(** What [mapM] over the field names returns when it returns. *)
Lemma mapM_getitem_inv {V : Type} (d : dict V) (ks : list string)
  (items : list (string * V)) :
  mapM (fun key => value <- getitem d key ;; Ok (key, value)) ks = Ok items ->
  exists vals, items = combine ks vals /\
               Forall2 (fun k v => dict_get d k = Some v) ks vals.
Proof.
  revert items. induction ks as [|k ks IH]; intros items H; cbn [mapM] in H.
  - injection H as <-. exists []. split; [reflexivity | constructor].
  - unfold getitem at 1 in H. destruct (dict_get d k) as [v|] eqn:G; [|discriminate].
    cbn [bind] in H.
    destruct (mapM _ ks) as [items'|e] eqn:E; [|discriminate].
    cbn [bind] in H. injection H as <-.
    destruct (IH items' eq_refl) as [vals [-> F]].
    exists (v :: vals). split; [reflexivity | constructor; assumption].
Qed.


Lemma simulate_fields (data : dict string) :
  simulate_c_msgpack_compression data
  = fields <- mapM (fun key => value <- getitem data key ;; Ok (key, value))
                   field_names ;;
    Ok ([xde; x00; x14] ++ tagged_pairs fields).
Proof.
  unfold simulate_c_msgpack_compression.
  change (msgpack_encode_map 20) with (@Ok (list byte) [xde; x00; x14]).
  cbn [bind]. destruct (mapM _ field_names) as [fields|e]; cbn [bind]; [|reflexivity].
  apply encode_fields_tagged.
Qed.



(** X2: the simulated encoder reads the 20 fields and nothing else: two dicts
    that agree on the 20 fields give the same result, whatever other entries
    they hold. *)
Theorem simulate_ignores_other_keys :
  forall d1 d2 : dict string,
    (forall k, In k field_names -> dict_get d1 k = dict_get d2 k) ->
    simulate_c_msgpack_compression d1 = simulate_c_msgpack_compression d2.
Proof.
  intros d1 d2 H. rewrite !simulate_fields. f_equal.
  apply mapM_ext. intros k Hk. unfold getitem. rewrite (H k Hk). reflexivity.
Qed.

Lemma simulate_ignores_other_keys_witness :
  simulate_c_msgpack_compression annotated_test_data
  = simulate_c_msgpack_compression generate_test_data.
Proof.
  apply simulate_ignores_other_keys. intros k Hk.
  unfold field_names in Hk. cbn [In] in Hk.
  repeat (destruct Hk as [<-|Hk]; [reflexivity|]). destruct Hk.
Defined.

Lemma sum_field_name_sizes (vals : list string) :
  List.length vals = 20%nat ->
  sum_Z (map (fun kv => wire_size (fst kv) + wire_size (snd kv))
           (combine field_names vals))
  = 139 + sum_Z (map wire_size vals).
Proof.
  intros L. unfold field_names.
  do 21 (destruct vals as [|? vals]; [try discriminate L|]); [|discriminate L].
  cbn [combine map sum_Z fold_right fst snd].
  change (wire_size "msisdn") with 7. change (wire_size "iso6346") with 8.
  change (wire_size "time") with 5. change (wire_size "rssi") with 5.
  change (wire_size "cgi") with 4. change (wire_size "ble-m") with 6.
  change (wire_size "bat-soc") with 8. change (wire_size "acc") with 4.
  change (wire_size "temperature") with 12. change (wire_size "humidity") with 9.
  change (wire_size "pressure") with 9. change (wire_size "door") with 5.
  change (wire_size "gnss") with 5. change (wire_size "latitude") with 9.
  change (wire_size "longitude") with 10. change (wire_size "altitude") with 9.
  change (wire_size "speed") with 6. change (wire_size "heading") with 8.
  change (wire_size "nsat") with 5. change (wire_size "hdop") with 5.
  lia.
Qed.

(** X3: the size of the output of the simulated encoder: 3 bytes of map
    header, 139 bytes for the 20 tagged field names, and for each value its
    UTF-8 bytes after 1, 2 or 3 bytes of tag and length.  The output is
    never shorter than 162 bytes. *)
Theorem simulate_output_size :
  forall (data : dict string) (vals : list string),
    Forall2 (fun k v => dict_get data k = Some v) field_names vals ->
    exists out,
      simulate_c_msgpack_compression data = Ok out /\
      len out = 142 + sum_Z (map wire_size vals) /\
      162 <= len out.
Proof.
  intros data vals F.
  assert (E : mapM (fun key => value <- getitem data key ;; Ok (key, value))
                field_names = Ok (combine field_names vals)).
  { clear - F. induction F as [|k v ks vs G F IH]; [reflexivity|].
    cbn [mapM combine]. unfold getitem at 1. rewrite G. cbn [bind].
    rewrite IH. reflexivity. }
  assert (L : List.length vals = 20%nat)
    by (rewrite <- (Forall2_length F); reflexivity).
  rewrite simulate_fields, E. cbn [bind]. eexists. split; [reflexivity|].
  assert (S : len ([xde; x00; x14] ++ tagged_pairs (combine field_names vals))
              = 142 + sum_Z (map wire_size vals)).
  { rewrite len_app, len_tagged_pairs, sum_field_name_sizes by exact L.
    change (len [xde; x00; x14]) with 3. lia. }
  split; [exact S|]. rewrite S.
  assert (20 <= sum_Z (map wire_size vals)); [|lia].
  replace 20 with (1 * len (map wire_size vals))
    by (unfold len; rewrite length_map, L; reflexivity).
  apply sum_ge. apply Forall_forall. intros x Hx.
  apply in_map_iff in Hx. destruct Hx as [s [<- _]]. apply wire_size_pos.
Qed.

Lemma simulate_output_size_witness :
  exists out,
    simulate_c_msgpack_compression generate_test_data = Ok out /\
    len out = 142 + sum_Z (map wire_size (map snd generate_test_data)) /\
    162 <= len out.
Proof.
  apply simulate_output_size.
  unfold generate_test_data, field_names. cbn [map snd].
  repeat (constructor; [reflexivity|]). constructor.
Defined.

(** ** The simulated encoder: the output determines the record *)

Lemma encode_utf8_inj (s1 s2 : string) :
  encode_utf8 s1 = encode_utf8 s2 -> s1 = s2.
Proof.
  intros H. rewrite <- (string_of_encode_utf8 s1), <- (string_of_encode_utf8 s2).
  rewrite H. reflexivity.
Qed.

Lemma app_inv_len {A : Type} (a b c d : list A) :
  len a = len b -> a ++ c = b ++ d -> a = b /\ c = d.
Proof.
  unfold len. intros L H. apply Nat2Z.inj in L.
  revert b L H. induction a as [|x a IH]; intros [|y b] L H;
    try discriminate L.
  - split; [reflexivity | exact H].
  - cbn [app] in H. injection H as -> H. injection L as L.
    destruct (IH b L H) as [-> ->]. split; reflexivity.
Qed.

Lemma byte_wrap_inj (u v : Z) :
  0 <= u < 256 -> 0 <= v < 256 -> byte_wrap u = byte_wrap v -> u = v.
Proof.
  intros Hu Hv H. apply (f_equal byte_to_Z) in H.
  rewrite !byte_to_Z_wrap, !Z.mod_small in H by assumption. exact H.
Qed.

Lemma byte_wrap_pair_inj (u v : Z) :
  0 <= u < 65536 -> 0 <= v < 65536 ->
  byte_wrap (u / 256) = byte_wrap (v / 256) -> byte_wrap u = byte_wrap v ->
  u = v.
Proof.
  intros Hu Hv H1 H2.
  apply (f_equal byte_to_Z) in H1. apply (f_equal byte_to_Z) in H2.
  rewrite !byte_to_Z_wrap in H1, H2.
  rewrite (Z.mod_small (u / 256)) in H1
    by (split; [apply Z.div_pos; lia | apply Z.div_lt_upper_bound; lia]).
  rewrite (Z.mod_small (v / 256)) in H1
    by (split; [apply Z.div_pos; lia | apply Z.div_lt_upper_bound; lia]).
  pose proof (Z.div_mod u 256 ltac:(lia)). pose proof (Z.div_mod v 256 ltac:(lia)).
  lia.
Qed.

(** The first byte of a tagged string tells its length class. *)
Lemma tagged_cases (s : string) :
  let n := len (encode_utf8 s) in
  (n <= 31 /\ tagged s = byte_wrap (0xa0 + n) :: encode_utf8 s) \/
  (31 < n <= 255 /\ tagged s = xd9 :: byte_wrap n :: encode_utf8 s) \/
  (255 < n /\
   tagged s = xda :: byte_wrap (n / 256) :: byte_wrap n :: encode_utf8 s).
Proof.
  cbv zeta. unfold tagged.
  destruct (Z_le_gt_dec (len (encode_utf8 s)) 31) as [H|H];
    [|destruct (Z_le_gt_dec (len (encode_utf8 s)) 255) as [H'|H']].
  - left. rewrite msgpack_encode_string_fix by exact H. split; [exact H | reflexivity].
  - right; left. rewrite msgpack_encode_string_8 by lia. split; [lia | reflexivity].
  - right; right. rewrite msgpack_encode_string_16 by lia. split; [lia | reflexivity].
Qed.

Lemma fix_tag_value (n : Z) :
  0 <= n <= 31 -> byte_to_Z (byte_wrap (0xa0 + n)) = 160 + n.
Proof. intros H. rewrite byte_to_Z_wrap, Z.mod_small by lia. reflexivity. Qed.

Lemma cons_eq_inv {A : Type} (a b : A) (l m : list A) :
  a :: l = b :: m -> a = b /\ l = m.
Proof. intros [= -> ->]. split; reflexivity. Qed.

Lemma tagged_prefix_free (s1 s2 : string) (r1 r2 : list byte) :
  len (encode_utf8 s1) <= 65535 -> len (encode_utf8 s2) <= 65535 ->
  tagged s1 ++ r1 = tagged s2 ++ r2 -> s1 = s2 /\ r1 = r2.
Proof.
  intros B1 B2 H.
  pose proof (len_nonneg (encode_utf8 s1)) as P1.
  pose proof (len_nonneg (encode_utf8 s2)) as P2.
  assert (D : len (encode_utf8 s1) = len (encode_utf8 s2) ->
              encode_utf8 s1 ++ r1 = encode_utf8 s2 ++ r2 -> s1 = s2 /\ r1 = r2).
  { intros L E. destruct (app_inv_len _ _ _ _ L E) as [E1 E2].
    split; [apply encode_utf8_inj; exact E1 | exact E2]. }
  destruct (tagged_cases s1) as [[L1 T1]|[[L1 T1]|[L1 T1]]];
    destruct (tagged_cases s2) as [[L2 T2]|[[L2 T2]|[L2 T2]]];
    rewrite T1, T2 in H; cbn [app] in H;
    apply cons_eq_inv in H; destruct H as [Ht H];
    apply (f_equal byte_to_Z) in Ht;
    rewrite ?fix_tag_value in Ht by lia;
    change (byte_to_Z xd9) with 217 in Ht;
    change (byte_to_Z xda) with 218 in Ht;
    try lia.
  - apply D; [lia | exact H].
  - apply cons_eq_inv in H. destruct H as [Hl H].
    apply byte_wrap_inj in Hl; [|lia|lia]. apply D; assumption.
  - apply cons_eq_inv in H. destruct H as [Hh H].
    apply cons_eq_inv in H. destruct H as [Hl H].
    apply byte_wrap_pair_inj in Hl; [|lia|lia|exact Hh]. apply D; assumption.
Qed.

(** X4: below 64 KiB a tagged string is self-delimiting: if the bytes of two
    strings, each followed by anything, are the same, the strings are the
    same and so is what follows them.  No encoded string is a proper prefix
    of another. *)
Theorem msgpack_encode_string_self_delimiting :
  forall (s1 s2 : string) (b1 b2 r1 r2 : list byte),
    len (encode_utf8 s1) <= 65535 -> len (encode_utf8 s2) <= 65535 ->
    msgpack_encode_string s1 = Ok b1 -> msgpack_encode_string s2 = Ok b2 ->
    b1 ++ r1 = b2 ++ r2 ->
    s1 = s2 /\ r1 = r2.
Proof.
  intros s1 s2 b1 b2 r1 r2 L1 L2 E1 E2 H.
  rewrite msgpack_encode_string_tagged in E1, E2.
  injection E1 as <-. injection E2 as <-.
  apply tagged_prefix_free; assumption.
Qed.

Lemma msgpack_encode_string_self_delimiting_witness :
  "21" = "21" /\ [xa1; x31] = [xa1; x31].
Proof.
  apply (msgpack_encode_string_self_delimiting "21" "21"
           [xa2; x32; x31] [xa2; x32; x31] [xa1; x31] [xa1; x31]);
    first [reflexivity | (vm_compute; discriminate)].
Defined.

Lemma tagged_pairs_inj (ks : list string) (vs1 vs2 : list string) :
  List.length vs1 = List.length ks -> List.length vs2 = List.length ks ->
  Forall (fun v => len (encode_utf8 v) <= 65535) vs1 ->
  Forall (fun v => len (encode_utf8 v) <= 65535) vs2 ->
  tagged_pairs (combine ks vs1) = tagged_pairs (combine ks vs2) ->
  vs1 = vs2.
Proof.
  unfold tagged_pairs.
  revert vs1 vs2. induction ks as [|k ks IH]; intros [|v1 vs1] [|v2 vs2] L1 L2 F1 F2 H;
    try discriminate L1; try discriminate L2; [reflexivity|].
  cbn [combine map List.concat fst snd] in H.
  rewrite <- !app_assoc in H. apply app_inv_head in H.
  inversion F1 as [|? ? B1 F1']; subst. inversion F2 as [|? ? B2 F2']; subst.
  destruct (tagged_prefix_free _ _ _ _ B1 B2 H) as [-> H'].
  f_equal. apply IH; auto.
Qed.

(** X5: the simulated encoder loses nothing below 64 KiB: two dicts whose 20
    values all fit the 16-bit length class and that encode to the same bytes
    hold the same value for each of the 20 fields. *)
Theorem simulate_output_determines_fields :
  forall (d1 d2 : dict string) (out : list byte),
    (forall k v, In k field_names -> dict_get d1 k = Some v ->
                 len (encode_utf8 v) <= 65535) ->
    (forall k v, In k field_names -> dict_get d2 k = Some v ->
                 len (encode_utf8 v) <= 65535) ->
    simulate_c_msgpack_compression d1 = Ok out ->
    simulate_c_msgpack_compression d2 = Ok out ->
    forall k, In k field_names -> dict_get d1 k = dict_get d2 k.
Proof.
  intros d1 d2 out B1 B2 E1 E2.
  rewrite simulate_fields in E1, E2.
  destruct (mapM _ field_names) as [f1|] eqn:M1; [|discriminate].
  destruct (mapM (fun key => value <- getitem d2 key ;; Ok (key, value)) field_names)
    as [f2|] eqn:M2; [|discriminate].
  cbn [bind] in E1, E2.
  destruct (mapM_getitem_inv _ _ _ M1) as [vs1 [-> F1]].
  destruct (mapM_getitem_inv _ _ _ M2) as [vs2 [-> F2]].
  assert (E0 : [xde; x00; x14] ++ tagged_pairs (combine field_names vs2)
               = [xde; x00; x14] ++ tagged_pairs (combine field_names vs1))
    by congruence.
  apply app_inv_head in E0. clear E1 E2.
  assert (S1 : Forall (fun v => len (encode_utf8 v) <= 65535) vs1).
  { clear - F1 B1. induction F1 as [|k v ks vs G F IH]; constructor.
    - apply (B1 k v); [left; reflexivity | exact G].
    - apply IH. intros k' v' Hk'. apply B1. right. exact Hk'. }
  assert (S2 : Forall (fun v => len (encode_utf8 v) <= 65535) vs2).
  { clear - F2 B2. induction F2 as [|k v ks vs G F IH]; constructor.
    - apply (B2 k v); [left; reflexivity | exact G].
    - apply IH. intros k' v' Hk'. apply B2. right. exact Hk'. }
  assert (E : vs2 = vs1).
  { apply (tagged_pairs_inj field_names); auto.
    - symmetry. exact (Forall2_length F2).
    - symmetry. exact (Forall2_length F1). }
  subst vs2. clear - F1 F2. intros k Hk.
  revert F2. induction F1 as [|k0 v ks vs G F IH]; intros F2; [destruct Hk|].
  inversion F2 as [|? ? ? ? G2 F2']; subst.
  destruct Hk as [<-|Hk]; [congruence | apply IH; assumption].
Qed.

Lemma short_test_values (k v : string) :
  In k field_names -> dict_get generate_test_data k = Some v ->
  len (encode_utf8 v) <= 65535.
Proof.
  intros Hk. unfold field_names in Hk. cbn [In] in Hk.
  repeat (destruct Hk as [<-|Hk]; [intros [= <-]; vm_compute; discriminate|]).
  destruct Hk.
Qed.

Lemma short_annotated_values (k v : string) :
  In k field_names -> dict_get annotated_test_data k = Some v ->
  len (encode_utf8 v) <= 65535.
Proof.
  intros Hk. unfold field_names in Hk. cbn [In] in Hk.
  repeat (destruct Hk as [<-|Hk]; [intros [= <-]; vm_compute; discriminate|]).
  destruct Hk.
Qed.

Lemma simulate_output_determines_fields_witness :
  dict_get annotated_test_data "rssi" = dict_get generate_test_data "rssi".
Proof.
  refine (simulate_output_determines_fields annotated_test_data
            generate_test_data _ short_annotated_values short_test_values
            eq_refl eq_refl "rssi" _).
  unfold field_names. cbn [In]. tauto.
Defined.

(** X6: [msgpack_encode_map] on any integer: below -128 the byte 0x80 + count
    is negative and [bytes] raises ValueError; from -128 to 15 the header is
    the one byte 0x80 + count, which for a negative count is below 0x80 and
    so not a map tag; above 15 it is 0xde and the two low-order bytes of the
    count, so that counts that differ by a multiple of 65536 get the same
    header. *)
Theorem msgpack_encode_map_bounds :
  forall count : Z,
    (count < -128 ->
     msgpack_encode_map count = Raise (ValueError_bytes (0x80 + count))) /\
    (-128 <= count <= 15 ->
     exists b, msgpack_encode_map count = Ok [b] /\
               byte_to_Z b = 0x80 + count) /\
    (15 < count ->
     exists h l, msgpack_encode_map count = Ok [xde; h; l] /\
                 byte_to_Z h * 256 + byte_to_Z l = count mod 65536).
Proof.
  intros count. split; [|split]; intros H.
  - unfold msgpack_encode_map, bytes_of, mapM, byte_of_Z.
    replace (count <=? 15) with true by (symmetry; apply Z.leb_le; lia).
    replace (0 <=? 128 + count) with false by (symmetry; apply Z.leb_gt; lia).
    reflexivity.
  - unfold msgpack_encode_map, bytes_of, mapM.
    replace (count <=? 15) with true by (symmetry; apply Z.leb_le; lia).
    destruct (byte_of_Z_ok (0x80 + count)) as [b [E V]]; [lia|].
    rewrite E. exists b. split; [reflexivity | exact V].
  - rewrite msgpack_encode_map_16 by exact H.
    exists (byte_wrap (count / 256)), (byte_wrap count). split; [reflexivity|].
    rewrite !byte_to_Z_wrap.
    change 65536 with (256 * 256). rewrite Z.rem_mul_r by lia. lia.
Qed.

(** The header for a count of -1 is the byte 0x7f. *)
Lemma msgpack_encode_map_bounds_witness :
  exists b, msgpack_encode_map (-1) = Ok [b] /\ byte_to_Z b = 0x80 + -1.
Proof.
  apply (proj1 (proj2 (msgpack_encode_map_bounds (-1)))). lia.
Defined.

Lemma hex_digit_upper (n : Z) :
  0 <= n < 16 ->
  is_upper_hex (upper_char (hex_digit n)) = true /\
  hex_value (upper_char (hex_digit n)) = n.
Proof.
  intros H.
  assert (A : forall k : nat, (k < 16)%nat ->
             is_upper_hex (upper_char (hex_digit (Z.of_nat k))) = true /\
             hex_value (upper_char (hex_digit (Z.of_nat k))) = Z.of_nat k).
  { intros k K. do 16 (destruct k as [|k]; [split; reflexivity|]). lia. }
  rewrite <- (Z2Nat.id n) by lia. apply A. lia.
Qed.

Lemma byte_split (x : byte) :
  0 <= byte_to_Z x / 16 < 16 /\ 0 <= byte_to_Z x mod 16 < 16.
Proof.
  pose proof (byte_to_Z_range x). split.
  - split; [apply Z.div_pos; lia | apply Z.div_lt_upper_bound; lia].
  - apply Z.mod_pos_bound. lia.
Qed.

Lemma bytes_to_hex_cons (x : byte) (t : list byte) :
  bytes_to_hex (x :: t)
  = String (upper_char (hex_digit (byte_to_Z x / 16)))
      (String (upper_char (hex_digit (byte_to_Z x mod 16))) (bytes_to_hex t)).
Proof. reflexivity. Qed.

Lemma bytes_to_hex_inj (b1 b2 : list byte) :
  bytes_to_hex b1 = bytes_to_hex b2 -> b1 = b2.
Proof.
  revert b2. induction b1 as [|x b1 IH]; intros [|y b2] H;
    [reflexivity | discriminate H | discriminate H |].
  rewrite !bytes_to_hex_cons in H.
  assert (Hh : upper_char (hex_digit (byte_to_Z x / 16))
               = upper_char (hex_digit (byte_to_Z y / 16))) by congruence.
  assert (Hl : upper_char (hex_digit (byte_to_Z x mod 16))
               = upper_char (hex_digit (byte_to_Z y mod 16))) by congruence.
  assert (Ht : bytes_to_hex b1 = bytes_to_hex b2) by congruence.
  apply (f_equal hex_value) in Hh, Hl.
  destruct (byte_split x) as [X1 X2]. destruct (byte_split y) as [Y1 Y2].
  rewrite !(proj2 (hex_digit_upper _ X1)), !(proj2 (hex_digit_upper _ Y1)) in Hh.
  rewrite !(proj2 (hex_digit_upper _ X2)), !(proj2 (hex_digit_upper _ Y2)) in Hl.
  f_equal; [|apply IH; exact Ht].
  apply byte_to_Z_inj.
  pose proof (Z.div_mod (byte_to_Z x) 16 ltac:(lia)).
  pose proof (Z.div_mod (byte_to_Z y) 16 ltac:(lia)). lia.
Qed.

Lemma bytes_to_hex_length (b : list byte) :
  Z.of_nat (String.length (bytes_to_hex b)) = 2 * len b.
Proof.
  induction b as [|x b IH]; [reflexivity|].
  rewrite bytes_to_hex_cons, len_cons. cbn [String.length]. lia.
Qed.

Lemma bytes_to_hex_alphabet (b : list byte) :
  string_forall is_upper_hex (bytes_to_hex b) = true.
Proof.
  induction b as [|x b IH]; [reflexivity|].
  rewrite bytes_to_hex_cons. cbn [string_forall].
  destruct (byte_split x) as [X1 X2].
  rewrite (proj1 (hex_digit_upper _ X1)), (proj1 (hex_digit_upper _ X2)), IH.
  reflexivity.
Qed.

Lemma bytes_to_hex_app (b1 b2 : list byte) :
  bytes_to_hex (b1 ++ b2) = String.append (bytes_to_hex b1) (bytes_to_hex b2).
Proof.
  induction b1 as [|x b1 IH]; [reflexivity|].
  cbn [app]. rewrite !bytes_to_hex_cons, IH. reflexivity.
Qed.

(** X7: [bytes_to_hex] writes each byte as two characters among 0-9 and A-F,
    in order: the text is twice as long as the payload, the text of a
    concatenation is the concatenation of the texts, and two payloads with
    the same text are the same payload. *)
Theorem bytes_to_hex_faithful :
  forall b1 b2 : list byte,
    Z.of_nat (String.length (bytes_to_hex b1)) = 2 * len b1 /\
    string_forall is_upper_hex (bytes_to_hex b1) = true /\
    bytes_to_hex (b1 ++ b2) = String.append (bytes_to_hex b1) (bytes_to_hex b2) /\
    (bytes_to_hex b1 = bytes_to_hex b2 <-> b1 = b2).
Proof.
  intros b1 b2. split; [apply bytes_to_hex_length|].
  split; [apply bytes_to_hex_alphabet|].
  split; [apply bytes_to_hex_app|].
  split; [apply bytes_to_hex_inj | intros ->; reflexivity].
Qed.

(** ** Validation and the fields the encoder reads *)

Lemma validate_fields_ok (d : dict string) :
  validate_fields d = Ok tt <->
  forall k, In k REQUIRED_FIELDS -> dict_get d k <> None.
Proof.
  unfold validate_fields. split.
  - intros H k Hk.
    destruct (filter (fun k => negb (contains d k)) REQUIRED_FIELDS) eqn:F;
      [|discriminate H].
    intros N. assert (In k []) as [].
    rewrite <- F. apply filter_In. split; [exact Hk|].
    unfold contains. rewrite N. reflexivity.
  - intros H.
    destruct (filter (fun k => negb (contains d k)) REQUIRED_FIELDS) as [|k l] eqn:F;
      [reflexivity|].
    exfalso. assert (Hk : In k (k :: l)) by (left; reflexivity).
    rewrite <- F in Hk. apply filter_In in Hk. destruct Hk as [Hk C].
    unfold contains in C. specialize (H k Hk).
    destruct (dict_get d k); [discriminate C | congruence].
Qed.

Lemma bind_getitem_ok {A : Type} (d : dict string) (k : string)
  (f : string -> result A) (a : A) :
  bind (getitem d k) f = Ok a -> exists v, dict_get d k = Some v /\ f v = Ok a.
Proof.
  unfold getitem. destruct (dict_get d k) as [v|]; [|discriminate].
  cbn [bind]. intros H. exists v. split; [reflexivity | exact H].
Qed.

Lemma bind_ok {A B : Type} (c : result A) (f : A -> result B) (b : B) :
  bind c f = Ok b -> exists a, c = Ok a /\ f a = Ok b.
Proof.
  destruct c as [a|e]; [|discriminate]. cbn [bind]. intros H.
  exists a. split; [reflexivity | exact H].
Qed.

Section AstrocastProperties.

Variable int_field_ok : string -> Z -> bool.
Variable SerializeToString : ContainerData -> list byte.

(** The encoder reads each of the required fields. *)
Lemma json_to_protobuf_reads_all (data : dict string) (pb : ContainerData) :
  json_to_protobuf int_field_ok data = Ok pb ->
  forall k, In k REQUIRED_FIELDS -> dict_get data k <> None.
Proof.
  unfold json_to_protobuf. intros H.
  repeat match type of H with
         | bind (getitem data ?k) _ = Ok _ =>
             let v := fresh "v" in
             let G := fresh "G" in
             apply bind_getitem_ok in H; destruct H as [v [G H]]
         | bind (bind (getitem data ?k) _) _ = Ok _ =>
             let a := fresh "a" in
             let v := fresh "v" in
             let G := fresh "G" in
             let E := fresh "E" in
             apply bind_ok in H; destruct H as [a [E H]];
             apply bind_getitem_ok in E; destruct E as [v [G _]]
         | match ?l with [] => _ | _ :: _ => _ end = Ok _ =>
             destruct l as [|? [|? [|? [|? ?]]]]; try discriminate H
         end.
  intros k Hk. unfold REQUIRED_FIELDS in Hk. cbn [In] in Hk.
  repeat (destruct Hk as [<-|Hk]; [congruence|]). destruct Hk.
Qed.

(** X8: [validate_fields] accepts exactly the dicts that hold the 20 required
    fields, and when it rejects one the error lists the required fields the
    dict does not hold, in the declared order.  The check asks for nothing
    the encoder could do without: [json_to_protobuf] and [serialize] return
    only for dicts that pass it. *)
Theorem validate_fields_exact :
  forall data : dict string,
    (validate_fields data = Ok tt <->
     forall k, In k REQUIRED_FIELDS -> dict_get data k <> None) /\
    (forall e, validate_fields data = Raise e ->
       e = ValueError_missing
             (filter (fun k => match dict_get data k with
                               | None => true
                               | Some _ => false
                               end) REQUIRED_FIELDS)) /\
    (forall pb, json_to_protobuf int_field_ok data = Ok pb ->
                validate_fields data = Ok tt) /\
    (forall raw, serialize int_field_ok SerializeToString data = Ok raw ->
                 validate_fields data = Ok tt).
Proof.
  intros data. split; [apply validate_fields_ok|]. split; [|split].
  - unfold validate_fields. intros e.
    replace (filter (fun k => negb (contains data k)) REQUIRED_FIELDS)
      with (filter (fun k => match dict_get data k with
                             | None => true
                             | Some _ => false
                             end) REQUIRED_FIELDS)
      by (apply filter_ext; intros k; unfold contains;
          destruct (dict_get data k); reflexivity).
    destruct (filter _ REQUIRED_FIELDS); [discriminate|].
    intros [= <-]. reflexivity.
  - intros pb H. apply validate_fields_ok.
    exact (json_to_protobuf_reads_all data pb H).
  - intros raw H. unfold serialize in H. apply bind_ok in H.
    destruct H as [pb [H _]]. apply validate_fields_ok.
    exact (json_to_protobuf_reads_all data pb H).
Qed.

(** X9: the hexadecimal payload of [main]: when it is computed it is the text
    of the serialized record, which has fewer than 158 bytes, so it has an
    even number of characters, 314 at most, all among 0-9 and A-F; the
    record it comes from has passed the validation. *)
Theorem main_hex_payload_bound :
  forall (data : dict string) (h : string),
    main_hex_payload int_field_ok SerializeToString data = Ok h ->
    exists raw,
      validate_fields data = Ok tt /\
      serialize int_field_ok SerializeToString data = Ok raw /\
      h = bytes_to_hex raw /\
      Z.of_nat (String.length h) = 2 * len raw /\
      Z.of_nat (String.length h) <= 314 /\
      string_forall is_upper_hex h = true.
Proof.
  intros data h H. unfold main_hex_payload in H.
  apply bind_ok in H. destruct H as [[] [V H]].
  apply bind_ok in H. destruct H as [raw [S H]].
  injection H as <-. exists raw.
  split; [exact V|]. split; [exact S|]. split; [reflexivity|].
  split; [apply bytes_to_hex_length|].
  split; [|apply bytes_to_hex_alphabet].
  rewrite bytes_to_hex_length.
  unfold serialize in S. apply bind_ok in S. destruct S as [pb [_ S]].
  cbv zeta in S.
  destruct (Z.geb_spec (len (SerializeToString pb)) MAX_PAYLOAD_SIZE) as [G|G];
    [discriminate S|].
  injection S as <-. unfold MAX_PAYLOAD_SIZE in G. lia.
Qed.

End AstrocastProperties.

Lemma validate_fields_exact_witness : validate_fields generate_test_data = Ok tt.
Proof.
  apply (proj2 (proj1 (validate_fields_exact int32_ok text_wire
                         generate_test_data))).
  intros k Hk. unfold REQUIRED_FIELDS in Hk. cbn [In] in Hk.
  repeat (destruct Hk as [<-|Hk]; [discriminate|]). destruct Hk.
Defined.

(** The payload of the test record, with 32-bit integer fields and the
    textual wire form. *)
Lemma main_hex_payload_bound_witness :
  exists raw,
    validate_fields generate_test_data = Ok tt /\
    serialize int32_ok text_wire generate_test_data = Ok raw /\
    bytes_to_hex
      (encode_utf8 "393600504920LMCU0954822300725 221117.8999-01-1-31D41D")
    = bytes_to_hex raw /\
    Z.of_nat (String.length
      (bytes_to_hex
         (encode_utf8 "393600504920LMCU0954822300725 221117.8999-01-1-31D41D")))
    = 2 * len raw /\
    Z.of_nat (String.length
      (bytes_to_hex
         (encode_utf8 "393600504920LMCU0954822300725 221117.8999-01-1-31D41D")))
    <= 314 /\
    string_forall is_upper_hex
      (bytes_to_hex
         (encode_utf8 "393600504920LMCU0954822300725 221117.8999-01-1-31D41D"))
    = true.
Proof.
  apply (main_hex_payload_bound int32_ok text_wire generate_test_data).
  vm_compute. reflexivity.
Defined.

(** ** [str] and [int] on integers *)

Lemma digit_char_digit (d : Z) :
  0 <= d < 10 -> is_digit (digit_char d) = true /\ digit_value (digit_char d) = d.
Proof.
  intros H.
  assert (C : d = 0 \/ d = 1 \/ d = 2 \/ d = 3 \/ d = 4 \/ d = 5 \/ d = 6
              \/ d = 7 \/ d = 8 \/ d = 9) by lia.
  repeat (destruct C as [->|C]; [split; reflexivity|]). subst d. split; reflexivity.
Qed.

Lemma digits_value_snoc (l : list ascii) (c : ascii) :
  digits_value (l ++ [c]) = digits_value l * 10 + digit_value c.
Proof. unfold digits_value. rewrite fold_left_app. reflexivity. Qed.

Lemma forallb_snoc {A : Type} (p : A -> bool) (l : list A) (x : A) :
  forallb p (l ++ [x]) = forallb p l && p x.
Proof. rewrite forallb_app. cbn [forallb]. rewrite andb_true_r. reflexivity. Qed.

Lemma div10_bound (n : Z) (fuel : nat) :
  10 <= n < 2 ^ Z.of_nat (S fuel) -> 1 <= n / 10 < 2 ^ Z.of_nat fuel.
Proof.
  intros [L U]. rewrite Nat2Z.inj_succ, Z.pow_succ_r in U by lia. split.
  - apply Z.div_le_lower_bound; lia.
  - apply Z.div_lt_upper_bound; lia.
Qed.

(** With enough fuel [decimal] gives the digits of the number. *)
Lemma decimal_spec (fuel : nat) (n : Z) :
  0 <= n < 2 ^ Z.of_nat (S fuel) ->
  digits (decimal (S fuel) n) /\ digits_value (decimal (S fuel) n) = n.
Proof.
  revert n. induction fuel as [|fuel IH]; intros n H;
    cbn [decimal]; destruct (Z.ltb_spec n 10) as [S|L].
  - destruct (digit_char_digit n) as [D V]; [lia|].
    split; [split; [discriminate | cbn [forallb]; rewrite D; reflexivity]|].
    unfold digits_value. cbn [fold_left]. exact V.
  - change (2 ^ Z.of_nat 1) with 2 in H. lia.
  - destruct (digit_char_digit n) as [D V]; [lia|].
    split; [split; [discriminate | cbn [forallb]; rewrite D; reflexivity]|].
    unfold digits_value. cbn [fold_left]. exact V.
  - pose proof (div10_bound n (Datatypes.S fuel) ltac:(lia)) as B.
    destruct (IH (n / 10)) as [[Ne F] V]; [lia|].
    destruct (digit_char_digit (n mod 10)) as [D V'];
      [apply Z.mod_pos_bound; lia|].
    change (if n / 10 <? 10 then [digit_char (n / 10)]
            else decimal fuel (n / 10 / 10) ++ [digit_char ((n / 10) mod 10)])
      with (decimal (Datatypes.S fuel) (n / 10)).
    split; [split|].
    + intros E. apply app_eq_nil in E. destruct E as [_ E]. discriminate E.
    + rewrite forallb_snoc, F, D. reflexivity.
    + rewrite digits_value_snoc, V, V'.
      pose proof (Z.div_mod n 10 ltac:(lia)). lia.
Qed.

Lemma log2_fuel (m : Z) :
  0 <= m -> 0 <= m < 2 ^ Z.of_nat (S (Z.to_nat (Z.log2 m))).
Proof.
  intros H. split; [exact H|].
  rewrite Nat2Z.inj_succ, Z2Nat.id by apply Z.log2_nonneg.
  destruct (Z.eq_dec m 0) as [->|N]; [reflexivity|].
  apply Z.log2_spec. lia.
Qed.

(** [int()] on an optional minus sign and digits. *)
Lemma py_int_digits (neg : bool) (ds : list ascii) :
  digits ds ->
  py_int (string_of_list_ascii ((if neg then ["-"%char] else []) ++ ds))
  = Ok (if neg then - digits_value ds else digits_value ds).
Proof.
  intros H. unfold py_int. rewrite list_ascii_of_string_of_list_ascii.
  destruct (digits_head ds H) as [c [t [E [D _]]]].
  destruct (digits_last ds H) as [c' [t' [E' D']]].
  assert (St : strip ((if neg then ["-"%char] else []) ++ ds)
               = (if neg then ["-"%char] else []) ++ ds).
  { destruct neg; cbn [app].
    - apply (strip_id _ "-"%char c' ds (t' ++ ["-"%char]));
        auto using digit_not_space.
      cbn [rev]. rewrite E'. reflexivity.
    - apply (strip_id ds c c' t t'); auto using digit_not_space. }
  rewrite St.
  assert (T : take_sign ((if neg then ["-"%char] else []) ++ ds) = (neg, ds)).
  { destruct neg; cbn [app]; [reflexivity|].
    rewrite E. cbn [take_sign]. rewrite (digit_not_sign c D). reflexivity. }
  rewrite T. pose proof (digitpart_digits ds [] H I) as P.
  rewrite app_nil_r in P. rewrite P. reflexivity.
Qed.

Lemma str_of_int_digits (n : Z) :
  exists ds,
    digits ds /\ digits_value ds = Z.abs n /\
    str_of_int n
    = string_of_list_ascii ((if n <? 0 then ["-"%char] else []) ++ ds).
Proof.
  unfold str_of_int. cbv zeta.
  destruct (decimal_spec _ (Z.abs n) (log2_fuel (Z.abs n) (Z.abs_nonneg n)))
    as [D V].
  eexists. split; [exact D|]. split; [exact V|].
  destruct (n <? 0); reflexivity.
Qed.

Lemma py_int_str_of_int (n : Z) : py_int (str_of_int n) = Ok n.
Proof.
  destruct (str_of_int_digits n) as [ds [D [V ->]]].
  rewrite py_int_digits by exact D. rewrite V.
  destruct (Z.ltb_spec n 0); f_equal; lia.
Qed.

(** ** Lengths *)

Lemma decimal_length_le (fuel : nat) (n : Z) (k : nat) :
  0 <= n < 2 ^ Z.of_nat fuel -> n < 10 ^ Z.of_nat (S k) ->
  (List.length (decimal fuel n) <= S k)%nat.
Proof.
  revert n k. induction fuel as [|fuel IH]; intros n k H U; [cbn; lia|].
  cbn [decimal]. destruct (Z.ltb_spec n 10) as [S|L]; [cbn; lia|].
  rewrite length_app. cbn [List.length].
  pose proof (div10_bound n fuel ltac:(lia)) as B.
  destruct k as [|k].
  - change (10 ^ Z.of_nat 1) with 10 in U. lia.
  - assert (n / 10 < 10 ^ Z.of_nat (Datatypes.S k)).
    { apply Z.div_lt_upper_bound; [lia|].
      rewrite (Nat2Z.inj_succ (Datatypes.S k)), Z.pow_succ_r in U by lia. exact U. }
    specialize (IH (n / 10) k ltac:(lia) H0). lia.
Qed.

Lemma decimal_length_ge (fuel : nat) (n : Z) (k : nat) :
  0 <= n < 2 ^ Z.of_nat fuel -> 10 ^ Z.of_nat k <= n ->
  (S k <= List.length (decimal fuel n))%nat.
Proof.
  revert n k. induction fuel as [|fuel IH]; intros n k H L.
  - change (2 ^ Z.of_nat 0) with 1 in H.
    assert (0 < 10 ^ Z.of_nat k) by (apply Z.pow_pos_nonneg; lia). lia.
  - cbn [decimal]. destruct (Z.ltb_spec n 10) as [S|G].
    + destruct k as [|k]; [cbn; lia|].
      rewrite Nat2Z.inj_succ, Z.pow_succ_r in L by lia.
      assert (0 < 10 ^ Z.of_nat k) by (apply Z.pow_pos_nonneg; lia). lia.
    + rewrite length_app. cbn [List.length].
      pose proof (div10_bound n fuel ltac:(lia)) as B.
      destruct k as [|k]; [lia|].
      assert (10 ^ Z.of_nat k <= n / 10).
      { apply Z.div_le_lower_bound; [lia|].
        rewrite Nat2Z.inj_succ, Z.pow_succ_r in L by lia. exact L. }
      specialize (IH (n / 10) k ltac:(lia) H0). lia.
Qed.

Lemma length_string_of_list_ascii (l : list ascii) :
  String.length (string_of_list_ascii l) = List.length l.
Proof. induction l; cbn; congruence. Qed.

Lemma str_of_int_length (n : Z) (k : nat) :
  0 <= n -> 10 ^ Z.of_nat k <= n < 10 ^ Z.of_nat (S k) \/ (n = 0 /\ k = O) ->
  String.length (str_of_int n) = S k.
Proof.
  intros P H. unfold str_of_int. cbv zeta.
  replace (n <? 0) with false by (symmetry; apply Z.ltb_ge; exact P).
  rewrite length_string_of_list_ascii, Z.abs_eq by exact P.
  destruct H as [[L U]|[-> ->]]; [|reflexivity].
  pose proof (decimal_length_le _ n k (log2_fuel n P) U).
  pose proof (decimal_length_ge _ n k (log2_fuel n P) L). lia.
Qed.

Lemma str_of_int_length_le (n : Z) (k : nat) :
  0 <= n < 10 ^ Z.of_nat (S k) ->
  (1 <= String.length (str_of_int n) <= S k)%nat /\
  exists c t, list_ascii_of_string (str_of_int n) = c :: t /\ is_sign c = false.
Proof.
  intros [P U]. unfold str_of_int. cbv zeta.
  replace (n <? 0) with false by (symmetry; apply Z.ltb_ge; exact P).
  rewrite length_string_of_list_ascii, list_ascii_of_string_of_list_ascii,
    Z.abs_eq by exact P.
  pose proof (decimal_length_le _ n k (log2_fuel n P) U) as Hl.
  destruct (decimal_spec _ n (log2_fuel n P)) as [D _].
  destruct (digits_head _ D) as [c [t [E [Dc _]]]].
  rewrite E in *. cbn [List.length] in *. split; [lia|].
  exists c, t. split; [reflexivity | apply digit_not_sign; exact Dc].
Qed.

Lemma zfill_length (w : nat) (s : string) :
  (String.length s <= w)%nat -> String.length (zfill w s) = w.
Proof.
  intros H. unfold zfill. cbv zeta.
  rewrite length_string_of_list_ascii.
  rewrite <- length_list_ascii_of_string in H.
  destruct (list_ascii_of_string s) as [|c t]; [|destruct (is_sign c)];
    cbn [List.length] in *; rewrite ?length_app, ?repeat_length;
    cbn [List.length]; lia.
Qed.

Lemma padded_length (w : nat) (n : Z) :
  0 <= n < 10 ^ Z.of_nat w -> (1 <= w)%nat ->
  String.length (padded w n) = w.
Proof.
  intros H W. unfold padded. apply zfill_length.
  destruct w as [|w]; [lia|]. apply (str_of_int_length_le n w H).
Qed.

Lemma length_append (s1 s2 : string) :
  String.length (String.append s1 s2) = (String.length s1 + String.length s2)%nat.
Proof. induction s1 as [|c s1 IH]; cbn; [reflexivity | rewrite IH; reflexivity]. Qed.

Lemma drop_last_length (n : nat) (s : string) :
  String.length (drop_last n s) = (String.length s - n)%nat.
Proof.
  unfold drop_last. cbv zeta.
  rewrite length_string_of_list_ascii, length_firstn, length_list_ascii_of_string.
  lia.
Qed.

Lemma strftime_length (t : datetime) :
  valid_datetime t -> String.length (strftime_dmyHMSf t) = 19%nat.
Proof.
  intros (Y & Mo & D & H & Mi & S & U). unfold strftime_dmyHMSf.
  cbn [String.concat]. rewrite !length_append.
  assert (0 <= year t mod 100 < 100) by (apply Z.mod_pos_bound; lia).
  rewrite !padded_length;
    try (change (10 ^ Z.of_nat 2) with 100; lia);
    try (change (10 ^ Z.of_nat 6) with 1000000; lia); try lia.
  reflexivity.
Qed.

Lemma len_encode_utf8 (s : string) :
  len (encode_utf8 s) = Z.of_nat (String.length s).
Proof.
  unfold len, encode_utf8, list_byte_of_string.
  rewrite length_map, length_list_ascii_of_string. reflexivity.
Qed.

(** ** The sample record *)

Lemma parse_acc_sample : parse_acc "-993.9 -27.1 -52.0" = Ok acc_example.
Proof. vm_compute. reflexivity. Qed.

Section SampleProperties.

Variable int_field_ok : string -> Z -> bool.

(** X10: every record [generate_sample] can return passes [validate_fields]
    and is converted by [json_to_protobuf], when the integer fields of the
    message hold the numbers from 0 to 100: the message carries the drawn
    signal strength, beacon flag and battery level, the constant position
    fix, satellite count and accelerometer vector, a 12-character [msisdn],
    an 11-character [iso6346] and a 14-character [time]. *)
Theorem generate_sample_converts :
  forall (base_time : datetime) (r : sample_draws),
    valid_datetime base_time -> valid_draws r ->
    (forall field v, 0 <= v <= 100 -> int_field_ok field v = true) ->
    validate_fields (generate_sample base_time r) = Ok tt /\
    exists pb,
      json_to_protobuf int_field_ok (generate_sample base_time r) = Ok pb /\
      pb_rssi pb = draw_rssi r /\ pb_ble_m pb = draw_ble_m r /\
      pb_bat_soc pb = 90 + draw_bat_soc r /\
      pb_gnss pb = 1 /\ pb_nsat pb = 6 /\
      [pb_acc_x pb; pb_acc_y pb; pb_acc_z pb] = acc_example /\
      len (encode_utf8 (pb_msisdn pb)) = 12 /\
      len (encode_utf8 (pb_iso6346 pb)) = 11 /\
      len (encode_utf8 (pb_time pb)) = 14.
Proof.
  intros base_time r T (M & C & R & B & S) A. split; [reflexivity|].
  unfold json_to_protobuf, generate_sample, getitem.
  cbn [dict_get String.eqb Ascii.eqb Bool.eqb bind].
  unfold _int. rewrite !py_int_str_of_int. cbn [bind].
  change (py_int "1") with (Ok 1). change (py_int "06") with (Ok 6).
  cbn [bind]. unfold set_int. rewrite !A by lia. cbn [bind].
  rewrite parse_acc_sample. cbn [bind acc_example].
  unfold _float.
  destruct (py_float "22.10") as [x1|] eqn:E1; [|vm_compute in E1; discriminate].
  destruct (py_float "68.00") as [x2|] eqn:E2; [|vm_compute in E2; discriminate].
  destruct (py_float "1012.5043") as [x3|] eqn:E3; [|vm_compute in E3; discriminate].
  destruct (py_float "31.8910") as [x4|] eqn:E4; [|vm_compute in E4; discriminate].
  destruct (py_float "28.7041") as [x5|] eqn:E5; [|vm_compute in E5; discriminate].
  destruct (py_float "38.10") as [x6|] eqn:E6; [|vm_compute in E6; discriminate].
  destruct (py_float "27.3") as [x7|] eqn:E7; [|vm_compute in E7; discriminate].
  destruct (py_float "125.31") as [x8|] eqn:E8; [|vm_compute in E8; discriminate].
  destruct (py_float "1.8") as [x9|] eqn:E9; [|vm_compute in E9; discriminate].
  cbn [bind]. eexists. split; [reflexivity|].
  cbn [pb_rssi pb_ble_m pb_bat_soc pb_gnss pb_nsat pb_acc_x pb_acc_y pb_acc_z
       pb_msisdn pb_iso6346 pb_time _str].
  repeat (split; [reflexivity|]). unfold _str.
  rewrite !len_encode_utf8, !length_append, drop_last_length.
  rewrite (strftime_length base_time T).
  rewrite (str_of_int_length (draw_msisdn r) 3)
    by (try left; change (10 ^ Z.of_nat 3) with 1000;
        change (10 ^ Z.of_nat 4) with 10000; lia).
  rewrite zfill_length
    by (apply (str_of_int_length_le (draw_container r) 6);
        change (10 ^ Z.of_nat 7) with 10000000; lia).
  repeat split; reflexivity.
Qed.

End SampleProperties.

Lemma valid_example_time : valid_datetime example_time.
Proof. unfold valid_datetime, example_time. cbn. lia. Qed.

Lemma valid_example_draws : valid_draws example_draws.
Proof. unfold valid_draws, example_draws. cbn. lia. Qed.

Lemma int32_ok_small (field : string) (v : Z) :
  0 <= v <= 100 -> int32_ok field v = true.
Proof.
  intros H. unfold int32_ok. apply andb_true_iff.
  split; [apply Z.leb_le | apply Z.ltb_lt]; lia.
Qed.

Lemma generate_sample_converts_witness :
  validate_fields (generate_sample example_time example_draws) = Ok tt /\
  exists pb,
    json_to_protobuf int32_ok (generate_sample example_time example_draws)
    = Ok pb /\
    pb_rssi pb = 21 /\ pb_ble_m pb = 1 /\ pb_bat_soc pb = 90 + -3 /\
    pb_gnss pb = 1 /\ pb_nsat pb = 6 /\
    [pb_acc_x pb; pb_acc_y pb; pb_acc_z pb] = acc_example /\
    len (encode_utf8 (pb_msisdn pb)) = 12 /\
    len (encode_utf8 (pb_iso6346 pb)) = 11 /\
    len (encode_utf8 (pb_time pb)) = 14.
Proof.
  exact (generate_sample_converts int32_ok example_time example_draws
           valid_example_time valid_example_draws int32_ok_small).
Defined.

Lemma len_u16 (n : Z) : len (u16 n) = 2.
Proof. unfold len, u16. rewrite length_be_bytes. reflexivity. Qed.

Lemma len_u8 (n : Z) : len (u8 n) = 1.
Proof. unfold len, u8. rewrite length_be_bytes. reflexivity. Qed.

Lemma len_f32 (x : float) : len (f32 x) = 4.
Proof. unfold len, f32. rewrite length_be_bytes. reflexivity. Qed.

Lemma len_acc_block (l : list float) :
  (3 <= List.length l)%nat -> len (flat_map f32 (firstn 3 l)) = 12.
Proof.
  destruct l as [|x [|y [|z l]]]; cbn [List.length]; try lia. intros _.
  cbn [firstn flat_map]. rewrite !len_app, !len_f32. reflexivity.
Qed.

Lemma u8_inj (a b : Z) : small_ok a -> small_ok b -> u8 a = u8 b -> a = b.
Proof.
  unfold small_ok, u8. rewrite !be_bytes_1. intros Ha Hb H.
  apply cons_eq_inv in H. destruct H as [H _].
  apply byte_wrap_inj; [lia | lia | exact H].
Qed.

Lemma u16_inj (a b : Z) :
  0 <= a <= 65535 -> 0 <= b <= 65535 -> u16 a = u16 b -> a = b.
Proof.
  unfold u16. rewrite !be_bytes_2. intros Ha Hb H.
  apply cons_eq_inv in H. destruct H as [Hh H].
  apply cons_eq_inv in H. destruct H as [Hl _].
  apply byte_wrap_pair_inj; [lia | lia | exact Hh | exact Hl].
Qed.

Lemma text_len_inj (s1 s2 : string) :
  text_ok s1 -> text_ok s2 ->
  u16 (len (encode_utf8 s1)) = u16 (len (encode_utf8 s2)) ->
  len (encode_utf8 s1) = len (encode_utf8 s2).
Proof.
  unfold text_ok. intros H1 H2.
  pose proof (len_nonneg (encode_utf8 s1)). pose proof (len_nonneg (encode_utf8 s2)).
  apply u16_inj; lia.
Qed.

Ltac peel H E :=
  apply app_inv_len in H;
  [destruct H as [E H]
  | rewrite ?len_u16, ?len_u8, ?len_f32, ?len_acc_block by assumption;
    reflexivity].

(** In-range records with the same buffer hold the same values. *)
Lemma blocks_inj (t1 t2 : typed_record) :
  in_range t1 -> in_range t2 ->
  fixed_block t1 ++ string_block t1 = fixed_block t2 ++ string_block t2 ->
  same_payload_values t1 t2.
Proof.
  intros I1 I2 H.
  apply app_inv_len in H;
    [|unfold len; rewrite !fixed_block_length by (apply I1 || apply I2);
      reflexivity].
  destruct H as [F S].
  destruct I1 as (A1 & A2 & A3 & A4 & A5 & A6 & A7 & AL & _ & _ & _ & _ & A11
                  & A12 & _ & _ & _ & _ & _ & A18 & _).
  destruct I2 as (B1 & B2 & B3 & B4 & B5 & B6 & B7 & BL & _ & _ & _ & _ & B11
                  & B12 & _ & _ & _ & _ & _ & B18 & _).
  unfold fixed_block in F.
  peel F E1. peel F E2. peel F E3. peel F E4. peel F E5. peel F E6. peel F E7.
  peel F E8. peel F E9. peel F E10. peel F E11. peel F E12. peel F E13.
  peel F E14. peel F E15. peel F E16. peel F E17. peel F E18. peel F E19.
  apply text_len_inj in E1, E2, E3, E5, E12; try assumption.
  apply u8_inj in E4, E6, E7, E13, E19; try assumption.
  unfold string_block in S.
  apply app_inv_len in S; [destruct S as [S1 S]|exact E1].
  apply app_inv_len in S; [destruct S as [S2 S]|exact E2].
  apply app_inv_len in S; [destruct S as [S3 S]|exact E3].
  apply app_inv_len in S; [destruct S as [S4 S]|exact E5].
  apply encode_utf8_inj in S1, S2, S3, S4, S.
  unfold same_payload_values. tauto.
Qed.

Lemma lossless_stored : lossless stored.
Proof. intros a b level H. exact H. Qed.

Lemma reads_annotated : reads annotated_test_data test_typed_record.
Proof.
  unfold reads, int_field, float_field.
  repeat split; try reflexivity; eexists; (split; [reflexivity|]);
    vm_compute; reflexivity.
Qed.










Lemma convert_ignores_other_keys (d1 d2 : dict string) :
  (forall k, In k field_order -> dict_get d1 k = dict_get d2 k) ->
  convert_to_typed_data d1 = convert_to_typed_data d2.
Proof.
  intros H.
  assert (G : forall k, In k field_order -> getitem d1 k = getitem d2 k)
    by (intros k Hk; unfold getitem; rewrite (H k Hk); reflexivity).
  unfold convert_to_typed_data.
  repeat match goal with
         | |- context [getitem d1 ?k] =>
             rewrite (G k) by (unfold field_order; cbn [In]; tauto)
         end.
  reflexivity.
Qed.

Section StructFurther.

Variable zlib_compress : list byte -> Z -> list byte.

(** X11: with a compressor that can be undone, the payload of the compact
    encoder determines the record: two records with the same payload hold
    the same 5 strings and the same 5 small integers, and their 12 floats
    have the same 4-byte encodings. *)
Theorem struct_payload_determines_record :
  forall (d1 d2 : dict string) (out : list byte),
    lossless zlib_compress ->
    struct_zlib_compress zlib_compress d1 = Ok out ->
    struct_zlib_compress zlib_compress d2 = Ok out ->
    exists t1 t2,
      reads d1 t1 /\ reads d2 t2 /\ same_payload_values t1 t2.
Proof.
  intros d1 d2 out L H1 H2.
  apply struct_zlib_compress_spec in H1, H2.
  destruct H1 as [t1 [R1 [I1 E1]]]. destruct H2 as [t2 [R2 [I2 E2]]].
  exists t1, t2. split; [exact R1|]. split; [exact R2|].
  apply blocks_inj; [exact I1 | exact I2|].
  apply (L _ _ 9). congruence.
Qed.

(** X12: the compact encoder reads the 20 fields and nothing else: two dicts
    that agree on the 20 fields give the same result, whatever other
    entries they hold. *)
Theorem struct_ignores_other_keys :
  forall d1 d2 : dict string,
    (forall k, In k field_order -> dict_get d1 k = dict_get d2 k) ->
    struct_zlib_compress zlib_compress d1 = struct_zlib_compress zlib_compress d2.
Proof.
  intros d1 d2 H. unfold struct_zlib_compress, binary_data.
  rewrite (convert_ignores_other_keys d1 d2 H). reflexivity.
Qed.


End StructFurther.

Lemma struct_payload_determines_record_witness :
  exists t1 t2,
    reads annotated_test_data t1 /\ reads generate_test_data t2 /\
    same_payload_values t1 t2.
Proof.
  apply (struct_payload_determines_record stored annotated_test_data
           generate_test_data test_buffer lossless_stored).
  - vm_compute. reflexivity.
  - vm_compute. reflexivity.
Defined.

Lemma struct_ignores_other_keys_witness :
  struct_zlib_compress stored annotated_test_data
  = struct_zlib_compress stored generate_test_data.
Proof.
  apply struct_ignores_other_keys. intros k Hk.
  unfold field_order in Hk. cbn [In] in Hk.
  repeat (destruct Hk as [<-|Hk]; [reflexivity|]). destruct Hk.
Defined.


Lemma list_getitem_in_range {A : Type} (l : list A) (i : Z) :
  0 <= i < len l -> exists x, list_getitem l i = Some x /\ In x l.
Proof.
  intros [L U]. unfold list_getitem.
  replace (0 <=? i) with true by (symmetry; apply Z.leb_le; exact L).
  destruct (nth_error l (Z.to_nat i)) as [x|] eqn:E.
  - exists x. split; [reflexivity|]. apply (nth_error_In _ _ E).
  - apply nth_error_None in E. unfold len in U. lia.
Qed.

Lemma list_getitem_nil {A : Type} (i : Z) : @list_getitem A [] i = None.
Proof.
  unfold list_getitem. change (- len (@nil A)) with 0.
  destruct (0 <=? i); [destruct (Z.to_nat i); reflexivity | reflexivity].
Qed.

Lemma mod_step (i k L : Z) :
  0 < L -> ((i + 1) mod L + k) mod L = (i + (1 + k)) mod L.
Proof.
  intros H. rewrite Zplus_mod_idemp_l. f_equal. lia.
Qed.

(** From any index in range, a user goes round the pool. *)
Lemma send_many_from (p : list pool_entry) (cls : cls_state) (n : nat) :
  _data_pool cls = Some p ->
  Forall (fun e => size e < MAX_PAYLOAD_SIZE) p ->
  forall m i,
    0 <= i < len p ->
    send_many n cls {| message_id := m; data_index := i |}
    = ({| message_id := m + Z.of_nat n;
          data_index := (i + Z.of_nat n) mod len p |},
       map (fun k => pool_body p (i + Z.of_nat k)) (seq 0 n)).
Proof.
  intros P F. induction n as [|n IH]; intros m i R.
  - cbn [send_many seq map Z.of_nat]. rewrite !Z.add_0_r, Z.mod_small by exact R.
    reflexivity.
  - cbn [send_many]. unfold send_container_data. rewrite P.
    cbn [data_index message_id].
    destruct (list_getitem_in_range p i R) as [x [G Hx]]. rewrite G.
    pose proof (proj1 (Forall_forall _ p) F x Hx) as S. cbn beta in S.
    cbv zeta.
    destruct (Z.geb_spec (size x) MAX_PAYLOAD_SIZE) as [C|_]; [lia|].
    assert (Lp : 0 < len p) by lia.
    rewrite IH by (apply Z.mod_pos_bound; exact Lp).
    f_equal.
    + f_equal; [lia|]. rewrite Nat2Z.inj_succ. rewrite mod_step by exact Lp.
      f_equal. lia.
    + cbn [seq map]. f_equal.
      * unfold pool_body. cbn [Z.of_nat]. rewrite Z.add_0_r, Z.mod_small by exact R.
        rewrite G. reflexivity.
      * rewrite <- seq_shift, map_map. apply map_ext. intros k.
        unfold pool_body. rewrite Nat2Z.inj_succ, mod_step by exact Lp.
        replace (Z.succ (Z.of_nat k)) with (1 + Z.of_nat k) by lia.
        reflexivity.
Qed.

(** X14: a user goes round the pool: from [on_start], with a pool that is not
    empty and whose entries are all under [MAX_PAYLOAD_SIZE], the [k]-th
    call of [send_container_data] posts the body of entry [k mod len(pool)]
    (counting from 0); after [n] calls [message_id] is [n] and
    [data_index] is [n mod len(pool)], which stays inside the pool. *)
Theorem send_container_data_round_robin :
  forall (cls : cls_state) (p : list pool_entry) (n : nat),
    _data_pool cls = Some p -> p <> [] ->
    Forall (fun e => size e < MAX_PAYLOAD_SIZE) p ->
    send_many n cls {| message_id := 0; data_index := 0 |}
    = ({| message_id := Z.of_nat n; data_index := Z.of_nat n mod len p |},
       map (fun k => pool_body p (Z.of_nat k)) (seq 0 n)) /\
    0 <= Z.of_nat n mod len p < len p.
Proof.
  intros cls p n P Ne F.
  assert (Lp : 0 < len p).
  { destruct p as [|e0 p0]; [contradiction|].
    rewrite len_cons. pose proof (len_nonneg p0). lia. }
  split; [|apply Z.mod_pos_bound; exact Lp].
  rewrite (send_many_from p cls n P F 0 0) by lia. reflexivity.
Qed.

Lemma send_container_data_round_robin_witness :
  send_many 3 example_class {| message_id := 0; data_index := 0 |}
  = ({| message_id := Z.of_nat 3;
        data_index := Z.of_nat 3 mod len example_pool |},
     map (fun k => pool_body example_pool (Z.of_nat k)) (seq 0 3)) /\
  0 <= Z.of_nat 3 mod len example_pool < len example_pool.
Proof.
  apply (send_container_data_round_robin example_class example_pool 3).
  - reflexivity.
  - discriminate.
  - repeat constructor.
Defined.

Section UserProperties.

Variable zlib_compress : list byte -> Z -> list byte.




(** X16: the pool is generated once.  When [on_start] returns, the counters
    of the user are 0 and the class is initialized, and the [on_start] of
    any later user leaves the class as it is and generates no record.  With
    a pool size of 0 or less [on_start] raises ZeroDivisionError and leaves
    an empty pool on a class that is not initialized: the task then posts
    nothing, and the next user tries again. *)
Theorem on_start_generates_once :
  forall (cls : cls_state) (samples : list (dict string)),
    (forall cls' u rest,
        on_start zlib_compress cls samples = Finished (cls', u) rest ->
        u = {| message_id := 0; data_index := 0 |} /\
        _pool_initialized cls' = true /\
        forall samples',
          on_start zlib_compress cls' samples' = Finished (cls', u) samples') /\
    (_pool_initialized cls = false -> _data_pool_size cls <= 0 ->
     exists cls',
       on_start zlib_compress cls samples
       = Failed (cls', {| message_id := 0; data_index := 0 |}) ZeroDivisionError /\
       _data_pool cls' = Some [] /\ _pool_initialized cls' = false /\
       forall u, send_container_data cls' u = (u, None)).
Proof.
  intros cls samples. split.
  - intros cls' u rest H. unfold on_start in H.
    destruct (_pool_initialized cls) eqn:I; cbn [negb] in H.
    + injection H as <- <- <-. split; [reflexivity|]. split; [exact I|].
      intros samples'. unfold on_start. rewrite I. reflexivity.
    + unfold initialize_data_pool in H. rewrite I in H.
      destruct (pool_loop zlib_compress (Z.to_nat (_data_pool_size cls))
                  (_data_pool_size cls) samples
                  {| pool := []; generated_count := 0; rejected_count := 0 |})
        as [st rest'| | |]; try discriminate H.
      destruct (len (pool st) =? 0); [discriminate H|].
      injection H as <- <- <-. split; [reflexivity|]. split; [reflexivity|].
      intros samples'. reflexivity.
  - intros I N. unfold on_start, initialize_data_pool. rewrite I. cbn [negb].
    assert (L : pool_loop zlib_compress (Z.to_nat (_data_pool_size cls))
                  (_data_pool_size cls) samples
                  {| pool := []; generated_count := 0; rejected_count := 0 |}
                = Finished
                    {| pool := []; generated_count := 0; rejected_count := 0 |}
                    samples).
    { destruct (Z.to_nat (_data_pool_size cls)); cbn [pool_loop generated_count];
        replace (0 <? _data_pool_size cls) with false
          by (symmetry; apply Z.ltb_ge; exact N);
        reflexivity. }
    rewrite L. cbn [pool]. change (len [] =? 0) with true. cbv iota.
    eexists. split; [reflexivity|]. cbn [with_pool _data_pool _pool_initialized].
    repeat split. intros u. unfold send_container_data, with_pool.
    cbn [_data_pool]. rewrite list_getitem_nil. reflexivity.
Qed.

(** X17: what the users post is within the budget: after the pool has been
    generated, each of [n] calls of the task posts one body; every body
    posted is the encoding of one of the generated records and has fewer
    than [MAX_PAYLOAD_SIZE] bytes, and the check of the size in
    [send_container_data] never skips an entry. *)
Theorem posted_bodies_within_budget :
  forall (cls cls' : cls_state) (samples rest : list (dict string)) (n : nat),
    _pool_initialized cls = false ->
    initialize_data_pool zlib_compress cls samples = Finished cls' rest ->
    exists u posted,
      send_many n cls' {| message_id := 0; data_index := 0 |} = (u, posted) /\
      message_id u = Z.of_nat n /\ List.length posted = n /\
      Forall (fun b =>
                len b < MAX_PAYLOAD_SIZE /\
                exists d, In d samples /\
                          struct_zlib_compress zlib_compress d = Ok b) posted.
Proof.
  intros cls cls' samples rest n I H. unfold initialize_data_pool in H.
  rewrite I in H.
  destruct (pool_loop zlib_compress (Z.to_nat (_data_pool_size cls))
              (_data_pool_size cls) samples
              {| pool := []; generated_count := 0; rejected_count := 0 |})
    as [st rest'| | |] eqn:L; try discriminate H.
  destruct (Z.eqb_spec (len (pool st)) 0) as [Z|Z]; [discriminate H|].
  injection H as <- <-.
  apply pool_loop_finished in L.
  destruct L as [consumed (S & A & P & _)]. cbn [pool app] in P.
  assert (O : Forall (fun e => entry_ok zlib_compress e /\ In (original e) samples)
                (pool st)).
  { rewrite P. apply Forall_forall. intros e He. apply in_map_iff in He.
    destruct He as [d [<- Hd]]. apply filter_In in Hd. destruct Hd as [Hd Ha].
    split; [apply entry_of_accepted; exact Ha|].
    unfold entry_of. cbn [original]. rewrite S. apply in_or_app. left. exact Hd. }
  assert (F : Forall (fun e => size e < MAX_PAYLOAD_SIZE) (pool st)).
  { apply (Forall_impl _ (P := fun e => entry_ok zlib_compress e
                                 /\ In (original e) samples)); [|exact O].
    intros e [[_ [_ B]] _]. exact B. }
  assert (Lp : 0 < len (pool st)) by (pose proof (len_nonneg (pool st)); lia).
  rewrite (send_many_from (pool st) (with_pool cls (pool st) true) n eq_refl F 0 0)
    by lia.
  eexists. eexists. split; [reflexivity|].
  cbn [message_id]. split; [reflexivity|].
  split; [rewrite length_map, length_seq; reflexivity|].
  apply Forall_forall. intros b Hb. apply in_map_iff in Hb.
  destruct Hb as [k [<- _]]. unfold pool_body. rewrite Z.add_0_l.
  destruct (list_getitem_in_range (pool st) (Z.of_nat k mod len (pool st)))
    as [x [G Hx]]; [apply Z.mod_pos_bound; exact Lp|].
  rewrite G. rewrite Forall_forall in O.
  destruct (O x Hx) as [[E [Sz B]] Hin].
  split; [rewrite <- Sz; exact B|].
  exists (original x). split; [exact Hin | exact E].
Qed.

End UserProperties.


Lemma on_start_generates_once_witness :
  exists cls',
    on_start stored empty_class [generate_test_data]
    = Failed (cls', {| message_id := 0; data_index := 0 |}) ZeroDivisionError /\
    _data_pool cls' = Some [] /\ _pool_initialized cls' = false /\
    forall u, send_container_data cls' u = (u, None).
Proof.
  apply (proj2 (on_start_generates_once stored empty_class [generate_test_data])).
  - reflexivity.
  - cbn. lia.
Defined.

Lemma posted_bodies_within_budget_witness :
  exists u posted,
    send_many 3 filled_class {| message_id := 0; data_index := 0 |}
    = (u, posted) /\
    message_id u = Z.of_nat 3 /\ List.length posted = 3%nat /\
    Forall (fun b =>
              len b < MAX_PAYLOAD_SIZE /\
              exists d, In d [generate_test_data; oversized_record;
                              generate_test_data] /\
                        struct_zlib_compress stored d = Ok b) posted.
Proof.
  apply (posted_bodies_within_budget stored fresh_class filled_class
           [generate_test_data; oversized_record; generate_test_data] [] 3).
  - reflexivity.
  - vm_compute. reflexivity.
Defined.



Section UnlimitedProperties.

Variable compress : dict string -> result (list byte).









Lemma unlimited_send_many_from (p : list pool_entry) (cls : cls_state) (n : nat) :
  _data_pool cls = Some p ->
  forall m i,
    0 <= i < len p ->
    Unlimited.send_many n cls {| message_id := m; data_index := i |}
    = ({| message_id := m + Z.of_nat n;
          data_index := (i + Z.of_nat n) mod len p |},
       map (fun k => pool_body p (i + Z.of_nat k)) (seq 0 n)).
Proof.
  intros P. induction n as [|n IH]; intros m i R.
  - cbn [Unlimited.send_many seq map Z.of_nat].
    rewrite !Z.add_0_r, Z.mod_small by exact R. reflexivity.
  - cbn [Unlimited.send_many]. unfold Unlimited.send_container_data. rewrite P.
    cbn [data_index message_id].
    destruct (list_getitem_in_range p i R) as [x [G Hx]]. rewrite G.
    cbv zeta. assert (Lp : 0 < len p) by lia.
    rewrite IH by (apply Z.mod_pos_bound; exact Lp).
    f_equal.
    + f_equal; [lia|]. rewrite Nat2Z.inj_succ. rewrite mod_step by exact Lp.
      f_equal. lia.
    + cbn [seq map]. f_equal.
      * unfold pool_body. cbn [Z.of_nat]. rewrite Z.add_0_r, Z.mod_small by exact R.
        rewrite G. reflexivity.
      * rewrite <- seq_shift, map_map. apply map_ext. intros k.
        unfold pool_body. rewrite Nat2Z.inj_succ, mod_step by exact Lp.
        replace (Z.succ (Z.of_nat k)) with (1 + Z.of_nat k) by lia.
        reflexivity.
Qed.


(** X19: a user of a sender without a size limit goes round the pool and
    posts every entry: from [on_start], with a pool that is not empty, the
    [k]-th call of [send_container_data] posts the body of entry
    [k mod len(pool)] (counting from 0); after [n] calls [message_id] is
    [n] and [data_index] is [n mod len(pool)], inside the pool.  With an
    empty pool or none the call posts nothing and changes nothing. *)
Theorem unlimited_send_round_robin :
  forall (cls : cls_state) (n : nat) (u : user_state),
    (forall p,
        _data_pool cls = Some p -> p <> [] ->
        Unlimited.send_many n cls {| message_id := 0; data_index := 0 |}
        = ({| message_id := Z.of_nat n; data_index := Z.of_nat n mod len p |},
           map (fun k => pool_body p (Z.of_nat k)) (seq 0 n)) /\
        0 <= Z.of_nat n mod len p < len p) /\
    (_data_pool cls = None \/ _data_pool cls = Some [] ->
     Unlimited.send_container_data cls u = (u, None)).
Proof.
  intros cls n u. split.
  - intros p P Ne.
    assert (Lp : 0 < len p).
    { destruct p as [|e0 p0]; [contradiction|].
      rewrite len_cons. pose proof (len_nonneg p0). lia. }
    split; [|apply Z.mod_pos_bound; exact Lp].
    rewrite (unlimited_send_many_from p cls n P 0 0) by lia. reflexivity.
  - intros [N|N]; unfold Unlimited.send_container_data; rewrite N;
      [reflexivity|]. rewrite list_getitem_nil. reflexivity.
Qed.

End UnlimitedProperties.


Lemma unlimited_send_round_robin_witness :
  Unlimited.send_many 3 example_class {| message_id := 0; data_index := 0 |}
  = ({| message_id := Z.of_nat 3;
        data_index := Z.of_nat 3 mod len example_pool |},
     map (fun k => pool_body example_pool (Z.of_nat k)) (seq 0 3)) /\
  0 <= Z.of_nat 3 mod len example_pool < len example_pool.
Proof.
  apply (proj1 (unlimited_send_round_robin example_class 3
                  {| message_id := 0; data_index := 0 |}) example_pool).
  - reflexivity.
  - discriminate.
Defined.

(** ** The two accelerometer parsers on whitespace-separated numbers *)

Lemma space_not_digit (c : ascii) : is_space c = true -> is_digit c = false.
Proof.
  intros S. destruct (is_digit c) eqn:D; [|reflexivity].
  rewrite (digit_not_space c D) in S. discriminate S.
Qed.

Lemma space_not_sign (c : ascii) : is_space c = true -> is_sign c = false.
Proof.
  intros S. destruct (is_sign c) eqn:D; [|reflexivity].
  rewrite (sign_not_space c D) in S. discriminate S.
Qed.

Lemma dot_not_space (c : ascii) : code c = 46 -> is_space c = false.
Proof.
  intros H. unfold is_space. rewrite H. reflexivity.
Qed.

Lemma span_digits_app (ds rest : list ascii) :
  forallb is_digit ds = true ->
  match rest with c :: _ => is_digit c = false | [] => True end ->
  span_digits (ds ++ rest) = (ds, rest).
Proof.
  intros F R. induction ds as [|d ds IH]; cbn [app].
  - apply span_digits_nodigit. exact R.
  - cbn [forallb] in F. apply andb_true_iff in F. destruct F as [D F].
    cbn [span_digits]. rewrite D, (IH F). reflexivity.
Qed.

Lemma stops_nodigit (rest : list ascii) :
  stops rest -> match rest with c :: _ => is_digit c = false | [] => True end.
Proof. destruct rest; [tauto | intros [H _]; exact H]. Qed.

Lemma match_number_complete (tok rest : list ascii) :
  number_syntax tok -> stops rest ->
  match_number (tok ++ rest) = Some (tok, rest).
Proof.
  intros N R.
  assert (B : exists sgn body,
             tok = sgn ++ body /\ optional_sign sgn /\
             (match_number (body ++ rest) = Some (body, rest)) /\
             exists d t, body = d :: t /\ is_digit d = true).
  { assert (M : forall ds, digits ds ->
                 match_number (ds ++ rest) = Some (ds, rest) /\
                 exists d t, ds = d :: t /\ is_digit d = true).
    { intros ds Hd. destruct (digits_head ds Hd) as [d [t [-> [D F]]]].
      split; [|exists d, t; tauto].
      unfold match_number. cbn [app]. rewrite (digit_not_sign d D).
      change (d :: t ++ rest) with ((d :: t) ++ rest).
      rewrite (span_digits_app (d :: t) rest);
        [|cbn [forallb]; rewrite D, F; reflexivity
         |apply stops_nodigit; exact R].
      destruct rest as [|c r]; [reflexivity|]. destruct R as [_ R].
      replace (code c =? 46) with false by (symmetry; apply Z.eqb_neq; exact R).
      reflexivity. }
    destruct N as [sgn ds Hs Hd | sgn ds fs dot Hs Hd Dot Hf].
    - exists sgn, ds. destruct (M ds Hd) as [E H]. tauto.
    - exists sgn, (ds ++ dot :: fs). split; [reflexivity|]. split; [exact Hs|].
      destruct (digits_head ds Hd) as [d [t [-> [D F]]]].
      split; [|exists d, (t ++ dot :: fs); split; [reflexivity | exact D]].
      unfold match_number. cbn [app]. rewrite (digit_not_sign d D).
      rewrite <- app_assoc.
      change (d :: t ++ (dot :: fs) ++ rest)
        with ((d :: t) ++ dot :: fs ++ rest).
      assert (Dd : is_digit dot = false).
      { destruct (is_digit dot) eqn:X; [|reflexivity].
        apply digit_code in X. lia. }
      rewrite (span_digits_app (d :: t) (dot :: fs ++ rest));
        [|cbn [forallb]; rewrite D, F; reflexivity | exact Dd].
      replace (code dot =? 46) with true by (symmetry; apply Z.eqb_eq; exact Dot).
      destruct Hf as [Nf Ff].
      rewrite (span_digits_app fs rest Ff (stops_nodigit rest R)).
      destruct fs as [|f fs]; [contradiction|].
      cbn [app]. rewrite <- ?app_assoc. cbn [app]. reflexivity. }
  destruct B as [sgn [body [-> [Hs [M [d [t [Eb D]]]]]]]].
  destruct Hs as [->|[g [G ->]]]; [exact M|].
  rewrite <- app_assoc. cbn [app].
  unfold match_number in *. rewrite G.
  subst body. cbn [app] in *. rewrite (digit_not_sign d D) in M.
  destruct (span_digits (d :: t ++ rest)) as [[|x ds] s2]; [discriminate M|].
  destruct s2 as [|dot s3].
  - cbn [app] in *. congruence.
  - destruct (code dot =? 46).
    + destruct (span_digits s3) as [[|f fs] s4]; cbn [app] in *; congruence.
    + cbn [app] in *. congruence.
Qed.

Lemma match_number_space (c : ascii) (t : list ascii) :
  is_space c = true -> match_number (c :: t) = None.
Proof.
  intros S. unfold match_number. rewrite (space_not_sign c S).
  cbn [span_digits]. rewrite (space_not_digit c S). reflexivity.
Qed.

(** The scan does not depend on the fuel once there is enough of it. *)
Lemma findall_from_enough (f1 : nat) :
  forall (f2 : nat) (s : list ascii),
    (List.length s <= f1)%nat -> (List.length s <= f2)%nat ->
    findall_from f1 s = findall_from f2 s.
Proof.
  induction f1 as [|f1 IH]; intros f2 s L1 L2.
  - destruct s; [|cbn in L1; lia]. destruct f2; reflexivity.
  - destruct s as [|c t]; [destruct f2; reflexivity|].
    destruct f2 as [|f2]; [cbn in L2; lia|].
    cbn [findall_from]. cbn [List.length] in L1, L2.
    destruct (match_number (c :: t)) as [[tok rest]|] eqn:M.
    + apply match_number_spec in M. destruct M as [E [_ Ne]].
      apply (f_equal (@List.length ascii)) in E. rewrite length_app in E.
      cbn [List.length] in E.
      assert (0 < List.length tok)%nat
        by (destruct tok; [contradiction | cbn; lia]).
      f_equal. apply IH; lia.
    + apply IH; lia.
Qed.

Lemma findall_from_cons (fuel : nat) (c : ascii) (t : list ascii) :
  findall_from (S fuel) (c :: t)
  = match match_number (c :: t) with
    | Some (tok, rest) => string_of_list_ascii tok :: findall_from fuel rest
    | None => findall_from fuel t
    end.
Proof. reflexivity. Qed.

Lemma findall_from_token (fuel : nat) (tok rest : list ascii) :
  number_syntax tok -> stops rest ->
  (List.length (tok ++ rest) <= fuel)%nat ->
  findall_from fuel (tok ++ rest)
  = string_of_list_ascii tok :: findall_from fuel rest.
Proof.
  intros N R L. destruct fuel as [|fuel].
  - destruct tok as [|c tok]; [|cbn in L; lia].
    exfalso. inversion N as [sgn ds Hs [Hd _] E | sgn ds fs dot Hs [Hd _] _ _ E];
      destruct sgn, ds; try discriminate E; contradiction.
  - pose proof (match_number_complete tok rest N R) as M.
    assert (Ne : tok <> []) by (apply (match_number_spec _ _ _ M)).
    destruct tok as [|c tok]; [contradiction|].
    cbn [app] in *. rewrite (findall_from_cons fuel c (tok ++ rest)), M. f_equal.
    cbn [List.length] in L. rewrite length_app in L.
    apply findall_from_enough; lia.
Qed.

Lemma findall_from_spaces (fuel : nat) (sep rest : list ascii) :
  forallb is_space sep = true ->
  (List.length (sep ++ rest) <= fuel)%nat ->
  findall_from fuel (sep ++ rest) = findall_from fuel rest.
Proof.
  revert fuel. induction sep as [|c sep IH]; intros fuel F L; [reflexivity|].
  cbn [forallb] in F. apply andb_true_iff in F. destruct F as [S F].
  cbn [app List.length] in *. destruct fuel as [|fuel]; [lia|].
  rewrite (findall_from_cons fuel c (sep ++ rest)), (match_number_space c _ S).
  rewrite IH by (exact F || lia).
  rewrite length_app in L. apply findall_from_enough; lia.
Qed.

Lemma spaces_stop (sep rest : list ascii) : spaces sep -> stops (sep ++ rest).
Proof.
  intros [Ne F]. destruct sep as [|c sep]; [contradiction|].
  cbn [forallb] in F. apply andb_true_iff in F. destruct F as [S _].
  cbn [app stops]. split; [apply space_not_digit; exact S|].
  intros D. rewrite (dot_not_space c D) in S. discriminate S.
Qed.

Lemma findall_spaced_triple (t1 t2 t3 sep1 sep2 : list ascii) :
  number_syntax t1 -> number_syntax t2 -> number_syntax t3 ->
  spaces sep1 -> spaces sep2 ->
  findall (spaced_triple t1 t2 t3 sep1 sep2)
  = [string_of_list_ascii t1; string_of_list_ascii t2; string_of_list_ascii t3].
Proof.
  intros N1 N2 N3 S1 S2. unfold findall, spaced_triple.
  rewrite <- length_list_ascii_of_string, list_ascii_of_string_of_list_ascii.
  set (fuel := List.length (t1 ++ sep1 ++ t2 ++ sep2 ++ t3)).
  assert (L : (List.length (t1 ++ sep1 ++ t2 ++ sep2 ++ t3) <= fuel)%nat)
    by (subst fuel; lia).
  clearbody fuel. rewrite !length_app in L.
  rewrite findall_from_token
    by (try assumption; try (apply spaces_stop; assumption);
        rewrite !length_app; lia).
  rewrite findall_from_spaces by (try apply S1; rewrite !length_app; lia).
  rewrite findall_from_token
    by (try assumption; try (apply spaces_stop; assumption);
        rewrite !length_app; lia).
  rewrite findall_from_spaces by (try apply S2; rewrite !length_app; lia).
  assert (E3 : findall_from fuel t3 = [string_of_list_ascii t3]).
  { pose proof (findall_from_token fuel t3 [] N3 I) as E.
    rewrite app_nil_r in E. rewrite E by lia. destruct fuel; reflexivity. }
  rewrite E3. reflexivity.
Qed.

(** A number holds no whitespace. *)
Lemma number_no_space (tok : list ascii) :
  number_syntax tok -> forallb (fun c => negb (is_space c)) tok = true /\ tok <> [].
Proof.
  assert (Hd : forall ds, forallb is_digit ds = true ->
                          forallb (fun c => negb (is_space c)) ds = true).
  { intros ds F. induction ds as [|d ds IH]; [reflexivity|].
    cbn [forallb] in *. apply andb_true_iff in F. destruct F as [D F].
    rewrite (digit_not_space d D), (IH F). reflexivity. }
  assert (Hs : forall sgn, optional_sign sgn ->
                           forallb (fun c => negb (is_space c)) sgn = true).
  { intros sgn [->|[g [G ->]]]; [reflexivity|].
    cbn [forallb]. rewrite (sign_not_space g G). reflexivity. }
  intros N. destruct N as [sgn ds S [Ne F] | sgn ds fs dot S [Ne F] Dot [Nf Ff]].
  - split; [rewrite forallb_app, (Hs sgn S), (Hd ds F); reflexivity|].
    destruct sgn, ds; try discriminate; contradiction.
  - split.
    + rewrite !forallb_app. cbn [forallb].
      rewrite (Hs sgn S), (Hd ds F), (Hd fs Ff), (dot_not_space dot Dot).
      reflexivity.
    + destruct sgn, ds; try discriminate; contradiction.
Qed.

Lemma split_from_word (w rest cur : list ascii) :
  forallb (fun c => negb (is_space c)) w = true ->
  split_from (w ++ rest) cur = split_from rest (rev w ++ cur).
Proof.
  revert cur. induction w as [|c w IH]; intros cur F; [reflexivity|].
  cbn [forallb] in F. apply andb_true_iff in F. destruct F as [S F].
  apply negb_true_iff in S. cbn [app split_from]. rewrite S.
  rewrite (IH _ F). cbn [rev]. rewrite <- app_assoc. reflexivity.
Qed.

Lemma split_from_spaces (sep rest cur : list ascii) :
  spaces sep ->
  split_from (sep ++ rest) cur = flush cur ++ split_from rest [].
Proof.
  intros [Ne F]. destruct sep as [|c sep]; [contradiction|]. clear Ne.
  cbn [forallb] in F. apply andb_true_iff in F. destruct F as [S F].
  cbn [app split_from]. rewrite S. f_equal.
  induction sep as [|c' sep IH]; [reflexivity|].
  cbn [forallb] in F. apply andb_true_iff in F. destruct F as [S' F].
  cbn [app split_from]. rewrite S'. cbn [flush app]. exact (IH F).
Qed.

Lemma flush_word (w : list ascii) :
  w <> [] -> flush (rev w ++ []) = [string_of_list_ascii w].
Proof.
  intros Ne. rewrite app_nil_r. unfold flush.
  destruct (rev w) as [|c t] eqn:E.
  - apply (f_equal (@rev ascii)) in E. rewrite rev_involutive in E. contradiction.
  - rewrite <- E, rev_involutive. reflexivity.
Qed.

Lemma split_spaced_triple (t1 t2 t3 sep1 sep2 : list ascii) :
  number_syntax t1 -> number_syntax t2 -> number_syntax t3 ->
  spaces sep1 -> spaces sep2 ->
  str_split (spaced_triple t1 t2 t3 sep1 sep2)
  = [string_of_list_ascii t1; string_of_list_ascii t2; string_of_list_ascii t3].
Proof.
  intros N1 N2 N3 S1 S2. unfold str_split, spaced_triple.
  rewrite list_ascii_of_string_of_list_ascii.
  destruct (number_no_space t1 N1) as [F1 E1].
  destruct (number_no_space t2 N2) as [F2 E2].
  destruct (number_no_space t3 N3) as [F3 E3].
  rewrite (split_from_word t1 _ [] F1), (split_from_spaces sep1 _ _ S1).
  rewrite (flush_word t1 E1).
  rewrite (split_from_word t2 _ [] F2), (split_from_spaces sep2 _ _ S2).
  rewrite (flush_word t2 E2).
  pose proof (split_from_word t3 [] [] F3) as W3. rewrite app_nil_r in W3.
  rewrite W3. cbn [split_from]. rewrite (flush_word t3 E3). reflexivity.
Qed.

(** X20: on three numbers separated by whitespace, the form the generators
    write, the two encoders read the same accelerometer vector: [parse_acc]
    of the positional encoder and the split-and-convert of the compact
    struct encoder both return the three floats of the three numbers. *)
Theorem acc_parsers_agree :
  forall t1 t2 t3 sep1 sep2 : list ascii,
    number_syntax t1 -> number_syntax t2 -> number_syntax t3 ->
    spaces sep1 -> spaces sep2 ->
    exists x y z,
      py_float (string_of_list_ascii t1) = Ok x /\
      py_float (string_of_list_ascii t2) = Ok y /\
      py_float (string_of_list_ascii t3) = Ok z /\
      parse_acc (spaced_triple t1 t2 t3 sep1 sep2) = Ok [x; y; z] /\
      mapM py_float (str_split (spaced_triple t1 t2 t3 sep1 sep2))
      = Ok [x; y; z].
Proof.
  intros t1 t2 t3 sep1 sep2 N1 N2 N3 S1 S2.
  destruct (py_float_token t1 N1) as [x X].
  destruct (py_float_token t2 N2) as [y Y].
  destruct (py_float_token t3 N3) as [z Z].
  exists x, y, z. split; [exact X|]. split; [exact Y|]. split; [exact Z|].
  unfold parse_acc, _str.
  rewrite (findall_spaced_triple t1 t2 t3 sep1 sep2 N1 N2 N3 S1 S2).
  rewrite (split_spaced_triple t1 t2 t3 sep1 sep2 N1 N2 N3 S1 S2).
  cbn [List.length Nat.eqb negb mapM]. rewrite X, Y, Z. split; reflexivity.
Qed.

Lemma number_syntax_check (sgn ds fs : list ascii) :
  optional_sign sgn -> digits ds -> digits fs ->
  number_syntax (sgn ++ ds ++ "."%char :: fs).
Proof. intros S D F. apply number_fraction; auto. Qed.

Lemma acc_parsers_agree_witness :
  exists x y z,
    py_float "-974.0700" = Ok x /\ py_float "-25.1270" = Ok y /\
    py_float "-45.6744" = Ok z /\
    parse_acc "-974.0700 -25.1270 -45.6744" = Ok [x; y; z] /\
    mapM py_float (str_split "-974.0700 -25.1270 -45.6744") = Ok [x; y; z].
Proof.
  apply (acc_parsers_agree
           (list_ascii_of_string "-974.0700") (list_ascii_of_string "-25.1270")
           (list_ascii_of_string "-45.6744") [" "%char] [" "%char]).
  - apply (number_syntax_check ["-"%char] (list_ascii_of_string "974")
             (list_ascii_of_string "0700")).
    + right. exists "-"%char. split; reflexivity.
    + split; [discriminate | reflexivity].
    + split; [discriminate | reflexivity].
  - apply (number_syntax_check ["-"%char] (list_ascii_of_string "25")
             (list_ascii_of_string "1270")).
    + right. exists "-"%char. split; reflexivity.
    + split; [discriminate | reflexivity].
    + split; [discriminate | reflexivity].
  - apply (number_syntax_check ["-"%char] (list_ascii_of_string "45")
             (list_ascii_of_string "6744")).
    + right. exists "-"%char. split; reflexivity.
    + split; [discriminate | reflexivity].
    + split; [discriminate | reflexivity].
  - split; [discriminate | reflexivity].
  - split; [discriminate | reflexivity].
Defined.



Section SerializeErrors.

Variable int_field_ok : string -> Z -> bool.
Variable SerializeToString : ContainerData -> list byte.




End SerializeErrors.


(** ** The steps of the incremental load test *)

Lemma range_of_steps (step top : Z) :
  0 < step ->
  py_range step (top + 1) step
  = Some (map (fun i => (Z.of_nat i + 1) * step)
              (seq 0 (Z.to_nat (top / step)))).
Proof.
  intros H. unfold py_range, range_length.
  replace (step =? 0) with false by (symmetry; apply Z.eqb_neq; lia).
  replace (0 <? step) with true by (symmetry; apply Z.ltb_lt; exact H).
  replace (top + 1 - step + step - 1) with top by lia.
  f_equal.
  replace (Z.to_nat (Z.max 0 (top / step))) with (Z.to_nat (top / step)) by lia.
  apply map_ext. intros i. lia.
Qed.

Section RunTestProperties.

Variable subprocess_run : list string -> Z -> run_outcome.
Variable __file__ : string.

Lemma run_steps_app (self : IncrementalLoadTest) (host : string)
  (steps : list Z) :
  forall results,
    (forall u, In u steps ->
               forall what, subprocess_run (command __file__ self host u)
                              (step_duration self + 30) <> RunFailed what) ->
    exists added,
      run_steps subprocess_run __file__ self host steps results
      = inl (results ++ added) /\
      map users added = steps /\
      Forall (fun r =>
                run_step subprocess_run __file__ self host (users r) = inl r)
             added.
Proof.
  induction steps as [|u steps IH]; intros results H.
  - exists []. rewrite app_nil_r. repeat split. constructor.
  - cbn [run_steps].
    destruct (run_step subprocess_run __file__ self host u) as [r|e] eqn:E.
    + destruct (IH (results ++ [r])) as [added [R [M F]]].
      { intros u' Hu'. apply H. right. exact Hu'. }
      exists (r :: added). rewrite R, <- app_assoc. cbn [app map].
      assert (U : users r = u).
      { unfold run_step in E.
        destruct (subprocess_run _ _) as [out err| |w];
          [destruct (substring_in _ out)| |]; try discriminate E;
          injection E as <-; reflexivity. }
      split; [reflexivity|]. split; [rewrite U, M; reflexivity|].
      constructor; [rewrite U; exact E | exact F].
    + exfalso. unfold run_step in E.
      destruct (subprocess_run _ _) as [out err| |w] eqn:S;
        [destruct (substring_in _ out)| |]; try discriminate E.
      exact (H u (or_introl eq_refl) w S).
Qed.

(** X22: the incremental load test runs one test for each multiple of
    [step_size] up to [max_users], in increasing order: with a positive
    step and a [subprocess.run] that raises nothing but the timeout,
    [run_test] returns [max_users // step_size] results (none when the step
    is larger than [max_users]), the [k]-th for [k * step_size] users; a
    result is a success exactly when the process has ended with the words
    "Total requests" in its output, and after a timeout its output is "Test
    timed out".  With a step of 0 [run_test] raises before any test is
    run. *)
Theorem run_test_steps :
  forall (self : IncrementalLoadTest) (host : string),
    (step_size self = 0 ->
     run_test subprocess_run __file__ self host = inr ZeroStep) /\
    (0 < step_size self ->
     (forall u what,
         subprocess_run (command __file__ self host u) (step_duration self + 30)
         <> RunFailed what) ->
     exists results,
       run_test subprocess_run __file__ self host = inl results /\
       map users results
       = map (fun i => (Z.of_nat i + 1) * step_size self)
             (seq 0 (Z.to_nat (max_users self / step_size self))) /\
       Forall (fun r =>
                 match subprocess_run (command __file__ self host (users r))
                         (step_duration self + 30) with
                 | Completed stdout stderr =>
                     success r = substring_in "Total requests" stdout /\
                     output r = (if success r then stdout else stderr)
                 | TimeoutExpired =>
                     success r = false /\ output r = "Test timed out"
                 | RunFailed _ => False
                 end) results).
Proof.
  intros self host. split.
  - intros Z. unfold run_test, py_range. rewrite Z. reflexivity.
  - intros P H. unfold run_test. rewrite (range_of_steps _ _ P).
    destruct (run_steps_app self host
                (map (fun i => (Z.of_nat i + 1) * step_size self)
                     (seq 0 (Z.to_nat (max_users self / step_size self)))) [])
      as [added [R [M F]]].
    { intros u _ what. apply H. }
    exists added. cbn [app] in R. split; [exact R|]. split; [exact M|].
    apply (Forall_impl _ (P := fun r =>
             run_step subprocess_run __file__ self host (users r) = inl r));
      [|exact F].
    intros r E. unfold run_step in E.
    destruct (subprocess_run _ _) as [out err| |w].
    + destruct (substring_in "Total requests" out) eqn:T;
        injection E as <-; cbn [success output]; rewrite ?T; split; reflexivity.
    + injection E as <-. split; reflexivity.
    + discriminate E.
Qed.

End RunTestProperties.

Lemma run_test_steps_witness :
  exists results,
    run_test summary_run "locust_sender.py" default_load_test
      "http://localhost:3000"
    = inl results /\
    map users results
    = map (fun i => (Z.of_nat i + 1) * step_size default_load_test)
          (seq 0 (Z.to_nat (max_users default_load_test
                            / step_size default_load_test))) /\
    Forall (fun r =>
              match summary_run
                      (command "locust_sender.py" default_load_test
                         "http://localhost:3000" (users r))
                      (step_duration default_load_test + 30) with
              | Completed stdout stderr =>
                  success r = substring_in "Total requests" stdout /\
                  output r = (if success r then stdout else stderr)
              | TimeoutExpired =>
                  success r = false /\ output r = "Test timed out"
              | RunFailed _ => False
              end) results.
Proof.
  apply (proj2 (run_test_steps summary_run "locust_sender.py" default_load_test
                  "http://localhost:3000")).
  - reflexivity.
  - intros u what. discriminate.
Defined.

(** ** The hexadecimal listing *)

Lemma hex_cons (x : byte) (t : list byte) :
  list_ascii_of_string (hex (x :: t))
  = hex_digit (byte_to_Z x / 16) :: hex_digit (byte_to_Z x mod 16)
      :: list_ascii_of_string (hex t).
Proof. reflexivity. Qed.

Lemma hex_length (b : list byte) :
  String.length (hex b) = (2 * List.length b)%nat.
Proof. induction b as [|x b IH]; cbn [hex String.length List.length]; lia. Qed.

Lemma hex_skipn (n : nat) :
  forall b : list byte,
    skipn (2 * n) (list_ascii_of_string (hex b))
    = list_ascii_of_string (hex (skipn n b)).
Proof.
  induction n as [|n IH]; intros b; [reflexivity|].
  destruct b as [|x b]; [reflexivity|].
  replace (2 * S n)%nat with (S (S (2 * n))) by lia.
  rewrite hex_cons. cbn [skipn]. apply IH.
Qed.

Lemma hex_firstn (n : nat) :
  forall b : list byte,
    firstn (2 * n) (list_ascii_of_string (hex b))
    = list_ascii_of_string (hex (firstn n b)).
Proof.
  induction n as [|n IH]; intros b; [reflexivity|].
  destruct b as [|x b]; [reflexivity|].
  replace (2 * S n)%nat with (S (S (2 * n))) by lia.
  rewrite !hex_cons. cbn [firstn]. rewrite hex_cons, IH. reflexivity.
Qed.

Lemma string_of_list_ascii_hex (b : list byte) :
  string_of_list_ascii (list_ascii_of_string (hex b)) = hex b.
Proof. apply string_of_list_ascii_of_string. Qed.

(** A slice of 64 characters of the text is the text of 32 bytes. *)
Lemma slice_hex (b : list byte) (k : nat) :
  slice (hex b) (Z.of_nat k * 64) (Z.of_nat k * 64 + 64)
  = hex (firstn 32 (skipn (32 * k) b)).
Proof.
  unfold slice. cbv zeta.
  replace (Z.to_nat (Z.of_nat k * 64 + 64 - Z.of_nat k * 64)) with (2 * 32)%nat
    by lia.
  replace (Z.to_nat (Z.of_nat k * 64)) with (2 * (32 * k))%nat by lia.
  rewrite hex_skipn, hex_firstn. apply string_of_list_ascii_hex.
Qed.

Lemma hex_app (b1 b2 : list byte) :
  hex (b1 ++ b2) = String.append (hex b1) (hex b2).
Proof. induction b1 as [|x b1 IH]; cbn [app hex String.append]; congruence. Qed.

Lemma append_empty (s : string) : String.append s "" = s.
Proof. induction s as [|c s IH]; cbn; congruence. Qed.

Lemma concat_empty_cons (x : string) (l : list string) :
  String.concat "" (x :: l) = String.append x (String.concat "" l).
Proof.
  destruct l as [|y l]; cbn [String.concat]; [|reflexivity].
  symmetry. apply append_empty.
Qed.

(** Blocks of 32 bytes, one after the other, make up the data. *)
Lemma blocks_concat (n : nat) :
  forall b : list byte,
    (List.length b <= 32 * n)%nat ->
    String.concat ""
      (map (fun k => hex (firstn 32 (skipn (32 * k) b))) (seq 0 n))
    = hex b.
Proof.
  induction n as [|n IH]; intros b L.
  - destruct b; [reflexivity | cbn in L; lia].
  - change (seq 0 (S n)) with (0%nat :: seq 1 n).
    rewrite <- seq_shift, map_cons, map_map, concat_empty_cons.
    replace (map (fun k => hex (firstn 32 (skipn (32 * S k) b))) (seq 0 n))
      with (map (fun k => hex (firstn 32 (skipn (32 * k) (skipn 32 b))))
                (seq 0 n)).
    + rewrite IH by (rewrite length_skipn; lia).
      change (skipn (32 * 0) b) with b.
      rewrite <- hex_app, firstn_skipn. reflexivity.
    + apply map_ext. intros k. rewrite skipn_skipn.
      replace (32 * k + 32)%nat with (32 * S k)%nat by lia. reflexivity.
Qed.

(** X23: the hexadecimal listing of [test_compression] shows the encoded
    record 32 bytes to a line: the lines are as many as the blocks of 32
    bytes (the last one may be shorter), line [k] starts with the offset
    [32 * k] on 4 hexadecimal digits and holds the digits of the bytes of
    block [k], and the digits of the lines, one after the other, are the
    digits of the whole record. *)
Theorem hex_listing_blocks :
  forall data : list byte,
    let blocks := seq 0 (Z.to_nat ((len data + 31) / 32)) in
    hex_listing data
    = map (fun k =>
             String.concat ""
               [format_04x (32 * Z.of_nat k); ": ";
                hex (firstn 32 (skipn (32 * k) data)); String "010"%char ""])
          blocks /\
    String.concat ""
      (map (fun k => hex (firstn 32 (skipn (32 * k) data))) blocks)
    = hex data.
Proof.
  intros data. cbv zeta. split.
  - unfold hex_listing, py_range, range_length. cbv zeta.
    rewrite hex_length. cbn [Z.eqb Z.ltb Z.compare].
    replace (Z.to_nat (Z.max 0 ((Z.of_nat (2 * List.length data) - 0 + 64 - 1) / 64)))
      with (Z.to_nat ((len data + 31) / 32)).
    + rewrite map_map. apply map_ext. intros k. rewrite Z.add_0_l.
      rewrite slice_hex.
      replace (Z.of_nat k * 64 / 2) with (32 * Z.of_nat k); [reflexivity|].
      replace (Z.of_nat k * 64) with (32 * Z.of_nat k * 2) by lia.
      rewrite Z.div_mul by lia. reflexivity.
    + unfold len. f_equal.
      replace (Z.of_nat (2 * List.length data) - 0 + 64 - 1)
        with (1 + (Z.of_nat (List.length data) + 31) * 2) by lia.
      replace 64 with (2 * 32) by lia.
      rewrite Z.max_r by (apply Z.div_pos; lia).
      rewrite <- Z.div_div by lia.
      rewrite Z.div_add by lia. reflexivity.
  - apply blocks_concat. unfold len.
    pose proof (Z.div_mod (Z.of_nat (List.length data) + 31) 32 ltac:(lia)).
    pose proof (Z.mod_pos_bound (Z.of_nat (List.length data) + 31) 32 ltac:(lia)).
    assert (0 <= (Z.of_nat (List.length data) + 31) / 32)
      by (apply Z.div_pos; lia).
    lia.
Qed.



Section TwoEncoders.

Variable int_field_ok : string -> Z -> bool.


End TwoEncoders.

